(** * A shallow embedding of the watchdog feeder daemon [dog.py]

    The daemon talks to its surroundings through a handful of calls:
    [time.time()], [time.sleep], [print], the three methods of the device
    handle ([write], [flush], [close]), the health predicate, and the
    asynchronous delivery of SIGTERM.  The embedding is a small monad that
    reads the answers of the surroundings from an environment [Env], threads
    the mutable state of the process ([State]) and collects the calls made
    ([Event]).  Exceptions are the second alternative of [Outcome].

    Timestamps and durations are Python floats, that is IEEE 754 binary64
    numbers: sums, differences and comparisons are those of the machine,
    rounding, infinities and NaN included.  The numbers given for
    [interval], [startup_delay] and [fail_timeout] are floats; a Python
    [int] that a double holds exactly behaves alike.  The device handle is
    a buffered text file: [write] only buffers, the text reaches the device
    when the handle is flushed or closed.  SIGTERM is delivered at most
    once, between two calls.  A health predicate that is not part of the
    program is answered by the surroundings, one answer per call.  The
    text of /proc/meminfo is ASCII. *)

From Stdlib Require Import ZArith List String Ascii Bool Arith Lia Floats.
From Stdlib Require DecimalString DecimalNat DecimalFacts.
Import ListNotations.

Open Scope float_scope.

(** ** Exceptions, log lines and observable calls *)

Inductive Exn : Type :=
| SystemExit (code : Z)      (* raised by sys.exit(code) *)
| OSError                    (* an operation on a file failed *)
| ValueError                 (* I/O operation on closed file; dict(), int() or time.sleep() given a bad value *)
| OverflowError              (* int() of an infinity; time.sleep() of a duration too large *)
| ProbeError                 (* raised by an external health predicate *)
| KilledBySignal.            (* SIGTERM with its default disposition *)

(** What the interpreter reports when the exception is never caught. *)
Definition exit_status (e : Exn) : Z :=
  match e with
  | SystemExit code => code
  | _ => 1%Z
  end.

(** The lines printed by the program, one constructor per [print] of the
    source (the texts are Chinese; the constructors carry the interpolated
    values). *)
Inductive Message : Type :=
| MsgBoot                                       (* dog.py:74 *)
| MsgStartupDelay (startup_delay : float)       (* dog.py:27 *)
| MsgMonitoring                                 (* dog.py:33 *)
| MsgFailing (elapsed : Z) (fail_timeout : float) (* dog.py:44 *)
| MsgLowMemory (avail : Z)                      (* dog.py:56 *)
| MsgDiskStuck                                  (* dog.py:64 *)
| MsgDiskWriteFailed.                           (* dog.py:67 *)

Inductive Event : Type :=
| EvWrite (data : string)    (* self.fd.write(data) is called *)
| EvFlush                    (* self.fd.flush() is called *)
| EvClose                    (* self.fd.close() is called *)
| EvSleep (seconds : float)  (* time.sleep(seconds) sleeps *)
| EvPrint (m : Message)
| EvProbe                    (* an external health predicate is called *)
| EvMeminfo                  (* /proc/meminfo is opened and read *)
| EvScratch.                 (* /tmp/.wdt_test is opened and written *)

(** ** The surroundings *)

Inductive ProbeReply : Type :=
| Returns (healthy : bool)
| Raises.

Record Env : Type := mkEnv {
  open_ok    : bool;                       (* open(device, "w") succeeds *)
  clock      : nat -> float;               (* value of the k-th call of time.time() *)
  dev_ok     : nat -> bool;                (* the device accepts the k-th text delivered to it *)
  sigterm_at : option nat;                 (* SIGTERM arrives just before the k-th call *)
  probe      : nat -> ProbeReply;          (* answer of the k-th call of an external predicate *)
  meminfo    : nat -> option (list string);(* lines of the k-th read of /proc/meminfo *)
  scratch_ok : nat -> bool                 (* the k-th write of the scratch file succeeds *)
}.

(** ** The state of the process *)

Record State : Type := mkState {
  nops     : nat;      (* calls made so far; SIGTERM is matched against it *)
  nclock   : nat;      (* calls of time.time() so far *)
  ndev     : nat;      (* deliveries of buffered text to the device so far *)
  nprobe   : nat;
  nmem     : nat;
  nscratch : nat;
  fd_open  : bool;     (* self.fd is open *)
  handler  : bool      (* signal.signal(SIGTERM, self._stop) has run *)
}.

Definition initial : State := mkState 0 0 0 0 0 0 false false.

Definition tick_ops (s : State) : State :=
  mkState (S (nops s)) (nclock s) (ndev s) (nprobe s) (nmem s) (nscratch s) (fd_open s) (handler s).
Definition tick_clock (s : State) : State :=
  mkState (nops s) (S (nclock s)) (ndev s) (nprobe s) (nmem s) (nscratch s) (fd_open s) (handler s).
Definition tick_dev (s : State) : State :=
  mkState (nops s) (nclock s) (S (ndev s)) (nprobe s) (nmem s) (nscratch s) (fd_open s) (handler s).
Definition tick_probe (s : State) : State :=
  mkState (nops s) (nclock s) (ndev s) (S (nprobe s)) (nmem s) (nscratch s) (fd_open s) (handler s).
Definition tick_mem (s : State) : State :=
  mkState (nops s) (nclock s) (ndev s) (nprobe s) (S (nmem s)) (nscratch s) (fd_open s) (handler s).
Definition tick_scratch (s : State) : State :=
  mkState (nops s) (nclock s) (ndev s) (nprobe s) (nmem s) (S (nscratch s)) (fd_open s) (handler s).
Definition set_fd_open (b : bool) (s : State) : State :=
  mkState (nops s) (nclock s) (ndev s) (nprobe s) (nmem s) (nscratch s) b (handler s).
Definition set_handler (b : bool) (s : State) : State :=
  mkState (nops s) (nclock s) (ndev s) (nprobe s) (nmem s) (nscratch s) (fd_open s) b.

(** ** The monad *)

Inductive Outcome (A : Type) : Type :=
| Normal (a : A)
| Raised (e : Exn).
Arguments Normal {A} a.
Arguments Raised {A} e.

Record Result (A : Type) : Type := mkResult {
  outcome : Outcome A;
  final   : State;
  events  : list Event
}.
Arguments mkResult {A} _ _ _.
Arguments outcome {A} _.
Arguments final {A} _.
Arguments events {A} _.

Definition M (A : Type) : Type := Env -> State -> Result A.

Definition ret {A} (a : A) : M A :=
  fun _ s => mkResult (Normal a) s [].

Definition raise {A} (e : Exn) : M A :=
  fun _ s => mkResult (Raised e) s [].

Definition bind {A B} (m : M A) (f : A -> M B) : M B :=
  fun env s =>
    let r := m env s in
    match outcome r with
    | Normal a =>
        let r' := f a env (final r) in
        mkResult (outcome r') (final r') (events r ++ events r')
    | Raised e => mkResult (Raised e) (final r) (events r)
    end.

(** [try: body  except: h]: a bare [except] catches every exception,
    [SystemExit] included. *)
Definition try_except {A} (body : M A) (h : M A) : M A :=
  fun env s =>
    let r := body env s in
    match outcome r with
    | Normal a => r
    | Raised _ =>
        let r' := h env (final r) in
        mkResult (outcome r') (final r') (events r ++ events r')
    end.

Definition emit (e : Event) : M unit :=
  fun _ s => mkResult (Normal tt) s [e].

Definition modify (f : State -> State) : M unit :=
  fun _ s => mkResult (Normal tt) (f s) [].

Declare Scope wdt_scope.
Delimit Scope wdt_scope with wdt.
Notation "x <- m ;; k" := (bind m (fun x => k))
  (at level 61, m at next level, right associativity) : wdt_scope.
Notation "m ;; k" := (bind m (fun _ => k))
  (at level 61, right associativity) : wdt_scope.
Open Scope wdt_scope.

(** ** Python numbers *)

(** A float that is a number: neither an infinity nor NaN. *)
Definition finite (x : float) : bool :=
  match Prim2SF x with
  | S754_nan | S754_infinity _ => false
  | _ => true
  end.

(** The integer part of a finite float, towards zero. *)
Definition truncate (x : float) : Z :=
  match Prim2SF x with
  | S754_finite s m e =>
      let n := Z.shiftl (Z.pos m) e in
      if s then (- n)%Z else n
  | _ => 0%Z
  end.

(** [int(x)] of a float: truncation towards zero; [int] of NaN is a
    [ValueError], [int] of an infinity an [OverflowError]. *)
Definition py_int_of_float (x : float) : M Z :=
  match Prim2SF x with
  | S754_nan => raise ValueError
  | S754_infinity _ => raise OverflowError
  | _ => ret (truncate x)
  end.

(** What [time.sleep(seconds)] makes of its argument before it sleeps
    (CPython 3.11, [time_sleep] and [_PyTime_FromSecondsObject]): NaN is a
    [ValueError]; the duration is turned into nanoseconds, and one that
    does not fit 64 bits is an [OverflowError]; a negative duration is a
    [ValueError]. *)
Definition sleep_error (seconds : float) : option Exn :=
  if is_nan seconds then Some ValueError
  else
    let ns := seconds * 1e9 in
    if (- 0x1p63 <=? ns) && (ns <? 0x1p63) then
      if seconds <? 0 then Some ValueError else None
    else Some OverflowError.

(** ** Signals

    [raw_*] are the calls themselves.  SIGTERM is delivered between two
    calls: [deliver] runs before each of them, and when the signal is due it
    runs the installed handler at that very point, so that what the handler
    raises is raised where the interrupted code stands (inside a [try] if
    it stands in one). *)

(** [write] on the buffered handle of dog.py:10 only buffers: it fails on
    a closed handle and nowhere else. *)
Definition raw_fd_write (data : string) : M unit :=
  fun env s =>
    if fd_open s then mkResult (Normal tt) s [EvWrite data]
    else mkResult (Raised ValueError) s [EvWrite data].

(** [flush] delivers the buffered text to the device.  Every [flush] and
    every [close] of the program follows a [write], so there is text to
    deliver. *)
Definition raw_fd_flush : M unit :=
  fun env s =>
    if fd_open s then
      mkResult (if dev_ok env (ndev s) then Normal tt else Raised OSError)
               (tick_dev s) [EvFlush]
    else mkResult (Raised ValueError) s [EvFlush].

(** [close] flushes, closes whether or not the flush succeeds, and does
    nothing on a closed file. *)
Definition raw_fd_close : M unit :=
  fun env s =>
    if fd_open s then
      mkResult (if dev_ok env (ndev s) then Normal tt else Raised OSError)
               (set_fd_open false (tick_dev s)) [EvClose]
    else mkResult (Normal tt) s [EvClose].

Definition sys_exit {A} (code : Z) : M A := raise (SystemExit code).

(** dog.py:17-20, [WDT._stop].  It runs as the signal handler, so its calls
    are the raw ones. *)
Definition _stop : M unit :=
  raw_fd_write "V" ;;
  raw_fd_close ;;
  sys_exit 0.

Definition signal_due (env : Env) (s : State) : bool :=
  match sigterm_at env with
  | Some k => Nat.eqb k (nops s)
  | None => false
  end.

Definition deliver : M unit :=
  fun env s =>
    if signal_due env s then
      if handler s then _stop env (tick_ops s)
      else mkResult (Raised KilledBySignal) (tick_ops s) []
    else mkResult (Normal tt) (tick_ops s) [].

(** ** The calls of the program *)

Definition time_time : M float :=
  deliver ;;
  fun env s => mkResult (Normal (clock env (nclock s))) (tick_clock s) [].

Definition time_sleep (seconds : float) : M unit :=
  deliver ;;
  match sleep_error seconds with
  | Some e => raise e
  | None => emit (EvSleep seconds)
  end.

Definition print (m : Message) : M unit :=
  deliver ;; emit (EvPrint m).

Definition fd_write (data : string) : M unit := deliver ;; raw_fd_write data.
Definition fd_flush : M unit := deliver ;; raw_fd_flush.

(** [open(device, "w")] of dog.py:10. *)
Definition open_device (device : string) : M unit :=
  deliver ;;
  fun env s =>
    if open_ok env then mkResult (Normal tt) (set_fd_open true s) []
    else mkResult (Raised OSError) s [].

(** [signal.signal(signal.SIGTERM, self._stop)] of dog.py:11. *)
Definition signal_signal : M unit :=
  deliver ;; modify (set_handler true).

(** A health predicate that is not part of the program: the surroundings
    answer each of its calls. *)
Definition external_check : M bool :=
  deliver ;;
  fun env s =>
    mkResult (match probe env (nprobe s) with
              | Returns b => Normal b
              | Raises => Raised ProbeError
              end)
             (tick_probe s) [EvProbe].

(** [with open("/proc/meminfo") as f: ... for line in f]. *)
Definition read_meminfo : M (list string) :=
  deliver ;;
  fun env s =>
    mkResult (match meminfo env (nmem s) with
              | Some lines => Normal lines
              | None => Raised OSError
              end)
             (tick_mem s) [EvMeminfo].

(** [with open("/tmp/.wdt_test", "w") as f: f.write("1")]. *)
Definition write_scratch : M unit :=
  deliver ;;
  fun env s =>
    mkResult (if scratch_ok env (nscratch s) then Normal tt else Raised OSError)
             (tick_scratch s) [EvScratch].

(** ** Python text functions used on /proc/meminfo *)

Definition is_space (c : ascii) : bool :=
  let n := nat_of_ascii c in
  ((9 <=? n) && (n <=? 13) || (28 <=? n) && (n <=? 32))%nat.

(** [str.split()] without argument: the words between runs of white space. *)
Fixpoint split_from (word : string) (s : string) : list string :=
  match s with
  | EmptyString => match word with EmptyString => [] | _ => [word] end
  | String c rest =>
      if is_space c then
        match word with
        | EmptyString => split_from EmptyString rest
        | _ => word :: split_from EmptyString rest
        end
      else split_from (word ++ String c EmptyString) rest
  end.

Definition split (s : string) : list string := split_from EmptyString s.

(** A [dict] with string keys, in insertion order. *)
Definition dict : Type := list (string * string).

Fixpoint dict_set (d : dict) (k v : string) : dict :=
  match d with
  | [] => [(k, v)]
  | (k', v') :: d' => if String.eqb k' k then (k, v) :: d' else (k', v') :: dict_set d' k v
  end.

Fixpoint dict_get (d : dict) (k default : string) : string :=
  match d with
  | [] => default
  | (k', v') :: d' => if String.eqb k' k then v' else dict_get d' k default
  end.

(** [dict(items)]: every item must have exactly two elements. *)
Fixpoint py_dict_from (d : dict) (items : list (list string)) : option dict :=
  match items with
  | [] => Some d
  | [k; v] :: rest => py_dict_from (dict_set d k v) rest
  | _ :: _ => None
  end.

Definition py_dict (items : list (list string)) : M dict :=
  match py_dict_from [] items with
  | Some d => ret d
  | None => raise ValueError
  end.

Definition digit_of (c : ascii) : option Z :=
  let n := nat_of_ascii c in
  if ((48 <=? n) && (n <=? 57))%nat then Some (Z.of_nat (n - 48)) else None.

(** Decimal digits, single underscores allowed between two digits. *)
Fixpoint parse_digits (acc : Z) (after_digit : bool) (s : string) : option Z :=
  match s with
  | EmptyString => if after_digit then Some acc else None
  | String c rest =>
      match digit_of c with
      | Some d => parse_digits (10 * acc + d) true rest
      | None =>
          if (Ascii.eqb c "_" && after_digit)%bool then parse_digits acc false rest
          else None
      end
  end.

(** [int(text)] in base ten for a text without white space (the words of
    [split] have none): an optional sign, then ASCII digits. *)
Definition parse_int (text : string) : option Z :=
  match text with
  | String "-" rest => option_map Z.opp (parse_digits 0 false rest)
  | String "+" rest => parse_digits 0 false rest
  | _ => parse_digits 0 false text
  end.

Definition py_int (text : string) : M Z :=
  match parse_int text with
  | Some z => ret z
  | None => raise ValueError
  end.

(** ** dog.py:7-48, class WDT *)

Record WDT : Type := mkWDT { interval : float }.

(** dog.py:8-11 *)
Definition __init__ (device : string) (interval : float) : M WDT :=
  open_device device ;;
  signal_signal ;;
  ret (mkWDT interval).

(** dog.py:13-15 *)
Definition feed (self : WDT) : M unit :=
  fd_write "1" ;;
  fd_flush.

(** The two loops of [run] as one machine: the phase is the loop the
    program stands in, with the local variable that loop reads. *)
Inductive Phase : Type :=
| Starting (end_time : float)
| Monitoring (fail_start : option float).

(** dog.py:27-28 *)
Definition run_entry (startup_delay : float) : M Phase :=
  print (MsgStartupDelay startup_delay) ;;
  now <- time_time ;;
  ret (Starting (now + startup_delay)).

(** dog.py:29-34: one test of [while time.time() < end_time], then either
    the body or what follows the loop. *)
Definition startup_iteration (self : WDT) (end_time : float) : M Phase :=
  now <- time_time ;;
  if now <? end_time then
    feed self ;;
    time_sleep (interval self) ;;
    ret (Starting end_time)
  else
    print MsgMonitoring ;;
    ret (Monitoring None).

(** dog.py:36-48: one round of [while True]. *)
Definition health_test (health_check : option (M bool)) : M bool :=
  match health_check with
  | None => ret true
  | Some check => check
  end.

Definition monitor_iteration (self : WDT) (health_check : option (M bool))
    (fail_timeout : float) (fail_start : option float) : M Phase :=
  healthy <- health_test health_check ;;
  fail_start' <-
    (if healthy : bool then
       feed self ;;
       ret None
     else
       start <- match fail_start with
                | None => time_time
                | Some t => ret t
                end ;;
       now <- time_time ;;
       let elapsed := now - start in
       seconds <- py_int_of_float elapsed ;;
       print (MsgFailing seconds fail_timeout) ;;
       (if elapsed <? fail_timeout then feed self else ret tt) ;;
       ret (Some start)) ;;
  time_sleep (interval self) ;;
  ret (Monitoring fail_start').

Definition iteration (self : WDT) (health_check : option (M bool))
    (fail_timeout : float) (p : Phase) : M Phase :=
  match p with
  | Starting end_time => startup_iteration self end_time
  | Monitoring fail_start => monitor_iteration self health_check fail_timeout fail_start
  end.

(** The first [n] iterations.  [Normal p] says that the program is still
    looping, in phase [p]; [Raised e] that an exception left the loop. *)
Fixpoint loop (self : WDT) (health_check : option (M bool)) (fail_timeout : float)
    (n : nat) (p : Phase) : M Phase :=
  match n with
  | O => ret p
  | S n' =>
      p' <- iteration self health_check fail_timeout p ;;
      loop self health_check fail_timeout n' p'
  end.

(** dog.py:22-48, observed for [n] iterations. *)
Definition run (self : WDT) (health_check : option (M bool))
    (startup_delay fail_timeout : float) (n : nat) : M Phase :=
  p <- run_entry startup_delay ;;
  loop self health_check fail_timeout n p.

(** ** dog.py:51-70, the reference health predicate *)

Definition check_system_alive : M bool :=
  lines <- read_meminfo ;;
  mem <- py_dict (map (fun line => firstn 2 (split line)) lines) ;;
  avail <- py_int (dict_get mem "MemAvailable:" "0") ;;
  if (avail <? 50000)%Z then
    print (MsgLowMemory avail) ;;
    ret false
  else
    returned <-
      try_except
        (start <- time_time ;;
         write_scratch ;;
         now <- time_time ;;
         if 5 <? now - start then
           print MsgDiskStuck ;;
           ret (Some false)
         else ret None)
        (print MsgDiskWriteFailed ;;
         ret (Some false)) ;;
    match returned with
    | Some b => ret b
    | None => ret true
    end.

(** dog.py:73-80 *)
Definition main (n : nat) : M Phase :=
  print MsgBoot ;;
  wdt <- __init__ "/dev/watchdog0" 10 ;;
  run wdt (Some check_system_alive) 300 600 n.

(** ** Reading the runs *)

(** A feed among some calls: the keep-alive byte is written and the handle
    is flushed next, as [feed] does. *)
Fixpoint feeds (evs : list Event) : bool :=
  match evs with
  | [] => false
  | e :: rest =>
      match e, rest with
      | EvWrite data, EvFlush :: _ => String.eqb data "1" || feeds rest
      | _, _ => feeds rest
      end
  end.

(** The events of each of the first [n] iterations, one list per
    iteration; the list ends with the iteration that raises. *)
Fixpoint ticks (self : WDT) (health_check : option (M bool)) (fail_timeout : float)
    (n : nat) (p : Phase) (env : Env) (s : State) : list (list Event) :=
  match n with
  | O => []
  | S n' =>
      let r := iteration self health_check fail_timeout p env s in
      events r ::
      match outcome r with
      | Normal p' => ticks self health_check fail_timeout n' p' env (final r)
      | Raised _ => []
      end
  end.

(** The feed decision of each of the first [n] iterations. *)
Definition decisions (self : WDT) (health_check : option (M bool)) (fail_timeout : float)
    (n : nat) (p : Phase) (env : Env) (s : State) : list bool :=
  map feeds (ticks self health_check fail_timeout n p env s).

(** The state after [o] more calls, of which [c] readings of the clock,
    [d] deliveries to the device and [p] calls of an external predicate. *)
Definition bump (o c d p : nat) (s : State) : State :=
  mkState (o + nops s) (c + nclock s) (d + ndev s) (p + nprobe s)
          (nmem s) (nscratch s) (fd_open s) (handler s).

(** The events of a round that finds the predicate unhealthy at time
    [now], the window being open since [T]. *)
Definition unhealthy_round (self : WDT) (ft T now : float) : list Event :=
  EvProbe :: EvPrint (MsgFailing (truncate (now - T)) ft)
    :: (if now - T <? ft then [EvWrite "1"; EvFlush] else [])
    ++ [EvSleep (interval self)].

(** [pre] holds of the state and of the events so far when the computation
    starts; when it goes on, [post] holds then and [ensures] of the value;
    when it raises [e], [exc e] holds. *)
Definition hoare (env : Env) (pre post : State -> list Event -> Prop)
    (exc : Exn -> State -> list Event -> Prop) {A} (ensures : A -> Prop) (m : M A) : Prop :=
  forall s past, pre s past ->
    match outcome (m env s) with
    | Normal a => post (final (m env s)) (past ++ events (m env s)) /\ ensures a
    | Raised e => exc e (final (m env s)) (past ++ events (m env s))
    end.

(** [hoare] with an invariant. *)
Definition triple (env : Env) (inv : State -> list Event -> Prop)
    (exc : Exn -> State -> list Event -> Prop) {A} (ensures : A -> Prop) (m : M A) : Prop :=
  hoare env inv inv exc ensures m.

Definition anything {A} (a : A) : Prop := True.

(** A value read from the clock. *)
Definition reading (env : Env) (x : float) : Prop := exists k, x = clock env k.

(** [good] holds of the start of the window, if it is open. *)
Definition window_of (good : float -> Prop) (p : Phase) : Prop :=
  match p with
  | Monitoring (Some t) => good t
  | _ => True
  end.

(** The window, if open, was opened at a reading of the clock. *)
Definition window_read (env : Env) (p : Phase) : Prop := window_of (reading env) p.

(** The difference of any two readings of the clock is a number. *)
Definition finite_differences (env : Env) : Prop :=
  forall a b, finite (clock env b - clock env a) = true.

Definition is_disarm (e : Event) : bool :=
  match e with
  | EvWrite data => String.eqb data "V"
  | EvClose => true
  | _ => false
  end.

(** The daemon holds the open device and its handler is installed; it has
    not disarmed. *)
Definition armed (s : State) (past : list Event) : Prop :=
  fd_open s = true /\ handler s = true /\ existsb is_disarm past = false.

(** The daemon left through [_stop]: the disarm write and the close are
    the last two calls and the only ones of their kind. *)
Definition disarmed (env : Env) (e : Exn) (s : State) (past : list Event) : Prop :=
  e = SystemExit 0 /\ sigterm_at env <> None /\ fd_open s = false /\
  exists before, past = before ++ [EvWrite "V"; EvClose] /\ existsb is_disarm before = false.

Definition is_device_call (e : Event) : bool :=
  match e with
  | EvWrite _ | EvFlush | EvClose => true
  | _ => false
  end.

(** The delivery number [k] to the device is going to fail and has not
    been reached. *)
Definition before_failure (k : nat) (s : State) (past : list Event) : Prop :=
  fd_open s = true /\ (ndev s <= k)%nat.

(** The computation raised; if it got as far as delivery [k], then what
    it raised is the [OSError] of that delivery, which is its last call. *)
Definition stopped_by_failure (k : nat) (e : Exn) (s : State) (past : list Event) : Prop :=
  (ndev s <= S k)%nat /\
  (ndev s = S k ->
   e = OSError /\ exists before c, past = before ++ [c] /\ is_device_call c = true).

(** The same surroundings with the wall clock off by [adj k] at its k-th
    reading. *)
Definition adjust_clock (adj : nat -> float) (env : Env) : Env :=
  mkEnv (open_ok env) (fun k => clock env k + adj k) (dev_ok env) (sigterm_at env)
        (probe env) (meminfo env) (scratch_ok env).

(** Two runs that make the same calls and end in the same state, with
    values related by [R]. *)
Definition same_run {A} (R : A -> A -> Prop) (r r' : Result A) : Prop :=
  final r = final r' /\ events r = events r' /\
  match outcome r, outcome r' with
  | Normal a, Normal a' => R a a'
  | Raised e, Raised e' => e = e'
  | _, _ => False
  end.

(** Two clocks on which the program computes alike: the differences of
    their readings are the same floats, and a reading is below another
    plus [startup_delay] on the one clock when it is on the other. *)
Definition alike (startup_delay : float) (c c' : nat -> float) : Prop :=
  (forall a b, c' b - c' a = c b - c a) /\
  (forall a b, (c' b <? c' a + startup_delay) = (c b <? c a + startup_delay)).

(** The same reading, taken on either clock. *)
Definition paired (c c' : nat -> float) (x x' : float) : Prop :=
  exists k, x = c k /\ x' = c' k.

Definition paired_phase (startup_delay : float) (c c' : nat -> float) (p p' : Phase) : Prop :=
  match p, p' with
  | Starting e, Starting e' => exists k, e = c k + startup_delay /\ e' = c' k + startup_delay
  | Monitoring None, Monitoring None => True
  | Monitoring (Some t), Monitoring (Some t') => paired c c' t t'
  | _, _ => False
  end.

Definition paired_window (c c' : nat -> float) (w w' : option float) : Prop :=
  match w, w' with
  | None, None => True
  | Some t, Some t' => paired c c' t t'
  | _, _ => False
  end.

(** [m] in the surroundings [env] and [m'] in the same surroundings with
    the other clock run alike. *)
Definition insensitive (env : Env) (adj : nat -> float) {A} (R : A -> A -> Prop)
    (m m' : M A) : Prop :=
  forall s, same_run R (m env s) (m' (adjust_clock adj env) s).

Definition known_predicate (hc : option (M bool)) : Prop :=
  hc = None \/ hc = Some external_check \/ hc = Some check_system_alive.

(** The feed decisions of [run]: those of the rounds after its entry. *)
Definition run_decisions (self : WDT) (hc : option (M bool)) (startup_delay fail_timeout : float)
    (n : nat) (env : Env) (s : State) : list bool :=
  let r := run_entry startup_delay env s in
  match outcome r with
  | Normal p => decisions self hc fail_timeout n p env (final r)
  | Raised _ => []
  end.

(** dog.py:52-54 without the file: the number that [avail] is bound to. *)
Definition parse_meminfo (lines : list string) : option Z :=
  match py_dict_from [] (map (fun line => firstn 2 (split line)) lines) with
  | Some mem => parse_int (dict_get mem "MemAvailable:" "0")
  | None => None
  end.

(** ** Concrete surroundings *)

Definition newline : string := String (ascii_of_nat 10) EmptyString.

(** Three lines in the format of /proc/meminfo. *)
Definition sample_meminfo (avail : string) : list string :=
  [ ("MemTotal:       16316412 kB" ++ newline)%string;
    ("MemFree:          243572 kB" ++ newline)%string;
    ("MemAvailable:   " ++ avail ++ " kB" ++ newline)%string ].

Fixpoint float_of_nat (n : nat) : float :=
  match n with
  | O => 0
  | S n' => float_of_nat n' + 1
  end.

(** The clock of a loop that ticks every ten seconds: the first two
    readings fall in the same second.  After 250 ticks the clock stands
    still. *)
Definition every_ten_seconds (k : nat) : float :=
  10 * float_of_nat (Nat.min (k - 1) 250).

(** A quiet machine with enough memory and a working disk; an external
    predicate answers [reply k] at its k-th call. *)
Definition machine (reply : nat -> ProbeReply) : Env :=
  mkEnv true every_ten_seconds (fun _ => true) None reply
        (fun _ => Some (sample_meminfo "8123456")) (fun _ => true).

Definition always_unhealthy : Env := machine (fun _ => Returns false).
Definition always_raising : Env := machine (fun _ => Raises).
Definition healthy_once : Env :=
  machine (fun k => match k with O => Returns true | S _ => Returns false end).

(** The daemon after [__init__]. *)
Definition started : State := mkState 0 0 0 0 0 0 true true.

Definition wdt10 : WDT := mkWDT 10.

(** The wall clock is set back by 100 seconds after its third reading. *)
Definition set_back (k : nat) : float := if (k <? 3)%nat then 0 else -100.

(** [main] on a machine whose clock jumps past the grace period, with
    SIGTERM arriving inside the [try] of [check_system_alive], just before
    the scratch file is written (call number 9: the calls before it are
    three prints, [open], [signal.signal], three readings of the clock and
    the read of /proc/meminfo). *)
Definition sigterm_during_check : Env :=
  mkEnv true (fun k => match k with O => 1000 | S _ => 1300 end) (fun _ => true) (Some 9%nat)
        (fun _ => Returns true) (fun _ => Some (sample_meminfo "8123456")) (fun _ => true).

(** The device cannot be opened. *)
Definition no_device : Env :=
  mkEnv false every_ten_seconds (fun _ => true) None (fun _ => Returns true)
        (fun _ => Some (sample_meminfo "8123456")) (fun _ => true).

(** The device rejects the fifth text delivered to it: the flush of the
    fifth feed. *)
Definition device_breaks : Env :=
  mkEnv true every_ten_seconds (fun k => negb (k =? 4)%nat) None (fun _ => Returns true)
        (fun _ => Some (sample_meminfo "8123456")) (fun _ => true).

(** SIGTERM arrives before the seventh call of the loop. *)
Definition sigterm_in_loop : Env :=
  mkEnv true every_ten_seconds (fun _ => true) (Some 6%nat) (fun _ => Returns true)
        (fun _ => Some (sample_meminfo "8123456")) (fun _ => true).

(** A machine on which the second [time.sleep(10)] of the program
    returns fifteen seconds late: the tests of the startup loop read the
    clock at 1000, 1010 and 1035 seconds. *)
Definition late_wakeups : Env :=
  mkEnv true
        (fun k => match k with
                  | 0%nat | 1%nat => 1000
                  | 2%nat => 1010
                  | _ => 1035
                  end)
        (fun _ => true) None (fun _ => Returns true)
        (fun _ => Some (sample_meminfo "8123456")) (fun _ => true).

(** ** Further notions *)

(** An external predicate that answers healthy and unhealthy in turn. *)
Definition flapping : Env := machine (fun k => Returns (Nat.even k)).

(** SIGTERM arrives while [__init__] is about to install the handler. *)
Definition sigterm_before_handler : Env :=
  mkEnv true every_ten_seconds (fun _ => true) (Some 2%nat) (fun _ => Returns true)
        (fun _ => Some (sample_meminfo "8123456")) (fun _ => true).

(** The state after a call of [check_system_alive] that made [o] calls,
    among them one read of /proc/meminfo, [c] readings of the clock and [w]
    writes of the scratch file. *)
Definition after_check (o c w : nat) (s : State) : State :=
  mkState (o + nops s) (c + nclock s) (ndev s) (nprobe s) (S (nmem s)) (w + nscratch s)
          (fd_open s) (handler s).

(** The lines printed among some events. *)
Definition printed (evs : list Event) : list Message :=
  flat_map (fun e => match e with EvPrint m => [m] | _ => [] end) evs.

(** /proc/meminfo cannot be read. *)
Definition meminfo_unreadable : Env :=
  mkEnv true every_ten_seconds (fun _ => true) None (fun _ => Returns true)
        (fun _ => None) (fun _ => true).

(** /proc/meminfo with a blank line. *)
Definition meminfo_blank_line : Env :=
  mkEnv true every_ten_seconds (fun _ => true) None (fun _ => Returns true)
        (fun _ => Some (sample_meminfo "8123456" ++ [newline])) (fun _ => true).

(** A machine short of memory. *)
Definition low_memory : Env :=
  mkEnv true every_ten_seconds (fun _ => true) None (fun _ => Returns true)
        (fun _ => Some (sample_meminfo "1234")) (fun _ => true).

(** A healthy machine running [main]: the two readings of the clock around
    the scratch write fall in the same second, ten seconds pass between
    rounds.  After 250 rounds the clock stands still. *)
Definition healthy_machine : Env :=
  mkEnv true (fun k => 10 * float_of_nat (Nat.min (k / 2) 250)) (fun _ => true) None
        (fun _ => Returns true) (fun _ => Some (sample_meminfo "8123456")) (fun _ => true).

(** SIGTERM arrives inside the [try] of the first call of
    [check_system_alive] from [started], before the second reading of the
    clock. *)
Definition sigterm_in_try : Env :=
  mkEnv true every_ten_seconds (fun _ => true) (Some 3%nat) (fun _ => Returns true)
        (fun _ => Some (sample_meminfo "8123456")) (fun _ => true).

(** SIGTERM arrives as [check_system_alive] is about to read
    /proc/meminfo. *)
Definition sigterm_at_meminfo : Env :=
  mkEnv true every_ten_seconds (fun _ => true) (Some 0%nat) (fun _ => Returns true)
        (fun _ => Some (sample_meminfo "8123456")) (fun _ => true).

(** At least [b] calls have been made and SIGTERM, if it comes, is still
    to come. *)
Definition pending (env : Env) (b : nat) (s : State) (past : list Event) : Prop :=
  (b <= nops s)%nat /\ forall k, sigterm_at env = Some k -> (nops s <= k)%nat.

Definition anyhow (e : Exn) (s : State) (past : list Event) : Prop := True.

(** The text that [mem.get("MemAvailable:", "0")] is to find: the second
    word of the last line whose first word is the key, ["0"] when there is
    no such line. *)
Definition meminfo_value (lines : list string) : string :=
  fold_left (fun found line =>
               match split line with
               | k :: v :: _ => if String.eqb k "MemAvailable:" then v else found
               | _ => found
               end)
            lines "0"%string.

(** A line of /proc/meminfo as the kernel prints it: the name, a colon,
    padding, the amount in decimal and the unit. *)
Fixpoint spaces (n : nat) : string :=
  match n with
  | O => EmptyString
  | S n' => String " " (spaces n')
  end.

Definition decimal (n : nat) : string :=
  DecimalString.NilEmpty.string_of_uint (Nat.to_uint n).

Definition meminfo_line (name : string) (pad kB : nat) : string :=
  (name ++ ":" ++ spaces (S pad) ++ decimal kB ++ " kB" ++ newline)%string.

Fixpoint no_space (w : string) : bool :=
  match w with
  | EmptyString => true
  | String c w' => negb (is_space c) && no_space w'
  end.

(** The amount of the last entry named [MemAvailable], 0 without one. *)
Definition last_available (entries : list (string * nat * nat)) : nat :=
  fold_left (fun found entry =>
               match entry with
               | (name, _, kB) => if String.eqb name "MemAvailable" then kB else found
               end)
            entries 0%nat.

Definition render (entries : list (string * nat * nat)) : list string :=
  map (fun entry => match entry with (name, pad, kB) => meminfo_line name pad kB end) entries.

(** A machine with enough memory whose disk fails every write. *)
Definition broken_disk : Env :=
  mkEnv true every_ten_seconds (fun _ => true) None (fun _ => Returns true)
        (fun _ => Some (sample_meminfo "8123456")) (fun _ => false).

(** The device handle is open. *)
Definition handle_open (s : State) (past : list Event) : Prop := fd_open s = true.

Definition never (e : Exn) (s : State) (past : list Event) : Prop := False.

(** ** The arithmetic of doubles

    [Prim2SF] gives a double as a sign, a mantissa [m] and an exponent
    [e], the number [m * 2^e]; the smallest exponent is -1074.  The sums
    and differences of the machine are those of [SpecFloat], which shift
    and round mantissas bit by bit.  What they compute is said here with
    integers: the value of a double in units of [2^-1074], and the double
    nearest to such a value. *)

Section Doubles.
Local Open Scope Z_scope.

(** Rounding to nearest even of [N / 2^k]. *)
Definition round_shift (N k : Z) : Z :=
  let q := N / 2 ^ k in
  let r := N mod 2 ^ k in
  if r =? 0 then q
  else match r ?= 2 ^ (k - 1) with
       | Lt => q
       | Eq => if Z.even q then q else q + 1
       | Gt => q + 1
       end.

(** Mantissa and exponent of the double nearest to [N * 2^-1074], for
    [N > 0], ties to even. *)
Definition rounded (N : Z) : Z * Z :=
  let k := Z.max (Z.log2 N - 52) 0 in
  let q := round_shift N k in
  if q <? 2 ^ 53 then (q, -1074 + k) else (2 ^ 52, -1074 + k + 1).

(** A mantissa and an exponent as a double with sign [s]; the exponents
    above 971 are those of the infinities. *)
Definition pack (s : bool) (me : Z * Z) : spec_float :=
  if snd me <=? 971 then S754_finite s (Z.to_pos (fst me)) (snd me) else S754_infinity s.

Definition nearest (s : bool) (N : Z) : spec_float := pack s (rounded N).

(** The double nearest to [N * 2^-1074]. *)
Definition nearest_double (N : Z) : spec_float :=
  match N with
  | Z0 => S754_zero false
  | Z.pos p => nearest false (Z.pos p)
  | Z.neg p => nearest true (Z.pos p)
  end.

(** The value of a double that is a number, in units of [2^-1074]. *)
Definition scaled (x : spec_float) : Z :=
  match x with
  | S754_finite s m e => cond_Zopp s (Z.pos m * 2 ^ (e + 1074))
  | _ => 0
  end.

(** The two zeros are one number. *)
Definition unsigned_zero (x : spec_float) : spec_float :=
  match x with
  | S754_zero _ => S754_zero false
  | _ => x
  end.

(** Neither an infinity nor NaN. *)
Definition is_number (x : spec_float) : bool :=
  match x with
  | S754_zero _ | S754_finite _ _ _ => true
  | _ => false
  end.

End Doubles.


(** * Properties *)

(** ** The order of floats *)

Ltac sf_order :=
  unfold SFleb, SFltb, SFcompare;
  repeat match goal with
         | x : spec_float |- _ => destruct x
         | b : bool |- _ => destruct b
         end;
  cbn; try congruence;
  repeat match goal with
         | |- context [Z.compare ?a ?b] =>
             destruct (Z.compare_spec a b); cbn; try congruence; try lia
         | |- context [Pos.compare_cont Eq ?a ?b] =>
             change (Pos.compare_cont Eq a b) with (Pos.compare a b);
             destruct (Pos.compare_spec a b); cbn; try congruence; try lia
         end.

Lemma SF_le_le_not_lt x y z :
  SFleb x y = true -> SFleb y z = true -> SFltb z x = false.
Proof. sf_order. Qed.

Lemma SF_not_lt_le x y z :
  SFltb x z = false -> SFleb x y = true -> SFltb y z = false.
Proof. sf_order. Qed.

(** [a <= b <= c] leaves no room for [c < a]. *)
Lemma float_le_le_not_lt a b c :
  (a <=? b) = true -> (b <=? c) = true -> (c <? a) = false.
Proof. rewrite !leb_spec, ltb_spec. apply SF_le_le_not_lt. Qed.

(** What is not below a bound stays so when it grows; NaN as a bound is
    below nothing. *)
Lemma float_not_lt_le x y bound :
  (x <? bound) = false -> (x <=? y) = true -> (y <? bound) = false.
Proof. rewrite leb_spec, !ltb_spec. apply SF_not_lt_le. Qed.

(** ** Rounding

    The sum and the difference of two doubles are the doubles nearest to
    the exact sum and difference, and the nearest double grows with the
    number it is nearest to. *)

Section Rounding.
Local Open Scope Z_scope.

Lemma digits2_size p : digits2_pos p = Pos.size p.
Proof. induction p; cbn; congruence. Qed.

Lemma digits2_log2 p : Z.pos (digits2_pos p) = Z.log2 (Z.pos p) + 1.
Proof.
  rewrite digits2_size. destruct p; cbn [Z.log2 Pos.size]; lia.
Qed.

Lemma iter_pos_nat {A} (f : A -> A) p x :
  iter_pos f p x = Nat.iter (Pos.to_nat p) f x.
Proof.
  revert x. induction p as [p IH | p IH |]; intros x; cbn [iter_pos].
  - rewrite !IH, Pos2Nat.inj_xI, <- Nat.iter_add.
    replace (S (2 * Pos.to_nat p)) with (S (Pos.to_nat p + Pos.to_nat p))%nat by lia.
    now rewrite Nat.iter_succ_r.
  - rewrite !IH, Pos2Nat.inj_xO, <- Nat.iter_add. f_equal. lia.
  - reflexivity.
Qed.

Lemma shr_1_div2 m r s :
  0 <= m -> shr_1 (Build_shr_record m r s) = Build_shr_record (Z.div2 m) (Z.odd m) (r || s).
Proof.
  intros Hm. destruct m as [| [p | p |] | p]; try reflexivity. lia.
Qed.

(** The record after [S j] halvings of [N]. *)
Lemma shr_steps N j :
  0 <= N ->
  Nat.iter (S j) shr_1 (Build_shr_record N false false)
  = Build_shr_record (N / 2 ^ Z.of_nat (S j)) (Z.odd (N / 2 ^ Z.of_nat j))
                     (negb (N mod 2 ^ Z.of_nat j =? 0)).
Proof.
  intros HN. induction j as [| j IH].
  - cbn [Nat.iter]. rewrite shr_1_div2 by assumption.
    change (2 ^ Z.of_nat 0) with 1. change (2 ^ Z.of_nat 1) with 2.
    rewrite Z.div_1_r, Z.mod_1_r, Z.div2_div. reflexivity.
  - rewrite Nat.iter_succ, IH.
    assert (Hq : 0 <= N / 2 ^ Z.of_nat (S j)) by (apply Z.div_pos; lia).
    rewrite shr_1_div2 by assumption. f_equal.
    + rewrite Z.div2_div, Z.div_div by lia.
      f_equal. rewrite (Nat2Z.inj_succ (S j)), Z.pow_succ_r by lia. apply Z.mul_comm.
    + rewrite (Nat2Z.inj_succ j), Z.pow_succ_r, (Z.mul_comm 2) by lia.
      rewrite Z.rem_mul_r by lia.
      rewrite Zmod_odd.
      assert (0 <= N mod 2 ^ Z.of_nat j < 2 ^ Z.of_nat j) by (apply Z.mod_pos_bound; lia).
      destruct (Z.odd (N / 2 ^ Z.of_nat j)); cbn [orb].
      * symmetry. apply negb_true_iff, Z.eqb_neq. lia.
      * f_equal. rewrite Z.mul_0_r, Z.add_0_r. reflexivity.
Qed.

(** Shifting a mantissa to the right by [p] bits and rounding it with the
    two bits that [shr] keeps is [round_shift]. *)
Lemma rne_shr N p e :
  0 <= N ->
  let '(mrs, e') := shr (Build_shr_record N false false) e (Z.pos p) in
  round_nearest_even (shr_m mrs) (loc_of_shr_record mrs) = round_shift N (Z.pos p) /\
  e' = e + Z.pos p.
Proof.
  intros HN. cbn [shr]. split; [| reflexivity].
  rewrite iter_pos_nat.
  destruct (Pos2Nat.is_succ p) as [j Hj]. rewrite Hj, shr_steps by assumption.
  assert (Hp : Z.pos p = Z.of_nat (S j)) by lia.
  assert (Hp' : Z.pos p - 1 = Z.of_nat j) by lia.
  unfold round_shift. rewrite Hp'. rewrite Hp.
  set (q := N / 2 ^ Z.of_nat (S j)).
  assert (Hrem : N mod 2 ^ Z.of_nat (S j)
                 = N mod 2 ^ Z.of_nat j
                   + 2 ^ Z.of_nat j * (if Z.odd (N / 2 ^ Z.of_nat j) then 1 else 0)).
  { rewrite (Nat2Z.inj_succ j), Z.pow_succ_r, (Z.mul_comm 2) by lia.
    rewrite Z.rem_mul_r by lia. now rewrite Zmod_odd. }
  assert (0 <= N mod 2 ^ Z.of_nat j < 2 ^ Z.of_nat j) by (apply Z.mod_pos_bound; lia).
  rewrite Hrem.
  destruct (Z.odd (N / 2 ^ Z.of_nat j)), (Z.eqb_spec (N mod 2 ^ Z.of_nat j) 0) as [Hs | Hs];
    cbn [negb loc_of_shr_record shr_m round_nearest_even].
  - rewrite Hs. replace (0 + 2 ^ Z.of_nat j * 1) with (2 ^ Z.of_nat j) by lia.
    rewrite Z.compare_refl.
    destruct (2 ^ Z.of_nat j =? 0) eqn:E; [apply Z.eqb_eq in E; lia | reflexivity].
  - destruct (_ =? 0) eqn:E; [apply Z.eqb_eq in E; lia |].
    destruct (_ ?= _) eqn:C; [apply Z.compare_eq in C; lia
                             | rewrite Z.compare_lt_iff in C; lia | reflexivity].
  - rewrite Hs, Z.mul_0_r. reflexivity.
  - destruct (_ =? 0) eqn:E; [apply Z.eqb_eq in E; lia |].
    destruct (_ ?= _) eqn:C; [apply Z.compare_eq in C; lia
                             | reflexivity | rewrite Z.compare_gt_iff in C; lia].
Qed.

Lemma round_shift_0 N : round_shift N 0 = N.
Proof.
  unfold round_shift. change (2 ^ 0) with 1. now rewrite Z.div_1_r, Z.mod_1_r.
Qed.

Lemma round_shift_scale m n j :
  0 <= n -> 0 <= j -> round_shift (m * 2 ^ j) (n + j) = round_shift m n.
Proof.
  intros Hn Hj.
  assert (Hpj : 0 < 2 ^ j) by (apply Z.pow_pos_nonneg; lia).
  destruct (Z.eq_dec n 0) as [-> | Hn0].
  - rewrite round_shift_0. unfold round_shift. cbn [Z.add].
    rewrite Z.div_mul, Z.mod_mul by lia. reflexivity.
  - assert (Hpn : 0 < 2 ^ n) by (apply Z.pow_pos_nonneg; lia).
    assert (Hph : 0 < 2 ^ (n - 1)) by (apply Z.pow_pos_nonneg; lia).
    unfold round_shift.
    rewrite Z.pow_add_r by lia.
    rewrite Z.div_mul_cancel_r, Z.mul_mod_distr_r by lia.
    replace (n + j - 1) with ((n - 1) + j) by lia.
    rewrite Z.pow_add_r by lia.
    rewrite <- Zmult_compare_compat_r by lia.
    destruct (Z.eqb_spec (m mod 2 ^ n) 0) as [E | E].
    + rewrite E. reflexivity.
    + destruct (Z.eqb_spec (m mod 2 ^ n * 2 ^ j) 0) as [E' | E']; [nia | reflexivity].
Qed.

Lemma round_shift_bounds N k :
  0 <= k -> N / 2 ^ k <= round_shift N k <= N / 2 ^ k + 1.
Proof.
  intros Hk. unfold round_shift.
  destruct (_ =? 0); [lia |].
  destruct (_ ?= _); [destruct (Z.even _) | |]; lia.
Qed.

Lemma round_shift_mono N1 N2 k :
  0 <= k -> N1 <= N2 -> round_shift N1 k <= round_shift N2 k.
Proof.
  intros Hk Hle.
  assert (Hp : 0 < 2 ^ k) by (apply Z.pow_pos_nonneg; lia).
  pose proof (Z.div_le_mono N1 N2 (2 ^ k) Hp Hle) as Hq.
  destruct (Z.eq_dec (N1 / 2 ^ k) (N2 / 2 ^ k)) as [E | E].
  - assert (Hr : N1 mod 2 ^ k <= N2 mod 2 ^ k).
    { pose proof (Z.div_mod N1 (2 ^ k)). pose proof (Z.div_mod N2 (2 ^ k)). nia. }
    unfold round_shift. rewrite E.
    set (q := N2 / 2 ^ k). set (h := 2 ^ (k - 1)).
    destruct (Z.eqb_spec (N1 mod 2 ^ k) 0), (Z.eqb_spec (N2 mod 2 ^ k) 0);
      destruct (Z.compare_spec (N1 mod 2 ^ k) h), (Z.compare_spec (N2 mod 2 ^ k) h);
      destruct (Z.even q); try lia.
    all: pose proof (Z.mod_pos_bound N1 (2 ^ k) Hp); lia.
  - pose proof (round_shift_bounds N1 k Hk). pose proof (round_shift_bounds N2 k Hk). lia.
Qed.

(** The quotient that is rounded has 53 digits. *)
Lemma quotient_53 N :
  0 < N -> 52 < Z.log2 N -> 2 ^ 52 <= N / 2 ^ (Z.log2 N - 52) < 2 ^ 53.
Proof.
  intros HN HL. destruct (Z.log2_spec N HN) as [Hlo Hhi].
  set (k := Z.log2 N - 52) in *.
  assert (Hp : 0 < 2 ^ k) by (apply Z.pow_pos_nonneg; lia).
  replace (Z.log2 N) with (52 + k) in Hlo by lia.
  replace (Z.succ (Z.log2 N)) with (53 + k) in Hhi by lia.
  rewrite Z.pow_add_r in Hlo, Hhi by lia.
  split.
  - apply Z.div_le_lower_bound; lia.
  - apply Z.div_lt_upper_bound; lia.
Qed.

Lemma fexp_eq e : fexp prec emax e = Z.max (e - 53) (-1074).
Proof. reflexivity. Qed.

Lemma iter_xO m d : Z.pos (Pos.iter xO m d) = Z.pos m * 2 ^ Z.pos d.
Proof.
  induction d as [| d IH] using Pos.peano_ind.
  - cbn [Pos.iter]. change (2 ^ 1) with 2. lia.
  - rewrite Pos.iter_succ, Pos2Z.inj_succ, Z.pow_succ_r by lia.
    rewrite Pos2Z.inj_xO, IH. ring.
Qed.

Lemma shl_align_left m e t :
  t < e ->
  exists mz, shl_align m e t = (mz, t) /\ Z.pos mz = Z.pos m * 2 ^ (e - t).
Proof.
  intros Ht. unfold shl_align.
  destruct (t - e) as [| d | d] eqn:E; try lia.
  eexists. split; [reflexivity |].
  rewrite iter_xO. f_equal. f_equal. lia.
Qed.

Lemma shl_align_none m e t : e <= t -> shl_align m e t = (m, e).
Proof.
  intros Ht. unfold shl_align. destruct (t - e) as [| d | d] eqn:E; try reflexivity. lia.
Qed.

Lemma binary_round_aux_exact s m e :
  Z.max (Z.pos (digits2_pos m) + e - 53) (-1074) = e ->
  binary_round_aux prec emax s (Z.pos m) e loc_Exact
  = if e <=? 971 then S754_finite s m e else S754_infinity s.
Proof.
  intros Hc. unfold binary_round_aux, shr_fexp. cbn [Zdigits2 shr_record_of_loc].
  rewrite fexp_eq, Hc, Z.sub_diag.
  cbn [shr shr_m loc_of_shr_record round_nearest_even Zdigits2 shr_record_of_loc].
  rewrite fexp_eq, Hc, Z.sub_diag. cbn [shr shr_m]. reflexivity.
Qed.

Lemma binary_round_aux_shift s m e n :
  0 < n -> Z.pos (digits2_pos m) = 53 + n -> -1074 <= e ->
  binary_round_aux prec emax s (Z.pos m) e loc_Exact
  = let q := round_shift (Z.pos m) n in
    if q <? 2 ^ 53 then
      if e + n <=? 971 then S754_finite s (Z.to_pos q) (e + n) else S754_infinity s
    else
      if e + n + 1 <=? 971 then S754_finite s (Z.to_pos (2 ^ 52)) (e + n + 1)
      else S754_infinity s.
Proof.
  intros Hn Hd He.
  assert (HL : Z.log2 (Z.pos m) = 52 + n) by (rewrite digits2_log2 in Hd; lia).
  unfold binary_round_aux, shr_fexp. cbn [Zdigits2 shr_record_of_loc].
  rewrite fexp_eq, Hd.
  replace (Z.max (53 + n + e - 53) (-1074) - e) with n by lia.
  destruct n as [| p | p]; try lia.
  pose proof (rne_shr (Z.pos m) p e ltac:(lia)) as Hshr.
  destruct (shr _ e (Z.pos p)) as [mrs e'].
  destruct Hshr as [Hq ->]. rewrite Hq. clear Hq mrs.
  pose proof (quotient_53 (Z.pos m) ltac:(lia) ltac:(lia)) as Hq53.
  replace (Z.log2 (Z.pos m) - 52) with (Z.pos p) in Hq53 by lia.
  pose proof (round_shift_bounds (Z.pos m) (Z.pos p) ltac:(lia)) as Hb.
  cbv zeta.
  set (q := round_shift (Z.pos m) (Z.pos p)) in *.
  destruct (Z.ltb_spec q (2 ^ 53)) as [Hlt | Hge].
  - destruct q as [| pq | pq] eqn:Eq; try lia.
    assert (Hdq : Z.pos (digits2_pos pq) = 53).
    { rewrite digits2_log2. rewrite (Z.log2_unique (Z.pos pq) 52); lia. }
    cbn [Zdigits2 shr_record_of_loc]. rewrite fexp_eq, Hdq.
    replace (Z.max (53 + (e + Z.pos p) - 53) (-1074) - (e + Z.pos p)) with 0 by lia.
    cbn [shr shr_m Z.to_pos]. reflexivity.
  - assert (Eq : q = 2 ^ 53) by lia. rewrite Eq.
    change (2 ^ 53) with 9007199254740992.
    cbn [Zdigits2 digits2_pos Pos.succ shr_record_of_loc]. rewrite fexp_eq.
    replace (Z.max (54 + (e + Z.pos p) - 53) (-1074) - (e + Z.pos p)) with 1 by lia.
    cbn [shr iter_pos shr_1 shr_m]. reflexivity.
Qed.

Lemma round_shift_exact m j : 0 <= j -> round_shift (m * 2 ^ j) j = m.
Proof.
  intros Hj. rewrite <- (round_shift_0 m) at 2.
  rewrite <- (round_shift_scale m 0 j) by lia. reflexivity.
Qed.

(** What [binary_round] computes, in terms of the integer
    [m * 2^(e + 1074)]. *)
Lemma binary_round_nearest s m e :
  -1074 <= e ->
  binary_round prec emax s m e = nearest s (Z.pos m * 2 ^ (e + 1074)).
Proof.
  intros He. unfold binary_round. rewrite fexp_eq.
  set (d := Z.pos (digits2_pos m)).
  set (t := Z.max (d + e - 53) (-1074)).
  assert (HL : Z.log2 (Z.pos m * 2 ^ (e + 1074)) = e + 1074 + Z.log2 (Z.pos m))
    by (apply Z.log2_mul_pow2; lia).
  assert (Hd : d = Z.log2 (Z.pos m) + 1) by apply digits2_log2.
  unfold nearest, rounded, pack. rewrite HL.
  replace (Z.max (e + 1074 + Z.log2 (Z.pos m) - 52) 0) with (t + 1074) by lia.
  replace (-1074 + (t + 1074)) with t by lia.
  destruct (Z.lt_ge_cases t e) as [Hlt | Hge].
  - (* the mantissa is shifted to the left: the result is exact *)
    destruct (shl_align_left m e t Hlt) as (mz & -> & Hmz).
    assert (Hdz : Z.pos (digits2_pos mz) = d + (e - t)).
    { rewrite digits2_log2, Hmz, Z.log2_mul_pow2 by lia. lia. }
    rewrite binary_round_aux_exact by lia.
    replace (Z.pos m * 2 ^ (e + 1074)) with (Z.pos mz * 2 ^ (t + 1074)).
    2:{ rewrite Hmz, <- Z.mul_assoc, <- Z.pow_add_r by lia. f_equal. f_equal. lia. }
    rewrite round_shift_exact by lia.
    assert (Hsmall : Z.pos mz < 2 ^ 53).
    { apply Z.log2_lt_pow2; [lia |]. rewrite digits2_log2 in Hdz. lia. }
    destruct (Z.ltb_spec (Z.pos mz) (2 ^ 53)); [reflexivity | lia].
  - rewrite shl_align_none by assumption.
    destruct (Z.eq_dec t e) as [E | E].
    + rewrite binary_round_aux_exact by (fold d; fold t; lia).
      rewrite !E, round_shift_exact by lia.
      assert (Hsmall : Z.pos m < 2 ^ 53) by (apply Z.log2_lt_pow2; lia).
      destruct (Z.ltb_spec (Z.pos m) (2 ^ 53)); [reflexivity | lia].
    + rewrite (binary_round_aux_shift s m e (t - e)) by (fold d; lia).
      cbv zeta.
      replace (t + 1074) with ((t - e) + (e + 1074)) by lia.
      rewrite (round_shift_scale (Z.pos m) (t - e) (e + 1074)) by lia.
      replace (e + (t - e)) with t by lia.
      destruct (_ <? _); reflexivity.
Qed.

Lemma rounded_positive N : 0 < N -> 0 < fst (rounded N).
Proof.
  intros HN. unfold rounded.
  destruct (Z.ltb_spec (round_shift N (Z.max (Z.log2 N - 52) 0)) (2 ^ 53)) as [H | H];
    cbn [fst]; [| reflexivity].
  destruct (Z.le_gt_cases (Z.log2 N) 52) as [Hk | Hk].
  - rewrite Z.max_r by lia. now rewrite round_shift_0.
  - rewrite Z.max_l by lia.
    pose proof (quotient_53 N HN Hk).
    pose proof (round_shift_bounds N (Z.log2 N - 52) ltac:(lia)). lia.
Qed.

(** [rounded] grows with its argument, in the order of the doubles:
    exponent first, then mantissa. *)
Lemma rounded_mono N1 N2 :
  0 < N1 -> N1 <= N2 ->
  snd (rounded N1) < snd (rounded N2) \/
  (snd (rounded N1) = snd (rounded N2) /\ fst (rounded N1) <= fst (rounded N2)).
Proof.
  intros H1 Hle.
  pose proof (Z.log2_le_mono N1 N2 Hle) as HL.
  destruct (Z.eq_dec (Z.log2 N1) (Z.log2 N2)) as [E | E].
  - unfold rounded. rewrite E.
    set (k := Z.max (Z.log2 N2 - 52) 0).
    pose proof (round_shift_mono N1 N2 k ltac:(lia) Hle) as Hq.
    destruct (Z.ltb_spec (round_shift N1 k) (2 ^ 53)),
             (Z.ltb_spec (round_shift N2 k) (2 ^ 53)); cbn [fst snd]; lia.
  - assert (Hlt : Z.log2 N1 < Z.log2 N2) by lia.
    pose proof (Z.log2_nonneg N1) as Hnn.
    destruct (Z.le_gt_cases (Z.log2 N2) 52) as [Hsmall | Hbig].
    + unfold rounded.
      rewrite !Z.max_r by lia. rewrite !round_shift_0.
      assert (N1 < 2 ^ 53) by (apply Z.log2_lt_pow2; lia).
      assert (N2 < 2 ^ 53) by (apply Z.log2_lt_pow2; lia).
      destruct (Z.ltb_spec N1 (2 ^ 53)), (Z.ltb_spec N2 (2 ^ 53)); cbn [fst snd]; lia.
    + pose proof (quotient_53 N2 ltac:(lia) Hbig) as Hq2.
      pose proof (round_shift_bounds N2 (Z.log2 N2 - 52) ltac:(lia)) as Hb2.
      unfold rounded.
      rewrite (Z.max_l (Z.log2 N2 - 52)) by lia.
      set (k1 := Z.max (Z.log2 N1 - 52) 0).
      assert (Hk : k1 < Z.log2 N2 - 52) by lia.
      destruct (Z.ltb_spec (round_shift N1 k1) (2 ^ 53)),
               (Z.ltb_spec (round_shift N2 (Z.log2 N2 - 52)) (2 ^ 53)); cbn [fst snd]; lia.
Qed.

Lemma pack_mono me1 me2 :
  0 < fst me1 ->
  snd me1 < snd me2 \/ (snd me1 = snd me2 /\ fst me1 <= fst me2) ->
  SFleb (pack false me1) (pack false me2) = true /\
  SFleb (pack true me2) (pack true me1) = true.
Proof.
  destruct me1 as [M1 E1], me2 as [M2 E2]. cbn [fst snd]. intros Hpos Hlex.
  unfold pack. cbn [fst snd].
  destruct (Z.leb_spec E1 971), (Z.leb_spec E2 971); try (split; reflexivity); try lia.
  unfold SFleb, SFcompare.
  destruct Hlex as [Hlt | [-> Hm]].
  - apply Z.compare_lt_iff in Hlt as Hc. rewrite Hc.
    rewrite Z.compare_antisym, Hc. split; reflexivity.
  - rewrite Z.compare_refl.
    assert (Hp : (Z.to_pos M1 <= Z.to_pos M2)%positive) by lia.
    fold (Pos.compare (Z.to_pos M1) (Z.to_pos M2)).
    fold (Pos.compare (Z.to_pos M2) (Z.to_pos M1)).
    rewrite (Pos.compare_antisym (Z.to_pos M1) (Z.to_pos M2)).
    destruct (Pos.compare_spec (Z.to_pos M1) (Z.to_pos M2)); cbn; try (split; reflexivity).
    lia.
Qed.

Lemma nearest_mono N1 N2 :
  0 < N1 -> N1 <= N2 ->
  SFleb (nearest false N1) (nearest false N2) = true /\
  SFleb (nearest true N2) (nearest true N1) = true.
Proof.
  intros H1 Hle. apply pack_mono;
    [now apply rounded_positive | now apply rounded_mono].
Qed.

Lemma nearest_double_mono N1 N2 :
  N1 <= N2 -> SFleb (nearest_double N1) (nearest_double N2) = true.
Proof.
  intros Hle.
  destruct N1 as [| p1 | p1], N2 as [| p2 | p2]; try lia; cbn [nearest_double];
    try reflexivity.
  - unfold nearest, pack. destruct (_ <=? _); reflexivity.
  - apply nearest_mono; lia.
  - unfold nearest, pack. destruct (_ <=? _); reflexivity.
  - unfold nearest, pack. destruct (_ <=? _), (_ <=? _); reflexivity.
  - apply nearest_mono; lia.
Qed.

Lemma valid_finite s m e :
  valid_binary (S754_finite s m e) = true ->
  Z.max (Z.pos (digits2_pos m) + e - 53) (-1074) = e /\ e <= 971.
Proof.
  cbn [valid_binary]. unfold bounded, canonical_mantissa. rewrite fexp_eq.
  intros H. apply andb_true_iff in H as [Hc Hb].
  apply Z.eqb_eq in Hc. apply Z.leb_le in Hb. split; [exact Hc | exact Hb].
Qed.

(** A double is the nearest double of its own value. *)
Lemma nearest_canonical s m e :
  valid_binary (S754_finite s m e) = true ->
  nearest s (Z.pos m * 2 ^ (e + 1074)) = S754_finite s m e.
Proof.
  intros Hv. destruct (valid_finite s m e Hv) as [Hc Hb].
  rewrite <- binary_round_nearest by lia.
  unfold binary_round. rewrite fexp_eq, Hc, shl_align_none by lia.
  rewrite binary_round_aux_exact by exact Hc.
  destruct (Z.leb_spec e 971); [reflexivity | lia].
Qed.

Lemma nearest_double_pos N : 0 < N -> nearest_double N = nearest false N.
Proof. destruct N; try lia. reflexivity. Qed.

Lemma nearest_double_neg N : 0 < N -> nearest_double (- N) = nearest true N.
Proof. destruct N; try lia. reflexivity. Qed.

Lemma unsigned_nearest_double N : unsigned_zero (nearest_double N) = nearest_double N.
Proof.
  destruct N; cbn [nearest_double]; try reflexivity;
    unfold nearest, pack; destruct (_ <=? _); reflexivity.
Qed.

Lemma nearest_double_scaled x :
  valid_binary x = true -> is_number x = true ->
  nearest_double (scaled x) = unsigned_zero x.
Proof.
  intros Hv Hn. destruct x as [s | s | | s m e]; try discriminate; [reflexivity |].
  cbn [scaled unsigned_zero].
  assert (Hpos : 0 < Z.pos m * 2 ^ (e + 1074)).
  { destruct (valid_finite s m e Hv). apply Z.mul_pos_pos; [lia |].
    apply Z.pow_pos_nonneg; lia. }
  destruct s; cbn [cond_Zopp].
  - rewrite nearest_double_neg by exact Hpos. now apply nearest_canonical.
  - rewrite nearest_double_pos by exact Hpos. now apply nearest_canonical.
Qed.

Lemma binary_normalize_nearest n e :
  -1074 <= e ->
  binary_normalize prec emax n e false = nearest_double (n * 2 ^ (e + 1074)).
Proof.
  intros He.
  assert (Hp : 0 < 2 ^ (e + 1074)) by (apply Z.pow_pos_nonneg; lia).
  destruct n as [| p | p]; cbn [binary_normalize].
  - reflexivity.
  - rewrite binary_round_nearest, nearest_double_pos by lia. reflexivity.
  - rewrite binary_round_nearest by lia.
    replace (Z.neg p * 2 ^ (e + 1074)) with (- (Z.pos p * 2 ^ (e + 1074))) by lia.
    rewrite nearest_double_neg by lia. reflexivity.
Qed.

Lemma shl_align_fst m e t :
  t <= e -> Z.pos (fst (shl_align m e t)) = Z.pos m * 2 ^ (e - t).
Proof.
  intros Ht. destruct (Z.eq_dec t e) as [-> | Hne].
  - rewrite shl_align_none, Z.sub_diag by lia. cbn [fst]. change (2 ^ 0) with 1. lia.
  - destruct (shl_align_left m e t ltac:(lia)) as (mz & -> & Hmz). exact Hmz.
Qed.

Lemma aligned_scaled s m e t :
  -1074 <= t -> t <= e ->
  cond_Zopp s (Z.pos (fst (shl_align m e t))) * 2 ^ (t + 1074)
  = scaled (S754_finite s m e).
Proof.
  intros Ht Hte. rewrite shl_align_fst by exact Hte. cbn [scaled].
  replace (e + 1074) with ((e - t) + (t + 1074)) by lia.
  rewrite (Z.pow_add_r 2 (e - t) (t + 1074)) by lia.
  destruct s; cbn [cond_Zopp]; ring.
Qed.

(** Sums and differences of numbers are the nearest doubles of the exact
    sums and differences. *)
Lemma SFsub_scaled a b :
  valid_binary a = true -> valid_binary b = true ->
  is_number a = true -> is_number b = true ->
  unsigned_zero (SFsub prec emax a b) = nearest_double (scaled a - scaled b).
Proof.
  intros Ha Hb Na Nb.
  destruct a as [sa | sa | | sa ma ea], b as [sb | sb | | sb mb eb]; try discriminate.
  - destruct sa, sb; reflexivity.
  - cbn [SFsub unsigned_zero]. rewrite Z.sub_0_l.
    change (- scaled (S754_finite sb mb eb)) with (- cond_Zopp sb (Z.pos mb * 2 ^ (eb + 1074))).
    replace (- cond_Zopp sb (Z.pos mb * 2 ^ (eb + 1074)))
      with (scaled (S754_finite (negb sb) mb eb))
      by (destruct sb; cbn [scaled negb cond_Zopp]; lia).
    now rewrite nearest_double_scaled.
  - cbn [SFsub]. change (scaled (S754_zero sb)) with 0. rewrite Z.sub_0_r.
    now rewrite nearest_double_scaled.
  - destruct (valid_finite _ _ _ Ha) as [Hca _], (valid_finite _ _ _ Hb) as [Hcb _].
    cbn [SFsub]. cbv zeta.
    rewrite binary_normalize_nearest by lia.
    rewrite unsigned_nearest_double. f_equal.
    rewrite Z.mul_sub_distr_r, !aligned_scaled by lia. reflexivity.
Qed.

Lemma SFadd_scaled a b :
  valid_binary a = true -> valid_binary b = true ->
  is_number a = true -> is_number b = true ->
  unsigned_zero (SFadd prec emax a b) = nearest_double (scaled a + scaled b).
Proof.
  intros Ha Hb Na Nb.
  destruct a as [sa | sa | | sa ma ea], b as [sb | sb | | sb mb eb]; try discriminate.
  - destruct sa, sb; reflexivity.
  - cbn [SFadd]. change (scaled (S754_zero sa)) with 0. rewrite Z.add_0_l.
    now rewrite nearest_double_scaled.
  - cbn [SFadd]. change (scaled (S754_zero sb)) with 0. rewrite Z.add_0_r.
    now rewrite nearest_double_scaled.
  - destruct (valid_finite _ _ _ Ha) as [Hca _], (valid_finite _ _ _ Hb) as [Hcb _].
    cbn [SFadd]. cbv zeta.
    rewrite binary_normalize_nearest by lia.
    rewrite unsigned_nearest_double. f_equal.
    rewrite Z.mul_add_distr_r, !aligned_scaled by lia. reflexivity.
Qed.

Lemma SFleb_unsigned x y : SFleb x y = SFleb (unsigned_zero x) (unsigned_zero y).
Proof. destruct x, y; reflexivity. Qed.

(** The order of the doubles is the order of their values. *)
Lemma SFleb_scaled a b :
  valid_binary a = true -> valid_binary b = true ->
  is_number a = true -> is_number b = true ->
  SFleb a b = true -> scaled a <= scaled b.
Proof.
  intros Ha Hb Na Nb.
  assert (Hpos : forall s m e, valid_binary (S754_finite s m e) = true ->
                               0 < Z.pos m * 2 ^ (e + 1074)).
  { intros s m e Hv. destruct (valid_finite s m e Hv).
    apply Z.mul_pos_pos; [lia | apply Z.pow_pos_nonneg; lia]. }
  destruct a as [sa | sa | | sa ma ea], b as [sb | sb | | sb mb eb]; try discriminate.
  - intros H. pose proof (Hpos _ _ _ Hb).
    destruct sb; cbn [scaled cond_Zopp]; [discriminate | lia].
  - intros H. pose proof (Hpos _ _ _ Ha).
    destruct sa; cbn [scaled cond_Zopp]; [lia | discriminate].
  - pose proof (Hpos _ _ _ Ha) as Pa. pose proof (Hpos _ _ _ Hb) as Pb.
    assert (Hmag : forall m e m' e',
               valid_binary (S754_finite false m e) = true ->
               valid_binary (S754_finite false m' e') = true ->
               match e ?= e' with
               | Lt => True
               | Gt => False
               | Eq => (m <= m')%positive
               end ->
               Z.pos m * 2 ^ (e + 1074) <= Z.pos m' * 2 ^ (e' + 1074)).
    { intros m e m' e' Hv Hv' Hcmp.
      destruct (valid_finite _ _ _ Hv) as [Hc _], (valid_finite _ _ _ Hv') as [Hc' _].
      rewrite !digits2_log2 in *.
      destruct (Z.compare_spec e e') as [-> | Hlt | Hgt]; [| | contradiction].
      - apply Z.mul_le_mono_nonneg_r; [apply Z.pow_nonneg; lia | lia].
      - assert (Hm : Z.pos m < 2 ^ 53) by (apply Z.log2_lt_pow2; lia).
        assert (Hm' : 2 ^ 52 <= Z.pos m') by (apply Z.log2_le_pow2; lia).
        assert (Hp : 0 < 2 ^ (e + 1074)) by (apply Z.pow_pos_nonneg; lia).
        assert (Hstep : 2 * 2 ^ (e + 1074) <= 2 ^ (e' + 1074)).
        { rewrite <- Z.pow_succ_r by lia. apply Z.pow_le_mono_r; lia. }
        change (2 ^ 53) with (2 * 2 ^ 52) in Hm. nia. }
    unfold SFleb, SFcompare. cbn [scaled].
    destruct sa, sb; cbn [cond_Zopp]; try discriminate; try lia.
    + intros H. apply Z.opp_le_mono. rewrite !Z.opp_involutive.
      apply Hmag; [exact Hb | exact Ha |].
      rewrite Z.compare_antisym.
      destruct (ea ?= eb); cbn [CompOpp]; try discriminate; auto.
      fold (Pos.compare ma mb) in H.
      destruct (Pos.compare_spec ma mb); cbn in H; try discriminate; lia.
    + intros H. apply Hmag; [exact Ha | exact Hb |].
      destruct (ea ?= eb); try discriminate; auto.
      fold (Pos.compare ma mb) in H.
      destruct (Pos.compare_spec ma mb); cbn in H; try discriminate; lia.
Qed.

Lemma SFsub_number a b :
  is_number (SFsub prec emax a b) = true -> is_number a = true /\ is_number b = true.
Proof.
  destruct a as [sa | sa | | sa ma ea], b as [sb | sb | | sb mb eb];
    try (intros _; split; reflexivity);
    cbn [SFsub is_number]; try destruct sa; try destruct sb; cbn [is_number negb];
    discriminate.
Qed.

(** Subtracting the same number keeps the order, rounding included. *)
Lemma SFsub_mono a b c :
  valid_binary a = true -> valid_binary b = true -> valid_binary c = true ->
  is_number (SFsub prec emax a c) = true -> is_number (SFsub prec emax b c) = true ->
  SFleb a b = true ->
  SFleb (SFsub prec emax a c) (SFsub prec emax b c) = true.
Proof.
  intros Ha Hb Hc Nac Nbc Hle.
  destruct (SFsub_number a c Nac) as [Na Nc], (SFsub_number b c Nbc) as [Nb _].
  rewrite SFleb_unsigned, !SFsub_scaled by assumption.
  apply nearest_double_mono.
  pose proof (SFleb_scaled a b Ha Hb Na Nb Hle). lia.
Qed.

(** Adding what is not above zero does not go up, rounding included. *)
Lemma SFadd_nonpos x y z :
  valid_binary x = true -> valid_binary y = true ->
  SFleb y (S754_zero false) = true -> SFleb x z = true ->
  SFltb z (SFadd prec emax x y) = false.
Proof.
  intros Hx Hy Hy0 Hxz.
  destruct (is_number x) eqn:Nx, (is_number y) eqn:Ny.
  - apply SF_le_le_not_lt with (y := x); [| exact Hxz].
    rewrite SFleb_unsigned, SFadd_scaled, <- (nearest_double_scaled x) by assumption.
    apply nearest_double_mono.
    pose proof (SFleb_scaled y (S754_zero false) Hy eq_refl Ny eq_refl Hy0) as H.
    cbn [scaled] in H. lia.
  - clear Hx Hy.
    destruct x as [sx | sx | | sx mx ex], y as [sy | sy | | sy my ey]; try discriminate;
      destruct sy; try discriminate; cbn [SFadd]; destruct z as [sz | [|] | | sz mz ez];
      try destruct sx; try discriminate; reflexivity.
  - clear Hx Hy.
    destruct x as [sx | sx | | sx mx ex], y as [sy | sy | | sy my ey]; try discriminate;
      destruct sx, sy; try discriminate; cbn [SFadd]; destruct z as [sz | [|] | | sz mz ez];
      try discriminate; reflexivity.
  - clear Hx Hy.
    destruct x as [sx | sx | | sx mx ex], y as [sy | sy | | sy my ey]; try discriminate;
      destruct sx, sy; try discriminate; cbn [SFadd]; destruct z as [sz | [|] | | sz mz ez];
      try discriminate; reflexivity.
Qed.

End Rounding.

Lemma finite_number x : finite x = is_number (Prim2SF x).
Proof. unfold finite. destruct (Prim2SF x); reflexivity. Qed.

(** [a <= b] gives [a - c <= b - c] for the differences that the machine
    computes, when they are numbers. *)
Lemma float_sub_le a b c :
  (a <=? b) = true -> finite (a - c) = true -> finite (b - c) = true ->
  (a - c <=? b - c) = true.
Proof.
  rewrite !finite_number, !leb_spec, !sub_spec. intros Hle Na Nb.
  apply SFsub_mono; auto using Prim2SF_valid.
Qed.

(** With [y <= 0] and [x <= z], the sum [x + y] that the machine computes
    is not above [z]. *)
Lemma float_add_nonpos x y z :
  (y <=? 0) = true -> (x <=? z) = true -> (z <? x + y) = false.
Proof.
  rewrite !leb_spec, ltb_spec, add_spec. change (Prim2SF 0) with (S754_zero false).
  apply SFadd_nonpos; apply Prim2SF_valid.
Qed.

(** ** Running the monad *)

Lemma run_bind {A B} (m : M A) (f : A -> M B) env s a s1 ev1 o s2 ev2 :
  m env s = mkResult (Normal a) s1 ev1 ->
  f a env s1 = mkResult o s2 ev2 ->
  bind m f env s = mkResult o s2 (ev1 ++ ev2).
Proof. intros H1 H2. unfold bind. rewrite H1. cbn. rewrite H2. reflexivity. Qed.

Lemma run_bind_as {A B} (m : M A) (f : A -> M B) env s a s1 ev1 o s2 ev2 ev :
  m env s = mkResult (Normal a) s1 ev1 ->
  f a env s1 = mkResult o s2 ev2 ->
  ev = ev1 ++ ev2 ->
  bind m f env s = mkResult o s2 ev.
Proof. intros H1 H2 ->. now apply run_bind with (a := a) (s1 := s1). Qed.

Lemma run_bind_raised {A B} (m : M A) (f : A -> M B) env s e s1 ev1 :
  m env s = mkResult (Raised e) s1 ev1 ->
  bind m f env s = mkResult (Raised e) s1 ev1.
Proof. intros H1. unfold bind. rewrite H1. reflexivity. Qed.

(** One [bind]: run the first computation with [tac], go on with the rest;
    the equation on the events is left for the end of the proof. *)
Ltac step tac :=
  eapply run_bind_as; [ first [ apply tac | tac ] | cbv beta | ].

(** Decide the comparison of floats that the goal is stuck on. *)
Ltac window E :=
  match type of E with
  | PrimFloat.ltb ?x ?y = _ =>
      match goal with
      | |- context [PrimFloat.ltb ?a ?b] =>
          change (PrimFloat.ltb a b) with (PrimFloat.ltb x y); rewrite E
      end
  end.

(** [int] of a float that is a number. *)
Lemma py_int_of_float_finite x env s :
  finite x = true ->
  py_int_of_float x env s = mkResult (Normal (truncate x)) s [].
Proof.
  unfold py_int_of_float, finite. destruct (Prim2SF x); intros H;
    first [discriminate H | reflexivity].
Qed.

Lemma feeds_unhealthy_round self ft T now :
  feeds (unhealthy_round self ft T now) = (now - T <? ft).
Proof. unfold unhealthy_round. destruct (_ <? _); reflexivity. Qed.

Section Quiet.
Variable env : Env.
Hypothesis quiet : sigterm_at env = None.

Lemma deliver_quiet s : deliver env s = mkResult (Normal tt) (bump 1 0 0 0 s) [].
Proof. unfold deliver, signal_due. rewrite quiet. reflexivity. Qed.

Lemma time_time_quiet s :
    time_time env s = mkResult (Normal (clock env (nclock s))) (bump 1 1 0 0 s) [].
Proof. unfold time_time. unfold bind; rewrite deliver_quiet; reflexivity. Qed.

Lemma time_sleep_quiet d s :
    sleep_error d = None ->
    time_sleep d env s = mkResult (Normal tt) (bump 1 0 0 0 s) [EvSleep d].
Proof.
    intros Hd. unfold time_sleep. rewrite Hd.
    unfold bind; rewrite deliver_quiet; reflexivity.
Qed.

  (** A refused duration: [time.sleep] raises and the program does not
      sleep. *)
Lemma time_sleep_refused d e s :
    sleep_error d = Some e ->
    time_sleep d env s = mkResult (Raised e) (bump 1 0 0 0 s) [].
Proof.
    intros Hd. unfold time_sleep. rewrite Hd.
    unfold bind; rewrite deliver_quiet; reflexivity.
Qed.

Lemma print_quiet m s :
    print m env s = mkResult (Normal tt) (bump 1 0 0 0 s) [EvPrint m].
Proof. unfold print. unfold bind; rewrite deliver_quiet; reflexivity. Qed.

Lemma external_check_quiet s :
    external_check env s =
    mkResult (match probe env (nprobe s) with
              | Returns b => Normal b
              | Raises => Raised ProbeError
              end) (bump 1 0 0 1 s) [EvProbe].
Proof. unfold external_check. unfold bind; rewrite deliver_quiet; reflexivity. Qed.

Lemma feed_quiet self s :
    fd_open s = true -> dev_ok env (ndev s) = true ->
    feed self env s = mkResult (Normal tt) (bump 2 0 1 0 s) [EvWrite "1"; EvFlush].
Proof.
    intros Hfd Hf. unfold feed, fd_write, fd_flush.
    eapply run_bind_as.
    - unfold bind. rewrite deliver_quiet. unfold raw_fd_write. cbn. rewrite Hfd. reflexivity.
    - unfold bind. rewrite deliver_quiet. unfold raw_fd_flush. cbn. rewrite Hfd, Hf. reflexivity.
    - reflexivity.
Qed.

Hypothesis device : forall k, dev_ok env k = true.

Lemma startup_feeds self end_time s :
    sleep_error (interval self) = None ->
    fd_open s = true ->
    (clock env (nclock s) <? end_time) = true ->
    startup_iteration self end_time env s =
    mkResult (Normal (Starting end_time)) (bump 4 1 1 0 s)
             [EvWrite "1"; EvFlush; EvSleep (interval self)].
Proof.
    intros Hsleep Hfd Hlt. unfold startup_iteration.
    step time_time_quiet.
    rewrite Hlt.
    step ltac:(apply feed_quiet; auto).
    step ltac:(apply time_sleep_quiet; exact Hsleep).
    all: reflexivity.
Qed.

Lemma startup_ends self end_time s :
    (clock env (nclock s) <? end_time) = false ->
    startup_iteration self end_time env s =
    mkResult (Normal (Monitoring None)) (bump 2 1 0 0 s) [EvPrint MsgMonitoring].
Proof.
    intros Hge. unfold startup_iteration.
    step time_time_quiet.
    rewrite Hge.
    step print_quiet.
    all: reflexivity.
Qed.

Lemma monitor_healthy self hc ft fs s s1 ev :
    sleep_error (interval self) = None ->
    health_test hc env s = mkResult (Normal true) s1 ev ->
    fd_open s1 = true ->
    monitor_iteration self hc ft fs env s =
    mkResult (Normal (Monitoring None)) (bump 3 0 1 0 s1)
             (ev ++ [EvWrite "1"; EvFlush; EvSleep (interval self)]).
Proof.
    intros Hsleep Hh Hfd. unfold monitor_iteration.
    eapply run_bind; [exact Hh |].
    step idtac.
    { step ltac:(apply feed_quiet; auto). all: reflexivity. }
    step ltac:(apply time_sleep_quiet; exact Hsleep).
    all: reflexivity.
Qed.

  (** An unhealthy round: the window opens now if it is not open, and the
      device is fed while the window is younger than [fail_timeout]. *)
Lemma monitor_unhealthy self hc ft fs s s1 ev :
    sleep_error (interval self) = None ->
    health_test hc env s = mkResult (Normal false) s1 ev ->
    fd_open s1 = true ->
    let start := match fs with Some t => t | None => clock env (nclock s1) end in
    let now := clock env (match fs with Some _ => nclock s1 | None => S (nclock s1) end) in
    finite (now - start) = true ->
    let fed := now - start <? ft in
    exists s',
      monitor_iteration self hc ft fs env s =
      mkResult (Normal (Monitoring (Some start))) s'
               (ev ++ EvPrint (MsgFailing (truncate (now - start)) ft)
                   :: (if fed then [EvWrite "1"; EvFlush] else [])
                   ++ [EvSleep (interval self)])
      /\ nclock s' = S (match fs with Some _ => nclock s1 | None => S (nclock s1) end)
      /\ nprobe s' = nprobe s1
      /\ fd_open s' = true.
Proof.
    intros Hsleep Hh Hfd start now Hfin fed.
    destruct fs as [t |]; destruct fed eqn:Efed; subst fed; eexists; split.
    all: try (unfold monitor_iteration; eapply run_bind; [exact Hh |]).
    - step idtac.
      { step ltac:(unfold ret; reflexivity).
        step time_time_quiet.
        step ltac:(apply py_int_of_float_finite; exact Hfin).
        step print_quiet.
        window Efed.
        step ltac:(apply feed_quiet; auto).
        all: reflexivity. }
      step ltac:(apply time_sleep_quiet; exact Hsleep).
      all: reflexivity.
    - cbn; auto.
    - step idtac.
      { step ltac:(unfold ret; reflexivity).
        step time_time_quiet.
        step ltac:(apply py_int_of_float_finite; exact Hfin).
        step print_quiet.
        window Efed.
        step ltac:(unfold ret; reflexivity).
        all: reflexivity. }
      step ltac:(apply time_sleep_quiet; exact Hsleep).
      all: reflexivity.
    - cbn; auto.
    - step idtac.
      { step time_time_quiet.
        step time_time_quiet.
        step ltac:(apply py_int_of_float_finite; exact Hfin).
        step print_quiet.
        window Efed.
        step ltac:(apply feed_quiet; auto).
        all: reflexivity. }
      step ltac:(apply time_sleep_quiet; exact Hsleep).
      all: reflexivity.
    - cbn; auto.
    - step idtac.
      { step time_time_quiet.
        step time_time_quiet.
        step ltac:(apply py_int_of_float_finite; exact Hfin).
        step print_quiet.
        window Efed.
        step ltac:(unfold ret; reflexivity).
        all: reflexivity. }
      step ltac:(apply time_sleep_quiet; exact Hsleep).
      all: reflexivity.
    - cbn; auto.
Qed.

Lemma external_returns b s :
    probe env (nprobe s) = Returns b ->
    health_test (Some external_check) env s = mkResult (Normal b) (bump 1 0 0 1 s) [EvProbe].
Proof. intros Hp. cbn. rewrite external_check_quiet, Hp. reflexivity. Qed.

  (** Inside an open window every round is decided by the age of the
      window alone. *)
Lemma streak_rounds self ft T n : forall s j,
    sleep_error (interval self) = None ->
    fd_open s = true ->
    (forall k, (nprobe s <= k)%nat -> probe env k = Returns false) ->
    (forall i, (i <= j)%nat -> finite (clock env (i + nclock s) - T) = true) ->
    (j < n)%nat ->
    nth_error (ticks self (Some external_check) ft n (Monitoring (Some T)) env s) j
    = Some (unhealthy_round self ft T (clock env (j + nclock s))).
Proof.
    induction n as [| n IH]; intros s j Hsleep Hfd Hp Hfin Hj; [lia |].
    destruct (monitor_unhealthy self (Some external_check) ft (Some T) s _ _ Hsleep
                (external_returns false s (Hp _ (Nat.le_refl _))) Hfd
                (Hfin 0%nat (Nat.le_0_l _)))
      as (s' & Hrun & Hclock & Hprobe & Hfd').
    cbn [ticks iteration]. rewrite Hrun. cbn [outcome final events].
    destruct j as [| j]; cbn [nth_error]; [reflexivity |].
    rewrite IH; auto; [| | | lia].
    - rewrite Hclock. cbn. now rewrite Nat.add_succ_r.
    - intros k Hk. apply Hp. rewrite Hprobe in Hk. cbn in Hk. lia.
    - intros i Hi. rewrite Hclock. cbn [bump nclock Nat.add].
      rewrite Nat.add_succ_r. apply (Hfin (S i)). lia.
Qed.

Lemma opening_rounds self ft n s j :
    sleep_error (interval self) = None ->
    fd_open s = true ->
    (forall k, (nprobe s <= k)%nat -> probe env k = Returns false) ->
    (forall i, (i <= j)%nat ->
       finite (clock env (S i + nclock s) - clock env (nclock s)) = true) ->
    (j < n)%nat ->
    nth_error (ticks self (Some external_check) ft n (Monitoring None) env s) j
    = Some (unhealthy_round self ft (clock env (nclock s)) (clock env (S j + nclock s))).
Proof.
    intros Hsleep Hfd Hp Hfin Hj. destruct n as [| n]; [lia |].
    destruct (monitor_unhealthy self (Some external_check) ft None s _ _ Hsleep
                (external_returns false s (Hp _ (Nat.le_refl _))) Hfd
                (Hfin 0%nat (Nat.le_0_l _)))
      as (s' & Hrun & Hclock & Hprobe & Hfd').
    cbn [ticks iteration]. rewrite Hrun. cbn [outcome final events].
    destruct j as [| j]; cbn [nth_error]; [reflexivity |].
    rewrite streak_rounds; auto; [| | | lia].
    - rewrite Hclock. cbn. now rewrite !Nat.add_succ_r.
    - intros k Hk. apply Hp. rewrite Hprobe in Hk. cbn in Hk. lia.
    - intros i Hi. rewrite Hclock. cbn [bump nclock Nat.add].
      rewrite !Nat.add_succ_r. apply (Hfin (S i)). lia.
Qed.

Lemma opening_decisions self ft n s j :
    sleep_error (interval self) = None ->
    fd_open s = true ->
    (forall k, (nprobe s <= k)%nat -> probe env k = Returns false) ->
    (forall i, (i <= j)%nat ->
       finite (clock env (S i + nclock s) - clock env (nclock s)) = true) ->
    (j < n)%nat ->
    nth_error (decisions self (Some external_check) ft n (Monitoring None) env s) j
    = Some (clock env (S j + nclock s) - clock env (nclock s) <? ft).
Proof.
    intros Hsleep Hfd Hp Hfin Hj. unfold decisions.
    rewrite nth_error_map, opening_rounds by assumption.
    cbn [option_map]. now rewrite feeds_unhealthy_round.
Qed.

Lemma loop_step self hc ft n p s p' s' ev :
    iteration self hc ft p env s = mkResult (Normal p') s' ev ->
    outcome (loop self hc ft (S n) p env s) = outcome (loop self hc ft n p' env s').
Proof. intros H. cbn [loop]. unfold bind. rewrite H. reflexivity. Qed.

Lemma loop_raised self hc ft n p s e s' ev :
    iteration self hc ft p env s = mkResult (Raised e) s' ev ->
    loop self hc ft (S n) p env s = mkResult (Raised e) s' ev.
Proof. intros H. cbn [loop]. unfold bind. rewrite H. reflexivity. Qed.

Lemma streak_loop self ft T n : forall s,
    sleep_error (interval self) = None ->
    fd_open s = true ->
    (forall k, (nprobe s <= k)%nat -> probe env k = Returns false) ->
    (forall i, (i < n)%nat -> finite (clock env (i + nclock s) - T) = true) ->
    outcome (loop self (Some external_check) ft n (Monitoring (Some T)) env s)
    = Normal (Monitoring (Some T)).
Proof.
    induction n as [| n IH]; intros s Hsleep Hfd Hp Hfin; [reflexivity |].
    destruct (monitor_unhealthy self (Some external_check) ft (Some T) s _ _ Hsleep
                (external_returns false s (Hp _ (Nat.le_refl _))) Hfd
                (Hfin 0%nat (Nat.lt_0_succ _)))
      as (s' & Hrun & Hclock & Hprobe & Hfd').
    rewrite (loop_step _ _ _ _ (Monitoring (Some T)) _ _ _ _ Hrun). apply IH; auto.
    - intros k Hk. apply Hp. rewrite Hprobe in Hk. cbn in Hk. lia.
    - intros i Hi. rewrite Hclock. cbn [bump nclock Nat.add].
      rewrite Nat.add_succ_r. apply (Hfin (S i)). lia.
Qed.

Lemma opening_loop self ft n s :
    sleep_error (interval self) = None ->
    fd_open s = true ->
    (forall k, (nprobe s <= k)%nat -> probe env k = Returns false) ->
    (forall i, (i < n)%nat ->
       finite (clock env (S i + nclock s) - clock env (nclock s)) = true) ->
    outcome (loop self (Some external_check) ft n (Monitoring None) env s)
    = Normal (match n with
              | O => Monitoring None
              | S _ => Monitoring (Some (clock env (nclock s)))
              end).
Proof.
    intros Hsleep Hfd Hp Hfin. destruct n as [| n]; [reflexivity |].
    destruct (monitor_unhealthy self (Some external_check) ft None s _ _ Hsleep
                (external_returns false s (Hp _ (Nat.le_refl _))) Hfd
                (Hfin 0%nat (Nat.lt_0_succ _)))
      as (s' & Hrun & Hclock & Hprobe & Hfd').
    rewrite (loop_step _ _ _ _ (Monitoring None) _ _ _ _ Hrun). apply streak_loop; auto.
    - intros k Hk. apply Hp. rewrite Hprobe in Hk. cbn in Hk. lia.
    - intros i Hi. rewrite Hclock. cbn [bump nclock Nat.add].
      rewrite !Nat.add_succ_r. apply (Hfin (S i)). lia.
Qed.

  (** A raising predicate: nothing in [run] catches the exception. *)
Lemma monitor_raises self ft fs s :
    probe env (nprobe s) = Raises ->
    monitor_iteration self (Some external_check) ft fs env s
    = mkResult (Raised ProbeError) (bump 1 0 0 1 s) [EvProbe].
Proof.
    intros Hp. unfold monitor_iteration. apply run_bind_raised.
    cbn [health_test]. rewrite external_check_quiet, Hp. reflexivity.
Qed.

Lemma run_entry_quiet sd s :
    run_entry sd env s =
    mkResult (Normal (Starting (clock env (nclock s) + sd))) (bump 2 1 0 0 s)
             [EvPrint (MsgStartupDelay sd)].
Proof.
    unfold run_entry.
    step print_quiet.
    step time_time_quiet.
    all: reflexivity.
Qed.

  (** The grace period: [health_check] is any computation at all. *)
Lemma startup_rounds self hc ft E n : forall s j,
    sleep_error (interval self) = None ->
    fd_open s = true ->
    (forall i, (i <= j)%nat -> (clock env (i + nclock s) <? E) = true) ->
    (j < n)%nat ->
    nth_error (ticks self hc ft n (Starting E) env s) j
    = Some [EvWrite "1"; EvFlush; EvSleep (interval self)].
Proof.
    induction n as [| n IH]; intros s j Hsleep Hfd Hearly Hj; [lia |].
    cbn [ticks iteration].
    rewrite startup_feeds by (auto; apply (Hearly 0%nat); lia).
    cbn [outcome final events].
    destruct j as [| j]; cbn [nth_error]; [reflexivity |].
    apply IH; [assumption | assumption | | lia].
    intros i Hi. cbn. rewrite Nat.add_succ_r. apply (Hearly (S i)). lia.
Qed.

  (** No predicate: every round feeds. *)
Lemma unchecked_iteration self ft fs s :
    sleep_error (interval self) = None ->
    fd_open s = true ->
    iteration self None ft (Monitoring fs) env s =
    mkResult (Normal (Monitoring None)) (bump 3 0 1 0 s)
             [EvWrite "1"; EvFlush; EvSleep (interval self)].
Proof.
    intros Hsleep Hfd. cbn [iteration].
    now rewrite (monitor_healthy self None ft fs s s []) by auto.
Qed.

Lemma unchecked_loop self ft n : forall s,
    sleep_error (interval self) = None ->
    fd_open s = true ->
    outcome (loop self None ft n (Monitoring None) env s) = Normal (Monitoring None).
Proof.
    induction n as [| n IH]; intros s Hsleep Hfd; [reflexivity |].
    rewrite (loop_step _ _ _ _ _ _ _ _ _ (unchecked_iteration self ft None s Hsleep Hfd)).
    now apply IH.
Qed.

Lemma unchecked_rounds self ft n : forall s j,
    sleep_error (interval self) = None ->
    fd_open s = true ->
    (j < n)%nat ->
    nth_error (ticks self None ft n (Monitoring None) env s) j
    = Some [EvWrite "1"; EvFlush; EvSleep (interval self)].
Proof.
    induction n as [| n IH]; intros s j Hsleep Hfd Hj; [lia |].
    cbn [ticks]. rewrite unchecked_iteration by assumption.
    cbn [outcome final events].
    destruct j as [| j]; cbn [nth_error]; [reflexivity |].
    apply IH; [assumption | assumption | lia].
Qed.

Lemma healthy_iteration self ft fs s :
    sleep_error (interval self) = None ->
    fd_open s = true ->
    probe env (nprobe s) = Returns true ->
    iteration self (Some external_check) ft (Monitoring fs) env s =
    mkResult (Normal (Monitoring None)) (bump 4 0 1 1 s)
             [EvProbe; EvWrite "1"; EvFlush; EvSleep (interval self)].
Proof.
    intros Hsleep Hfd Hp. cbn [iteration].
    now rewrite (monitor_healthy self _ ft fs s _ _ Hsleep (external_returns true s Hp)) by auto.
Qed.
End Quiet.

(** ** A program logic for the monad *)
Section Logic.
Variable env : Env.

Lemma hoare_ret pre exc {A} (ensures : A -> Prop) (a : A) :
    ensures a -> hoare env pre pre exc ensures (ret a).
Proof. intros Ha s past H. cbn. rewrite app_nil_r. auto. Qed.

Lemma hoare_bind pre mid post exc {A B} (QA : A -> Prop) (QB : B -> Prop)
      (m : M A) (f : A -> M B) :
    hoare env pre mid exc QA m ->
    (forall a, QA a -> hoare env mid post exc QB (f a)) ->
    hoare env pre post exc QB (bind m f).
Proof.
    intros Hm Hf s past H. specialize (Hm s past H).
    unfold bind. destruct (outcome (m env s)) as [a | e]; cbn.
    - destruct Hm as [Hmid Ha]. specialize (Hf a Ha _ _ Hmid).
      rewrite app_assoc.
      destruct (outcome (f a env (final (m env s)))); exact Hf.
    - exact Hm.
Qed.

Lemma triple_ret inv exc {A} (ensures : A -> Prop) (a : A) :
    ensures a -> triple env inv exc ensures (ret a).
Proof. apply hoare_ret. Qed.

Lemma triple_bind inv exc {A B} (QA : A -> Prop) (QB : B -> Prop)
      (m : M A) (f : A -> M B) :
    triple env inv exc QA m ->
    (forall a, QA a -> triple env inv exc QB (f a)) ->
    triple env inv exc QB (bind m f).
Proof. apply hoare_bind. Qed.

  (** [int] of a float changes nothing: it is harmless wherever an
      exception is. *)
Lemma triple_int_raises inv exc x :
    (forall e s past, inv s past -> exc e s past) ->
    triple env inv exc anything (py_int_of_float x).
Proof.
    intros Hexc s past H. unfold py_int_of_float.
    destruct (Prim2SF x); cbn; rewrite app_nil_r; try (split; [exact H | exact I]);
      now apply Hexc.
Qed.

Section Program.
Variable inv : State -> list Event -> Prop.
Variable exc : Exn -> State -> list Event -> Prop.
Variable good : float -> Prop.
Variable self : WDT.
Hypothesis triple_time_time : triple env inv exc good time_time.
Hypothesis triple_time_sleep : triple env inv exc anything (time_sleep (interval self)).
Hypothesis triple_print : forall m, triple env inv exc anything (print m).
Hypothesis triple_feed_write : triple env inv exc anything (fd_write "1").
Hypothesis triple_fd_flush : triple env inv exc anything fd_flush.
Hypothesis triple_int :
  forall a b, good a -> good b -> triple env inv exc anything (py_int_of_float (b - a)).

Lemma triple_feed : triple env inv exc anything (feed self).
Proof. eapply triple_bind; [exact triple_feed_write | intros _ _; exact triple_fd_flush]. Qed.

Lemma triple_startup_iteration end_time :
      triple env inv exc (window_of good) (startup_iteration self end_time).
Proof.
      eapply triple_bind; [exact triple_time_time | intros now _].
      destruct (now <? end_time).
      - eapply triple_bind; [apply triple_feed | intros _ _].
        eapply triple_bind; [exact triple_time_sleep | intros _ _].
        now apply triple_ret.
      - eapply triple_bind; [apply triple_print | intros _ _].
        now apply triple_ret.
Qed.

Lemma triple_monitor_iteration hc ft fs :
      window_of good (Monitoring fs) ->
      triple env inv exc anything (health_test hc) ->
      triple env inv exc (window_of good) (monitor_iteration self hc ft fs).
Proof.
      intros Hfs Hhc. unfold monitor_iteration.
      eapply triple_bind; [exact Hhc | intros healthy _].
      eapply triple_bind with (QA := fun w => window_of good (Monitoring w)).
      - destruct healthy.
        + eapply triple_bind; [apply triple_feed | intros _ _]. now apply triple_ret.
        + eapply triple_bind with (QA := good).
          * destruct fs as [t |]; [apply triple_ret; exact Hfs | exact triple_time_time].
          * intros start Hstart.
            eapply triple_bind; [exact triple_time_time | intros now Hnow].
            cbv zeta.
            eapply triple_bind; [apply triple_int; assumption | intros seconds _].
            eapply triple_bind; [apply triple_print | intros _ _].
            eapply triple_bind with (QA := anything);
              [| intros _ _; apply triple_ret; exact Hstart].
            destruct (_ <? _); [apply triple_feed | now apply triple_ret].
      - intros w Hw.
        eapply triple_bind; [exact triple_time_sleep | intros _ _].
        apply triple_ret. exact Hw.
Qed.

Lemma triple_loop hc ft n :
      triple env inv exc anything (health_test hc) ->
      forall p, window_of good p ->
                triple env inv exc (window_of good) (loop self hc ft n p).
Proof.
      intros Hhc. induction n as [| n IH]; intros p Hp; cbn [loop].
      - now apply triple_ret.
      - eapply triple_bind; [| exact IH].
        destruct p; [apply triple_startup_iteration | now apply triple_monitor_iteration].
Qed.
End Program.
End Logic.

Section Disarm.
Variable env : Env.
Hypothesis device : forall k, dev_ok env k = true.

  (** The handler on an open, working device. *)
Lemma stop_runs s :
    fd_open s = true ->
    _stop env s =
    mkResult (Raised (SystemExit 0)) (set_fd_open false (tick_dev s))
             [EvWrite "V"; EvClose].
Proof.
    intros Hfd. destruct s as [o c d p m sc fo h]. cbn in Hfd. subst fo.
    unfold _stop, bind, raw_fd_write, raw_fd_close, sys_exit, raise.
    cbn. rewrite !device. reflexivity.
Qed.

Lemma safe_deliver : triple env armed (disarmed env) anything deliver.
Proof.
    intros s past (Hfd & Hh & Hpast). unfold deliver.
    destruct (signal_due env s) eqn:Hdue.
    - rewrite Hh, stop_runs by exact Hfd. cbn.
      split; [reflexivity |]. split; [| split; [reflexivity |]].
      + unfold signal_due in Hdue. destruct (sigterm_at env); congruence.
      + exists past. split; auto.
    - cbn. rewrite app_nil_r. repeat split; auto.
Qed.

  (** A call that cannot fail and leaves the device handle alone. *)
Lemma safe_call {A} (ensures : A -> Prop) (a : State -> A) (f : State -> State)
      (ev : list Event) :
    (forall s, fd_open (f s) = fd_open s /\ handler (f s) = handler s) ->
    existsb is_disarm ev = false ->
    (forall s, ensures (a s)) ->
    triple env armed (disarmed env) ensures
           (deliver ;; fun _ s => mkResult (Normal (a s)) (f s) ev).
Proof.
    intros Hf Hev Ha. eapply triple_bind; [apply safe_deliver | intros _ _].
    intros s past (Hfd & Hh & Hpast). unfold armed; cbn.
    destruct (Hf s) as [-> ->]. repeat split; auto.
    rewrite existsb_app, Hpast, Hev. reflexivity.
Qed.

Lemma safe_time_time : triple env armed (disarmed env) (reading env) time_time.
Proof.
    apply (safe_call (reading env) (fun s => clock env (nclock s)) tick_clock []);
      [| reflexivity |].
    - intros s; split; reflexivity.
    - intros s. now exists (nclock s).
Qed.

Lemma safe_time_sleep d :
    sleep_error d = None -> triple env armed (disarmed env) anything (time_sleep d).
Proof.
    intros Hd. unfold time_sleep. rewrite Hd.
    apply (safe_call anything (fun _ => tt) (fun s => s) [EvSleep d]); [| reflexivity |].
    - intros s; split; reflexivity.
    - intros s. exact I.
Qed.

Lemma safe_print m : triple env armed (disarmed env) anything (print m).
Proof.
    apply (safe_call anything (fun _ => tt) (fun s => s) [EvPrint m]); [| reflexivity |].
    - intros s; split; reflexivity.
    - intros s. exact I.
Qed.

Lemma safe_feed_write : triple env armed (disarmed env) anything (fd_write "1").
Proof.
    eapply triple_bind; [apply safe_deliver | intros _ _].
    intros s past (Hfd & Hh & Hpast). unfold armed, raw_fd_write.
    rewrite Hfd. cbn. repeat split; auto.
    rewrite existsb_app, Hpast. reflexivity.
Qed.

Lemma safe_fd_flush : triple env armed (disarmed env) anything fd_flush.
Proof.
    eapply triple_bind; [apply safe_deliver | intros _ _].
    intros s past (Hfd & Hh & Hpast). unfold armed, raw_fd_flush.
    rewrite Hfd, device. cbn. repeat split; auto.
    rewrite existsb_app, Hpast. reflexivity.
Qed.

Lemma safe_int a b :
    finite_differences env -> reading env a -> reading env b ->
    triple env armed (disarmed env) anything (py_int_of_float (b - a)).
Proof.
    intros Hfin [i ->] [j ->] s past H.
    rewrite py_int_of_float_finite by apply Hfin.
    cbn. rewrite app_nil_r. split; [exact H | exact I].
Qed.

Hypothesis answers : forall k, probe env k <> Raises.

Lemma safe_health_test hc :
    hc = None \/ hc = Some external_check ->
    triple env armed (disarmed env) anything (health_test hc).
Proof.
    intros [-> | ->]; cbn [health_test]; [now apply triple_ret |].
    eapply triple_bind; [apply safe_deliver | intros _ _].
    intros s past (Hfd & Hh & Hpast). unfold armed. cbn.
    destruct (probe env (nprobe s)) eqn:Hp; [| now apply answers in Hp].
    cbn. repeat split; auto.
    rewrite existsb_app, Hpast. reflexivity.
Qed.

  (** However long it runs and wherever SIGTERM falls, the loop is either
      still going, armed, or it has left through the handler. *)
Lemma safe_loop self hc ft n p :
    sleep_error (interval self) = None ->
    finite_differences env ->
    window_read env p ->
    hc = None \/ hc = Some external_check ->
    triple env armed (disarmed env) (window_read env) (loop self hc ft n p).
Proof.
    intros Hsleep Hfin Hp Hhc.
    apply triple_loop;
      [ apply safe_time_time | now apply safe_time_sleep | apply safe_print
      | apply safe_feed_write | apply safe_fd_flush
      | intros a b; now apply safe_int | now apply safe_health_test | exact Hp ].
Qed.
End Disarm.

Section DeviceFailure.
Variable env : Env.
Variable k : nat.
Hypothesis broken : dev_ok env k = false.

Lemma working_before_k i : dev_ok env i = true -> (i <= k)%nat -> (S i <= k)%nat.
Proof.
    intros Hok Hle. destruct (Nat.eq_dec i k) as [-> |]; [congruence | lia].
Qed.

Lemma fatal_raise e s past :
    before_failure k s past -> stopped_by_failure k e s past.
Proof. intros [_ Hk]. split; [lia | intros E; lia]. Qed.

Lemma fatal_deliver :
    triple env (before_failure k) (stopped_by_failure k) anything deliver.
Proof.
    intros s past (Hfd & Hk).
    unfold deliver, before_failure, stopped_by_failure.
    destruct (signal_due env s); [| cbn; split; [split; assumption | exact I]].
    destruct (handler s); [| cbn; split; [lia | intros E; lia]].
    destruct s as [o c d p m sc fo h]. cbn in Hfd, Hk. subst fo.
    unfold _stop, bind, raw_fd_write, raw_fd_close, sys_exit, raise. cbn.
    destruct (dev_ok env d) eqn:Hc; cbn.
    - apply working_before_k in Hc; [| assumption]. split; [lia | intros E; lia].
    - split; [lia | intros _]. split; [reflexivity |].
      exists (past ++ [EvWrite "V"]), EvClose. now rewrite <- app_assoc.
Qed.

Lemma fatal_call {A} (ensures : A -> Prop) (r : State -> Outcome A) (f : State -> State)
      (ev : list Event) :
    (forall s, fd_open (f s) = fd_open s /\ ndev (f s) = ndev s) ->
    (forall s a, r s = Normal a -> ensures a) ->
    triple env (before_failure k) (stopped_by_failure k) ensures
           (deliver ;; fun _ s => mkResult (r s) (f s) ev).
Proof.
    intros Hf Hr. eapply triple_bind; [apply fatal_deliver | intros _ _].
    intros s past (Hfd & Hk). unfold before_failure, stopped_by_failure; cbn.
    destruct (Hf s) as [E1 E2]. specialize (Hr s).
    destruct (r s); rewrite ?E1, E2.
    - split; [split; assumption | now apply Hr].
    - split; [lia | intros E; lia].
Qed.

Lemma fatal_time_time :
    triple env (before_failure k) (stopped_by_failure k) anything time_time.
Proof.
    apply (fatal_call anything (fun s => Normal (clock env (nclock s))) tick_clock []).
    - now intros s.
    - intros s a E. exact I.
Qed.

Lemma fatal_time_sleep d :
    triple env (before_failure k) (stopped_by_failure k) anything (time_sleep d).
Proof.
    unfold time_sleep. destruct (sleep_error d) as [e |].
    - apply (fatal_call anything (fun _ => Raised e) (fun s => s) []); [now intros s |].
      intros s a E. exact I.
    - apply (fatal_call anything (fun _ => Normal tt) (fun s => s) [EvSleep d]);
        [now intros s |].
      intros s a E. exact I.
Qed.

Lemma fatal_print m :
    triple env (before_failure k) (stopped_by_failure k) anything (print m).
Proof.
    apply (fatal_call anything (fun _ => Normal tt) (fun s => s) [EvPrint m]); [now intros s |].
    intros s a E. exact I.
Qed.

Lemma fatal_external_check :
    triple env (before_failure k) (stopped_by_failure k) anything external_check.
Proof.
    apply (fatal_call anything
                      (fun s => match probe env (nprobe s) with
                                | Returns b => Normal b
                                | Raises => Raised ProbeError
                                end) tick_probe [EvProbe]); [now intros s |].
    intros s a E. exact I.
Qed.

Lemma fatal_feed_write :
    triple env (before_failure k) (stopped_by_failure k) anything (fd_write "1").
Proof.
    eapply triple_bind; [apply fatal_deliver | intros _ _].
    intros s past (Hfd & Hk). unfold raw_fd_write. rewrite Hfd. cbn.
    split; [split; assumption | exact I].
Qed.

Lemma fatal_fd_flush :
    triple env (before_failure k) (stopped_by_failure k) anything fd_flush.
Proof.
    eapply triple_bind; [apply fatal_deliver | intros _ _].
    intros s past (Hfd & Hk). unfold raw_fd_flush, before_failure, stopped_by_failure.
    rewrite Hfd. cbn.
    destruct (dev_ok env (ndev s)) eqn:Hok; cbn.
    - split; [split; [assumption | now apply working_before_k] | exact I].
    - split; [lia | intros _]. split; [reflexivity |]. exists past, EvFlush. auto.
Qed.

Lemma fatal_loop self hc ft n p :
    hc = None \/ hc = Some external_check ->
    triple env (before_failure k) (stopped_by_failure k) (window_of anything)
           (loop self hc ft n p).
Proof.
    intros Hhc.
    apply triple_loop;
      [ apply fatal_time_time | apply fatal_time_sleep | apply fatal_print
      | apply fatal_feed_write | apply fatal_fd_flush | | | ].
    - intros a b _ _. apply triple_int_raises. intros e s past. apply fatal_raise.
    - destruct Hhc as [-> | ->]; [now apply triple_ret | apply fatal_external_check].
    - destruct p as [e | [t |]]; exact I.
Qed.
End DeviceFailure.

(** ** Two clocks on which the program computes alike *)
Section AlikeClocks.
Variable env : Env.
Variable adj : nat -> float.
Variable sd : float.
Hypothesis same_comparisons : alike sd (clock env) (clock (adjust_clock adj env)).

Lemma ins_ret {A} (R : A -> A -> Prop) a a' :
    R a a' -> insensitive env adj R (ret a) (ret a').
Proof. intros H s. now repeat split. Qed.

Lemma ins_raise {A} (R : A -> A -> Prop) e : insensitive env adj R (raise e) (raise e).
Proof. intros s. now repeat split. Qed.

Lemma ins_bind {A B} (R : A -> A -> Prop) (R2 : B -> B -> Prop) m m' f f' :
    insensitive env adj R m m' ->
    (forall a a', R a a' -> insensitive env adj R2 (f a) (f' a')) ->
    insensitive env adj R2 (bind m f) (bind m' f').
Proof.
    intros Hm Hf s. destruct (Hm s) as (Hs & Hev & Ho).
    unfold same_run, bind.
    destruct (outcome (m env s)) as [a | e],
             (outcome (m' (adjust_clock adj env) s)) as [a' | e'];
      try contradiction; cbn.
    - destruct (Hf a a' Ho (final (m env s))) as (Hs2 & Hev2 & Ho2).
      rewrite <- Hs, <- Hev, <- Hs2, <- Hev2. auto.
    - subst. auto.
Qed.

Lemma ins_try {A} (R : A -> A -> Prop) m m' h h' :
    insensitive env adj R m m' -> insensitive env adj R h h' ->
    insensitive env adj R (try_except m h) (try_except m' h').
Proof.
    intros Hm Hh s. destruct (Hm s) as (Hs & Hev & Ho).
    unfold same_run, try_except.
    destruct (outcome (m env s)) as [a | e] eqn:E1,
             (outcome (m' (adjust_clock adj env) s)) as [a' | e'] eqn:E2;
      try contradiction; cbn.
    - rewrite E1, E2. auto.
    - destruct (Hh (final (m env s))) as (Hs2 & Hev2 & Ho2).
      rewrite <- Hs, <- Hev, <- Hs2, <- Hev2. auto.
Qed.

Lemma ins_time_time :
    insensitive env adj (paired (clock env) (clock (adjust_clock adj env)))
                time_time time_time.
Proof.
    intros s. unfold same_run, time_time, bind.
    change (deliver (adjust_clock adj env) s) with (deliver env s).
    destruct (outcome (deliver env s)); cbn; repeat split; auto.
    now exists (nclock (final (deliver env s))).
Qed.

  (** A call answered alike by both surroundings. *)
Lemma ins_call {A} (raw : M A) :
    (forall s, raw (adjust_clock adj env) s = raw env s) ->
    insensitive env adj eq (deliver ;; raw) (deliver ;; raw).
Proof.
    intros H s. unfold same_run, bind.
    change (deliver (adjust_clock adj env) s) with (deliver env s).
    destruct (outcome (deliver env s)); cbn; [rewrite H |]; repeat split; auto.
    destruct (outcome (raw env (final (deliver env s)))); auto.
Qed.

Lemma ins_print m : insensitive env adj eq (print m) (print m).
Proof. apply ins_call. reflexivity. Qed.

Lemma ins_time_sleep x : insensitive env adj eq (time_sleep x) (time_sleep x).
Proof. apply ins_call. intros s. now destruct (sleep_error x). Qed.

Lemma ins_feed self : insensitive env adj eq (feed self) (feed self).
Proof.
    eapply ins_bind; [apply ins_call; reflexivity | intros _ _ _].
    apply ins_call. reflexivity.
Qed.

Lemma ins_external_check : insensitive env adj eq external_check external_check.
Proof. apply ins_call. reflexivity. Qed.

Lemma ins_int x : insensitive env adj eq (py_int_of_float x) (py_int_of_float x).
Proof.
    intros s. unfold same_run, py_int_of_float.
    destruct (Prim2SF x); cbn; auto.
Qed.

Lemma ins_if {A} (R : A -> A -> Prop) (b b' : bool) m1 m1' m2 m2' :
    b = b' -> insensitive env adj R m1 m1' -> insensitive env adj R m2 m2' ->
    insensitive env adj R (if b then m1 else m2) (if b' then m1' else m2').
Proof. intros <-. now destruct b. Qed.

Lemma ins_startup_iteration self E E' :
    paired_phase sd (clock env) (clock (adjust_clock adj env)) (Starting E) (Starting E') ->
    insensitive env adj (paired_phase sd (clock env) (clock (adjust_clock adj env)))
                (startup_iteration self E) (startup_iteration self E').
Proof.
    intros (k & -> & ->). unfold startup_iteration.
    eapply ins_bind; [apply ins_time_time | intros now now' (j & -> & ->)].
    apply ins_if; [symmetry; apply (proj2 same_comparisons) | |].
    - eapply ins_bind; [apply ins_feed | intros _ _ _].
      eapply ins_bind; [apply ins_time_sleep | intros _ _ _].
      apply ins_ret. now exists k.
    - eapply ins_bind; [apply ins_print | intros _ _ _].
      now apply ins_ret.
Qed.

Lemma ins_monitor_iteration self hc ft fs fs' :
    insensitive env adj eq (health_test hc) (health_test hc) ->
    paired_window (clock env) (clock (adjust_clock adj env)) fs fs' ->
    insensitive env adj (paired_phase sd (clock env) (clock (adjust_clock adj env)))
                (monitor_iteration self hc ft fs) (monitor_iteration self hc ft fs').
Proof.
    intros Hhc Hfs. unfold monitor_iteration.
    eapply ins_bind; [exact Hhc | intros healthy ? <-].
    eapply ins_bind with (R := paired_window (clock env) (clock (adjust_clock adj env))).
    - apply ins_if; [reflexivity | |].
      + eapply ins_bind; [apply ins_feed | intros _ _ _]. now apply ins_ret.
      + eapply ins_bind with (R := paired (clock env) (clock (adjust_clock adj env))).
        * destruct fs as [t |], fs' as [t' |]; try contradiction;
            [now apply ins_ret | apply ins_time_time].
        * intros start start' (i & Hi & Hi').
          eapply ins_bind; [apply ins_time_time | intros now now' (j & Hj & Hj')].
          cbv zeta.
          assert (Hage : now' - start' = now - start)
            by (subst; apply (proj1 same_comparisons)).
          rewrite Hage.
          eapply ins_bind; [apply ins_int | intros seconds ? <-].
          eapply ins_bind; [apply ins_print | intros _ _ _].
          eapply ins_bind with (R := eq).
          -- apply ins_if; [reflexivity | apply ins_feed | now apply ins_ret].
          -- intros _ _ _. apply ins_ret. now exists i.
    - intros w w' Hw.
      eapply ins_bind; [apply ins_time_sleep | intros _ _ _].
      apply ins_ret. destruct w, w'; exact Hw.
Qed.

Lemma ins_check_system_alive : insensitive env adj eq check_system_alive check_system_alive.
Proof.
    unfold check_system_alive.
    eapply ins_bind; [apply ins_call; reflexivity | intros lines ? <-].
    eapply ins_bind with (R := eq);
      [unfold py_dict; destruct (py_dict_from _ _); [now apply ins_ret | apply ins_raise]
      | intros mem ? <-].
    eapply ins_bind with (R := eq);
      [unfold py_int; destruct (parse_int _); [now apply ins_ret | apply ins_raise]
      | intros avail ? <-].
    apply ins_if; [reflexivity | |].
    - eapply ins_bind; [apply ins_print | intros _ _ _]. now apply ins_ret.
    - eapply ins_bind with (R := eq).
      + apply ins_try.
        * eapply ins_bind; [apply ins_time_time | intros start start' (i & -> & ->)].
          eapply ins_bind; [apply ins_call; reflexivity | intros _ _ _].
          eapply ins_bind; [apply ins_time_time | intros now now' (j & -> & ->)].
          rewrite (proj1 same_comparisons).
          apply ins_if; [reflexivity | | now apply ins_ret].
          eapply ins_bind; [apply ins_print | intros _ _ _]. now apply ins_ret.
        * eapply ins_bind; [apply ins_print | intros _ _ _]. now apply ins_ret.
      + intros returned ? <-. destruct returned; now apply ins_ret.
Qed.

Lemma ins_health_test hc :
    known_predicate hc ->
    insensitive env adj eq (health_test hc) (health_test hc).
Proof.
    intros [-> | [-> | ->]]; cbn [health_test].
    - now apply ins_ret.
    - apply ins_external_check.
    - apply ins_check_system_alive.
Qed.

Lemma ins_iteration self hc ft p p' :
    known_predicate hc ->
    paired_phase sd (clock env) (clock (adjust_clock adj env)) p p' ->
    insensitive env adj (paired_phase sd (clock env) (clock (adjust_clock adj env)))
                (iteration self hc ft p) (iteration self hc ft p').
Proof.
    intros Hhc Hp.
    destruct p as [E | fs], p' as [E' | fs']; cbn [iteration];
      try (destruct fs; contradiction); try contradiction.
    - now apply ins_startup_iteration.
    - apply ins_monitor_iteration; [now apply ins_health_test |].
      destruct fs, fs'; exact Hp.
Qed.

Lemma ins_loop self hc ft n : forall p p',
    known_predicate hc ->
    paired_phase sd (clock env) (clock (adjust_clock adj env)) p p' ->
    insensitive env adj (paired_phase sd (clock env) (clock (adjust_clock adj env)))
                (loop self hc ft n p) (loop self hc ft n p').
Proof.
    induction n as [| n IH]; intros p p' Hhc Hp; cbn [loop].
    - now apply ins_ret.
    - eapply ins_bind; [now apply ins_iteration | intros q q' Hq]. now apply IH.
Qed.

Lemma ins_ticks self hc ft n : forall p p' s,
    known_predicate hc ->
    paired_phase sd (clock env) (clock (adjust_clock adj env)) p p' ->
    ticks self hc ft n p' (adjust_clock adj env) s = ticks self hc ft n p env s.
Proof.
    induction n as [| n IH]; intros p p' s Hhc Hp; cbn [ticks]; [reflexivity |].
    destruct (ins_iteration self hc ft p p' Hhc Hp s) as (Hs & Hev & Ho).
    rewrite <- Hev. f_equal.
    destruct (outcome (iteration self hc ft p env s)) as [q | e],
             (outcome (iteration self hc ft p' (adjust_clock adj env) s)) as [q' | e'];
      try contradiction; [| reflexivity].
    rewrite <- Hs. now apply IH.
Qed.

Lemma ins_run_entry :
    insensitive env adj (paired_phase sd (clock env) (clock (adjust_clock adj env)))
                (run_entry sd) (run_entry sd).
Proof.
    unfold run_entry.
    eapply ins_bind; [apply ins_print | intros _ _ _].
    eapply ins_bind; [apply ins_time_time | intros now now' (k & -> & ->)].
    apply ins_ret. now exists k.
Qed.
End AlikeClocks.

(** ** The reference predicate without a signal *)
Section Reference.
Variable env : Env.
Hypothesis quiet : sigterm_at env = None.

Lemma run_try_normal {A} (body h : M A) s a s1 ev :
    body env s = mkResult (Normal a) s1 ev ->
    try_except body h env s = mkResult (Normal a) s1 ev.
Proof. intros H. unfold try_except. now rewrite H. Qed.

Lemma run_try_raised {A} (body h : M A) s e s1 ev o s2 ev2 evs :
    body env s = mkResult (Raised e) s1 ev ->
    h env s1 = mkResult o s2 ev2 ->
    evs = ev ++ ev2 ->
    try_except body h env s = mkResult o s2 evs.
Proof. intros H1 H2 ->. unfold try_except. rewrite H1. cbn. now rewrite H2. Qed.

Lemma read_meminfo_quiet s :
    read_meminfo env s =
    mkResult (match meminfo env (nmem s) with
              | Some lines => Normal lines
              | None => Raised OSError
              end) (tick_mem (tick_ops s)) [EvMeminfo].
Proof. unfold read_meminfo, bind. rewrite deliver_quiet by assumption. reflexivity. Qed.

Lemma write_scratch_quiet s :
    write_scratch env s =
    mkResult (if scratch_ok env (nscratch s) then Normal tt else Raised OSError)
             (tick_scratch (tick_ops s)) [EvScratch].
Proof. unfold write_scratch, bind. rewrite deliver_quiet by assumption. reflexivity. Qed.

  (** All that the predicate does when no signal arrives, by what it
      observes. *)
Lemma check_system_alive_runs s lines avail :
    meminfo env (nmem s) = Some lines ->
    parse_meminfo lines = Some avail ->
    check_system_alive env s =
    if (avail <? 50000)%Z then
      mkResult (Normal false) (after_check 2 0 0 s) [EvMeminfo; EvPrint (MsgLowMemory avail)]
    else if scratch_ok env (nscratch s) then
      if 5 <? clock env (S (nclock s)) - clock env (nclock s) then
        mkResult (Normal false) (after_check 5 2 1 s)
                 [EvMeminfo; EvScratch; EvPrint MsgDiskStuck]
      else mkResult (Normal true) (after_check 4 2 1 s) [EvMeminfo; EvScratch]
    else
      mkResult (Normal false) (after_check 4 1 1 s)
               [EvMeminfo; EvScratch; EvPrint MsgDiskWriteFailed].
Proof.
    intros Hmem Hparse. unfold parse_meminfo in Hparse.
    destruct (py_dict_from _ _) as [mem |] eqn:Hdict; [| discriminate].
    destruct (avail <? 50000)%Z eqn:Hlow;
      [| destruct (scratch_ok env (nscratch s)) eqn:Hw;
         [destruct (5 <? clock env (S (nclock s)) - clock env (nclock s)) eqn:Hslow |]];
      unfold check_system_alive.
    - step ltac:(rewrite read_meminfo_quiet, Hmem; reflexivity).
      step ltac:(unfold py_dict; rewrite Hdict; reflexivity).
      step ltac:(unfold py_int; rewrite Hparse; reflexivity).
      rewrite Hlow.
      step ltac:(apply print_quiet; assumption).
      all: reflexivity.
    - step ltac:(rewrite read_meminfo_quiet, Hmem; reflexivity).
      step ltac:(unfold py_dict; rewrite Hdict; reflexivity).
      step ltac:(unfold py_int; rewrite Hparse; reflexivity).
      rewrite Hlow.
      step idtac.
      { apply run_try_normal.
        step ltac:(apply time_time_quiet; assumption).
        step ltac:(rewrite write_scratch_quiet;
                   cbn [nscratch bump tick_clock tick_ops tick_mem];
                   rewrite Hw; reflexivity).
        step ltac:(apply time_time_quiet; assumption).
        window Hslow.
        step ltac:(apply print_quiet; assumption).
        all: reflexivity. }
      all: reflexivity.
    - step ltac:(rewrite read_meminfo_quiet, Hmem; reflexivity).
      step ltac:(unfold py_dict; rewrite Hdict; reflexivity).
      step ltac:(unfold py_int; rewrite Hparse; reflexivity).
      rewrite Hlow.
      step idtac.
      { apply run_try_normal.
        step ltac:(apply time_time_quiet; assumption).
        step ltac:(rewrite write_scratch_quiet;
                   cbn [nscratch bump tick_clock tick_ops tick_mem];
                   rewrite Hw; reflexivity).
        step ltac:(apply time_time_quiet; assumption).
        window Hslow.
        all: reflexivity. }
      all: reflexivity.
    - step ltac:(rewrite read_meminfo_quiet, Hmem; reflexivity).
      step ltac:(unfold py_dict; rewrite Hdict; reflexivity).
      step ltac:(unfold py_int; rewrite Hparse; reflexivity).
      rewrite Hlow.
      step idtac.
      { eapply run_try_raised.
        - step ltac:(apply time_time_quiet; assumption).
          apply run_bind_raised.
          rewrite write_scratch_quiet.
          cbn [nscratch bump tick_clock tick_ops tick_mem].
          rewrite Hw. reflexivity.
          all: reflexivity.
        - step ltac:(apply print_quiet; assumption).
          all: reflexivity.
        - reflexivity. }
      all: reflexivity.
Qed.

Lemma reference_round_healthy self ft fs s lines avail :
    (forall k, dev_ok env k = true) ->
    sleep_error (interval self) = None ->
    fd_open s = true ->
    meminfo env (nmem s) = Some lines ->
    parse_meminfo lines = Some avail ->
    (50000 <= avail)%Z ->
    scratch_ok env (nscratch s) = true ->
    (5 <? clock env (S (nclock s)) - clock env (nclock s)) = false ->
    iteration self (Some check_system_alive) ft (Monitoring fs) env s
    = mkResult (Normal (Monitoring None)) (bump 3 0 1 0 (after_check 4 2 1 s))
               [EvMeminfo; EvScratch; EvWrite "1"; EvFlush; EvSleep (interval self)].
Proof.
    intros Hdev Hsleep Hfd Hmem Hparse Havail Hw Hfast. cbn [iteration].
    apply (monitor_healthy env quiet Hdev self (Some check_system_alive) ft fs s
             (after_check 4 2 1 s) [EvMeminfo; EvScratch]); [exact Hsleep | | exact Hfd].
    cbn [health_test].
    rewrite (check_system_alive_runs s lines avail Hmem Hparse).
    apply Z.leb_le in Havail. rewrite Z.leb_antisym in Havail.
    apply negb_true_iff in Havail. now rewrite Havail, Hw, Hfast.
Qed.
End Reference.

(** ** Calls made while SIGTERM is still to come *)

Lemma stop_raises env s : exists e, outcome (_stop env s) = Raised e.
Proof.
  unfold _stop, bind. destruct (outcome (raw_fd_write "V" env s)); cbn; [| eauto].
  destruct (outcome (raw_fd_close env _)); cbn; eauto.
Qed.

Section Pending.
Variable env : Env.

Lemma pending_weaken b s past : pending env (S b) s past -> pending env b s past.
Proof. intros [H1 H2]. split; [lia | exact H2]. Qed.

Lemma pending_deliver b : hoare env (pending env b) (pending env (S b)) anyhow anything deliver.
Proof.
  intros s past [Hb Hk]. unfold deliver.
  destruct (signal_due env s) eqn:Hdue.
  - destruct (handler s); [| exact I].
    destruct (stop_raises env (tick_ops s)) as [e ->]. exact I.
  - unfold pending. cbn. split; [| exact I]. split; [lia |].
    intros k Hsig. specialize (Hk k Hsig).
    unfold signal_due in Hdue. rewrite Hsig in Hdue. apply Nat.eqb_neq in Hdue. lia.
Qed.

(** A call makes progress when what follows the delivery leaves the
    count of calls alone. *)
Lemma pending_call {A} (raw : M A) b :
  (forall s, nops (final (raw env s)) = nops s) ->
  hoare env (pending env b) (pending env (S b)) anyhow anything (deliver ;; raw).
Proof.
  intros Hraw. eapply hoare_bind; [apply pending_deliver | intros _ _].
  intros s past [Hb Hk].
  destruct (outcome (raw env s)); [| exact I].
  unfold pending. rewrite Hraw. split; [auto | exact I].
Qed.

Lemma pending_stay {A} (m : M A) b :
  hoare env (pending env b) (pending env (S b)) anyhow anything m ->
  triple env (pending env b) anyhow anything m.
Proof.
  intros H s past Hp. specialize (H s past Hp).
  destruct (outcome (m env s)); [| exact I].
  split; [now apply pending_weaken | exact I].
Qed.

Lemma pending_time_time b :
  hoare env (pending env b) (pending env (S b)) anyhow anything time_time.
Proof. apply pending_call. reflexivity. Qed.

Lemma pending_time_sleep d b :
  hoare env (pending env b) (pending env (S b)) anyhow anything (time_sleep d).
Proof. apply pending_call. intros s. now destruct (sleep_error d). Qed.

Lemma pending_print m b :
  hoare env (pending env b) (pending env (S b)) anyhow anything (print m).
Proof. apply pending_call. reflexivity. Qed.

Lemma pending_fd_write data b :
  hoare env (pending env b) (pending env (S b)) anyhow anything (fd_write data).
Proof.
  apply pending_call. intros s. unfold raw_fd_write. now destruct (fd_open s).
Qed.

Lemma pending_fd_flush b :
  hoare env (pending env b) (pending env (S b)) anyhow anything fd_flush.
Proof.
  apply pending_call. intros s. unfold raw_fd_flush. now destruct (fd_open s).
Qed.

Lemma pending_external_check b :
  hoare env (pending env b) (pending env (S b)) anyhow anything external_check.
Proof. apply pending_call. reflexivity. Qed.

Lemma pending_feed self b :
  hoare env (pending env b) (pending env (S b)) anyhow anything (feed self).
Proof.
  eapply hoare_bind; [apply pending_fd_write | intros _ _].
  apply pending_stay, pending_fd_flush.
Qed.

Lemma pending_ret {A} (a : A) b :
  hoare env (pending env b) (pending env b) anyhow anything (ret a).
Proof. now apply hoare_ret. Qed.

Lemma pending_int x b : triple env (pending env b) anyhow anything (py_int_of_float x).
Proof. apply triple_int_raises. intros e s past _. exact I. Qed.

Lemma pending_health_test hc b :
  hc = None \/ hc = Some external_check ->
  triple env (pending env b) anyhow anything (health_test hc).
Proof.
  intros [-> | ->]; cbn [health_test];
    [now apply triple_ret | apply pending_stay, pending_external_check].
Qed.

(** Every iteration that ends makes at least one call. *)
Lemma pending_iteration self hc ft p b :
  hc = None \/ hc = Some external_check ->
  hoare env (pending env b) (pending env (S b)) anyhow anything (iteration self hc ft p).
Proof.
  intros Hhc. destruct p as [end_time | fs]; cbn [iteration].
  - unfold startup_iteration.
    eapply hoare_bind; [apply pending_time_time | intros now _].
    destruct (now <? end_time).
    + eapply triple_bind; [apply pending_stay, pending_feed | intros _ _].
      eapply triple_bind; [apply pending_stay, pending_time_sleep | intros _ _].
      now apply triple_ret.
    + eapply triple_bind; [apply pending_stay, pending_print | intros _ _].
      now apply triple_ret.
  - unfold monitor_iteration.
    eapply hoare_bind; [apply pending_health_test, Hhc | intros healthy _].
    eapply hoare_bind with (mid := pending env b) (QA := anything).
    + destruct healthy.
      * eapply triple_bind; [apply pending_stay, pending_feed | intros _ _].
        now apply triple_ret.
      * eapply triple_bind with (QA := anything);
          [destruct fs; [now apply triple_ret | apply pending_stay, pending_time_time]
          | intros start _].
        eapply triple_bind; [apply pending_stay, pending_time_time | intros now _].
        cbv zeta.
        eapply triple_bind; [apply pending_int | intros seconds _].
        eapply triple_bind; [apply pending_stay, pending_print | intros _ _].
        eapply triple_bind with (QA := anything); [| intros _ _; now apply triple_ret].
        destruct (_ <? _); [apply pending_stay, pending_feed | now apply triple_ret].
    + intros fs' _.
      eapply hoare_bind; [apply pending_time_sleep | intros _ _]. apply pending_ret.
Qed.

Lemma pending_loop self hc ft n : forall p b,
  hc = None \/ hc = Some external_check ->
  hoare env (pending env b) (pending env (n + b)) anyhow anything (loop self hc ft n p).
Proof.
  induction n as [| n IH]; intros p b Hhc; cbn [loop].
  - apply pending_ret.
  - eapply hoare_bind; [now apply pending_iteration | intros q _].
    replace (S n + b)%nat with (n + S b)%nat by lia. now apply IH.
Qed.
End Pending.

(** ** The loop under the reference predicate, without a signal *)
Section Steady.
Variable env : Env.
Hypothesis quiet : sigterm_at env = None.
Hypothesis device : forall k, dev_ok env k = true.
Hypothesis readable :
  forall k, exists lines avail, meminfo env k = Some lines /\ parse_meminfo lines = Some avail.
Hypothesis numbers : finite_differences env.

Lemma steady_time_time : triple env handle_open never (reading env) time_time.
Proof.
  intros s past H. rewrite time_time_quiet by assumption. cbn.
  split; [exact H | now exists (nclock s)].
Qed.

Lemma steady_time_sleep d :
  sleep_error d = None -> triple env handle_open never anything (time_sleep d).
Proof.
  intros Hd s past H. rewrite time_sleep_quiet by assumption.
  split; [exact H | exact I].
Qed.

Lemma steady_print m : triple env handle_open never anything (print m).
Proof.
  intros s past H. rewrite print_quiet by assumption. split; [exact H | exact I].
Qed.

Lemma steady_feed_write : triple env handle_open never anything (fd_write "1").
Proof.
  intros s past H. unfold fd_write, bind. rewrite deliver_quiet by assumption.
  unfold handle_open in *. cbn. unfold raw_fd_write. cbn. rewrite H.
  split; [exact H | exact I].
Qed.

Lemma steady_fd_flush : triple env handle_open never anything fd_flush.
Proof.
  intros s past H. unfold fd_flush, bind. rewrite deliver_quiet by assumption.
  unfold handle_open in *. cbn. unfold raw_fd_flush. cbn. rewrite H, device.
  split; [exact H | exact I].
Qed.

Lemma steady_int a b :
  reading env a -> reading env b ->
  triple env handle_open never anything (py_int_of_float (b - a)).
Proof.
  intros [i ->] [j ->] s past H.
  rewrite py_int_of_float_finite by apply numbers.
  cbn. rewrite app_nil_r. split; [exact H | exact I].
Qed.

Lemma steady_check_system_alive :
  triple env handle_open never anything (health_test (Some check_system_alive)).
Proof.
  intros s past H. cbn [health_test].
  destruct (readable (nmem s)) as (lines & avail & Hmem & Hparse).
  rewrite (check_system_alive_runs env quiet s lines avail Hmem Hparse).
  destruct (avail <? 50000)%Z; [| destruct (scratch_ok env (nscratch s));
                                  [destruct (5 <? _) |]];
    (split; [exact H | exact I]).
Qed.

Lemma steady_loop self ft n p :
  sleep_error (interval self) = None ->
  window_read env p ->
  triple env handle_open never (window_read env)
         (loop self (Some check_system_alive) ft n p).
Proof.
  intros Hsleep Hp.
  apply triple_loop;
    [ apply steady_time_time | now apply steady_time_sleep | apply steady_print
    | apply steady_feed_write | apply steady_fd_flush | apply steady_int
    | apply steady_check_system_alive | exact Hp ].
Qed.
End Steady.

(** ** Inverting a run *)

Lemma deliver_not_due env s :
  signal_due env s = false -> deliver env s = mkResult (Normal tt) (tick_ops s) [].
Proof. intros H. unfold deliver. now rewrite H. Qed.

Lemma deliver_killed env s :
  signal_due env s = true -> handler s = false ->
  deliver env s = mkResult (Raised KilledBySignal) (tick_ops s) [].
Proof. intros H Hh. unfold deliver. now rewrite H, Hh. Qed.

Lemma deliver_handled env s :
  signal_due env s = true ->
  handler s = true ->
  fd_open s = true ->
  dev_ok env (ndev s) = true ->
  deliver env s
  = mkResult (Raised (SystemExit 0)) (set_fd_open false (tick_dev (tick_ops s)))
             [EvWrite "V"; EvClose].
Proof.
  intros Hdue Hh Hfd Hc. unfold deliver. rewrite Hdue, Hh.
  destruct s as [o c d p m sc fo h]. cbn in *. subst fo.
  unfold _stop, bind, raw_fd_write, raw_fd_close, sys_exit, raise.
  cbn. rewrite Hc. reflexivity.
Qed.

Lemma time_time_not_due env s :
  signal_due env s = false ->
  time_time env s = mkResult (Normal (clock env (nclock s))) (tick_clock (tick_ops s)) [].
Proof. intros H. unfold time_time, bind. now rewrite deliver_not_due. Qed.

Lemma print_not_due env m s :
  signal_due env s = false ->
  print m env s = mkResult (Normal tt) (tick_ops s) [EvPrint m].
Proof. intros H. unfold print, bind. now rewrite deliver_not_due. Qed.

Lemma read_meminfo_not_due env s lines :
  signal_due env s = false ->
  meminfo env (nmem s) = Some lines ->
  read_meminfo env s = mkResult (Normal lines) (tick_mem (tick_ops s)) [EvMeminfo].
Proof.
  intros H Hmem. unfold read_meminfo, bind. rewrite deliver_not_due by assumption.
  cbn. now rewrite Hmem.
Qed.

Lemma write_scratch_not_due env s :
  signal_due env s = false ->
  scratch_ok env (nscratch s) = true ->
  write_scratch env s = mkResult (Normal tt) (tick_scratch (tick_ops s)) [EvScratch].
Proof.
  intros H Hw. unfold write_scratch, bind. rewrite deliver_not_due by assumption.
  cbn. now rewrite Hw.
Qed.

(** Whether SIGTERM is due, from its date. *)
Ltac due Hsig :=
  unfold signal_due; rewrite Hsig; cbn;
  first [ apply Nat.eqb_eq; lia | apply Nat.eqb_neq; lia ].

(** ** The concrete clocks *)

(** A property of the readings of a clock that stands still from its
    reading [N] on holds of all of them when it holds of the first. *)
Lemma all_readings (f : nat -> float) (N : nat) (P : float -> bool) :
  (forall k, f k = f (Nat.min k N)) ->
  forallb (fun k => P (f k)) (seq 0 (S N)) = true ->
  forall k, P (f k) = true.
Proof.
  intros Hsat Hall k. rewrite Hsat.
  apply (proj1 (forallb_forall _ _) Hall). apply in_seq. lia.
Qed.

Lemma all_pairs_of_readings (f : nat -> float) (N : nat) (P : float -> float -> bool) :
  (forall k, f k = f (Nat.min k N)) ->
  forallb (fun a => forallb (fun b => P (f a) (f b)) (seq 0 (S N))) (seq 0 (S N)) = true ->
  forall a b, P (f a) (f b) = true.
Proof.
  intros Hsat Hall a b. rewrite (Hsat a), (Hsat b).
  pose proof (proj1 (forallb_forall _ _) Hall (Nat.min a N)) as Ha.
  cbv beta in Ha.
  apply (proj1 (forallb_forall _ _) (Ha ltac:(apply in_seq; lia))). apply in_seq. lia.
Qed.

Lemma every_ten_seconds_stands_still k :
  every_ten_seconds k = every_ten_seconds (Nat.min k 251).
Proof. unfold every_ten_seconds. do 2 f_equal. lia. Qed.

Lemma every_ten_seconds_differences a b :
  finite (every_ten_seconds b - every_ten_seconds a) = true.
Proof.
  apply (all_pairs_of_readings every_ten_seconds 251 (fun x y => finite (y - x))).
  - apply every_ten_seconds_stands_still.
  - vm_compute. reflexivity.
Qed.

Lemma machine_differences reply : finite_differences (machine reply).
Proof. intros a b. apply every_ten_seconds_differences. Qed.

(** An offset of an hour either way is absorbed exactly by the sums and
    differences that the program computes on this clock. *)
Lemma every_ten_seconds_alike (d : float) :
  forallb (fun a =>
    forallb (fun b =>
      Leibniz.eqb ((every_ten_seconds b + d) - (every_ten_seconds a + d))
                  (every_ten_seconds b - every_ten_seconds a)
      && Bool.eqb (every_ten_seconds b + d <? (every_ten_seconds a + d) + 300)
                  (every_ten_seconds b <? every_ten_seconds a + 300))
      (seq 0 252)) (seq 0 252) = true ->
  alike 300 every_ten_seconds (fun k => every_ten_seconds k + d).
Proof.
  intros Hall.
  assert (H : forall a b,
             Leibniz.eqb ((every_ten_seconds b + d) - (every_ten_seconds a + d))
                         (every_ten_seconds b - every_ten_seconds a)
             && Bool.eqb (every_ten_seconds b + d <? (every_ten_seconds a + d) + 300)
                         (every_ten_seconds b <? every_ten_seconds a + 300) = true).
  { apply (all_pairs_of_readings every_ten_seconds 251
             (fun x y => Leibniz.eqb ((y + d) - (x + d)) (y - x)
                         && Bool.eqb (y + d <? (x + d) + 300) (y <? x + 300))).
    - apply every_ten_seconds_stands_still.
    - exact Hall. }
  split; intros a b; specialize (H a b); apply andb_true_iff in H; destruct H as [H1 H2].
  - now apply Leibniz.eqb_spec.
  - now apply Bool.eqb_prop.
Qed.

Lemma healthy_machine_fast j :
  (5 <? clock healthy_machine (S (2 * j + 0)) - clock healthy_machine (2 * j + 0)) = false.
Proof.
  cbn [healthy_machine clock].
  replace (S (2 * j + 0) / 2)%nat with j.
  - replace ((2 * j + 0) / 2)%nat with j.
    + apply negb_true_iff.
      apply (all_readings (fun k => 10 * float_of_nat (Nat.min k 250)) 250
               (fun x => negb (5 <? x - x))).
      * intros k. do 2 f_equal. lia.
      * vm_compute. reflexivity.
    + rewrite Nat.add_0_r, Nat.mul_comm, Nat.div_mul; lia.
  - rewrite Nat.add_0_r. symmetry.
    replace (S (2 * j)) with (1 + j * 2)%nat by lia.
    rewrite Nat.div_add by lia. reflexivity.
Qed.

(** ** The text of /proc/meminfo *)

Lemma dict_get_set d k v k' default :
  dict_get (dict_set d k v) k' default
  = if String.eqb k k' then v else dict_get d k' default.
Proof.
  induction d as [| [k0 v0] d IH]; cbn.
  - reflexivity.
  - destruct (String.eqb_spec k0 k) as [-> | Hne]; cbn.
    + destruct (String.eqb k k'); reflexivity.
    + rewrite IH. destruct (String.eqb_spec k0 k') as [-> | Hne'].
      * destruct (String.eqb_spec k k'); [congruence | reflexivity].
      * reflexivity.
Qed.

Lemma py_dict_from_words lines : forall d,
  Forall (fun line => (2 <= List.length (split line))%nat) lines ->
  exists d',
    py_dict_from d (map (fun line => firstn 2 (split line)) lines) = Some d' /\
    forall key default,
      dict_get d' key default
      = fold_left (fun found line =>
                     match split line with
                     | k :: v :: _ => if String.eqb k key then v else found
                     | _ => found
                     end)
                  lines (dict_get d key default).
Proof.
  induction lines as [| line lines IH]; intros d Hall.
  - exists d. split; reflexivity.
  - inversion Hall as [| ? ? Hline Hrest]; subst.
    destruct (split line) as [| k [| v more]] eqn:Hsplit; cbn in Hline; try lia.
    destruct (IH (dict_set d k v) Hrest) as (d' & Hd' & Hget).
    exists d'. cbn [map]. rewrite Hsplit. cbn [firstn py_dict_from].
    split; [exact Hd' |]. intros key default.
    cbn [fold_left]. rewrite Hsplit, Hget, dict_get_set. reflexivity.
Qed.

Lemma py_dict_from_short lines : forall d,
  Exists (fun line => (List.length (split line) < 2)%nat) lines ->
  py_dict_from d (map (fun line => firstn 2 (split line)) lines) = None.
Proof.
  induction lines as [| line lines IH]; intros d Hex;
    inversion Hex as [? ? Hline | ? ? Hrest]; subst; cbn [map].
  - destruct (split line) as [| k [| v more]]; cbn in Hline; try lia; reflexivity.
  - destruct (split line) as [| k [| v more]]; cbn [firstn py_dict_from]; try reflexivity.
    now apply IH.
Qed.

Lemma string_app_assoc (a b c : string) : ((a ++ b) ++ c = a ++ (b ++ c))%string.
Proof. induction a as [| x a IH]; cbn; [reflexivity | now rewrite IH]. Qed.

Lemma string_app_nil_r (a : string) : (a ++ "")%string = a.
Proof. induction a as [| x a IH]; cbn; [reflexivity | now rewrite IH]. Qed.

Lemma split_from_word w : forall acc rest,
  no_space w = true ->
  split_from acc (w ++ rest) = split_from (acc ++ w) rest.
Proof.
  induction w as [| c w IH]; intros acc rest Hw; cbn.
  - now rewrite string_app_nil_r.
  - cbn in Hw. apply andb_true_iff in Hw. destruct Hw as [Hc Hw].
    apply negb_true_iff in Hc. rewrite Hc, IH by exact Hw.
    now rewrite string_app_assoc.
Qed.

Lemma split_from_spaces n rest :
  split_from EmptyString (spaces n ++ rest) = split_from EmptyString rest.
Proof. induction n as [| n IH]; [reflexivity | exact IH]. Qed.

Lemma digits_no_space d :
  no_space (DecimalString.NilEmpty.string_of_uint d) = true.
Proof. induction d; cbn; auto. Qed.

Lemma to_uint_digit n :
  exists c rest, decimal n = String c rest.
Proof.
  unfold decimal.
  assert (H : Nat.to_uint n = Decimal.unorm (Nat.to_uint n)).
  { rewrite <- DecimalNat.Unsigned.to_of. now rewrite DecimalNat.Unsigned.of_to. }
  rewrite H. unfold Decimal.unorm.
  destruct (Decimal.nzhead (Nat.to_uint n)); cbn; eauto.
Qed.

Lemma split_meminfo_line name pad kB :
  no_space name = true ->
  split (meminfo_line name pad kB) = [(name ++ ":")%string; decimal kB; "kB"%string].
Proof.
  intros Hname. unfold split, meminfo_line.
  rewrite split_from_word by exact Hname. cbn [append].
  cbn [split_from]. change (is_space ":") with false. cbv iota.
  destruct (name ++ ":")%string as [| x w] eqn:Hkey.
  { destruct name; discriminate Hkey. }
  cbn [spaces append split_from]. change (is_space " ") with true. cbv iota.
  rewrite split_from_spaces, split_from_word by apply digits_no_space.
  cbn [append]. destruct (to_uint_digit kB) as (c & rest & ->).
  reflexivity.
Qed.

Lemma parse_digits_uint d : forall acc,
  parse_digits (Z.of_nat acc) true (DecimalString.NilEmpty.string_of_uint d)
  = Some (Z.of_nat (Nat.of_uint_acc d acc)).
Proof.
  induction d; intros acc; cbn [DecimalString.NilEmpty.string_of_uint Nat.of_uint_acc];
    [reflexivity | ..];
    cbn [parse_digits];
    match goal with
    | |- context [digit_of ?c] =>
        let v := eval vm_compute in (digit_of c) in change (digit_of c) with v
    end;
    cbv iota; rewrite <- IHd; f_equal; rewrite Nat.tail_mul_spec; lia.
Qed.

Lemma parse_int_decimal n : parse_int (decimal n) = Some (Z.of_nat n).
Proof.
  assert (Hacc : forall d, d <> Decimal.Nil ->
            parse_int (DecimalString.NilEmpty.string_of_uint d)
            = Some (Z.of_nat (Nat.of_uint d))).
  { intros d Hd. unfold Nat.of_uint.
    rewrite <- (parse_digits_uint d 0).
    destruct d; [congruence | ..]; reflexivity. }
  unfold decimal.
  assert (Hn : Nat.to_uint n <> Decimal.Nil).
  { destruct (to_uint_digit n) as (c & rest & H). unfold decimal in H.
    intros E. rewrite E in H. discriminate H. }
  rewrite (Hacc _ Hn). now rewrite DecimalNat.Unsigned.of_to.
Qed.

Lemma key_eqb name :
  String.eqb (name ++ ":") "MemAvailable:" = String.eqb name "MemAvailable".
Proof.
  assert (Hinj : forall a b : string, (a ++ ":" = b ++ ":")%string -> a = b).
  { induction a as [| x a IH]; intros [| y b] H; cbn in H.
    - reflexivity.
    - injection H as _ H. destruct b; discriminate H.
    - injection H as _ H. destruct a; discriminate H.
    - injection H as -> H. f_equal. now apply IH. }
  destruct (String.eqb_spec name "MemAvailable") as [-> | Hne].
  - reflexivity.
  - apply String.eqb_neq. intros H. apply Hne.
    apply Hinj. exact H.
Qed.

Lemma meminfo_value_render entries : forall found,
  Forall (fun entry => no_space (fst (fst entry)) = true) entries ->
  fold_left (fun found line =>
               match split line with
               | k :: v :: _ => if String.eqb k "MemAvailable:" then v else found
               | _ => found
               end)
            (render entries) (decimal found)
  = decimal (fold_left (fun found entry =>
                          match entry with
                          | (name, _, kB) =>
                              if String.eqb name "MemAvailable" then kB else found
                          end)
                       entries found).
Proof.
  induction entries as [| [[name pad] kB] entries IH]; intros found Hall;
    [reflexivity |].
  inversion Hall as [| ? ? Hname Hrest]; subst. cbn in Hname.
  cbn [render map fold_left]. rewrite split_meminfo_line by exact Hname.
  rewrite key_eqb. fold (render entries).
  destruct (String.eqb name "MemAvailable"); now apply IH.
Qed.

(** * The claims *)

(** C1.  In the Monitoring phase, let the window be closed and let the
    health predicate answer unhealthy from this round on.  [T] is the time
    read when the window opens, [t] the time read in round [j] of the
    streak, and the elapsed time is [t - T] as the program computes it, a
    double.  While it is below [fail_timeout], round [j] feeds the device:
    it writes the keep-alive byte and flushes.  Once it is not, round [j]
    makes no call on the device at all.  Either way the round logs the
    elapsed seconds and sleeps. *)
Theorem C1_unhealthy_streak_feeds_until_timeout :
  forall (self : WDT) (fail_timeout : float) (env : Env) (s : State) (n j : nat),
    sigterm_at env = None ->
    (forall k, dev_ok env k = true) ->
    fd_open s = true ->
    sleep_error (interval self) = None ->
    (forall k, (nprobe s <= k)%nat -> probe env k = Returns false) ->
    (j < n)%nat ->
    let T := clock env (nclock s) in
    (forall i, (i <= j)%nat -> finite (clock env (S i + nclock s) - T) = true) ->
    let t := clock env (S j + nclock s) in
    let round := nth_error (ticks self (Some external_check) fail_timeout n
                                  (Monitoring None) env s) j in
    let line := EvPrint (MsgFailing (truncate (t - T)) fail_timeout) in
    ((t - T <? fail_timeout) = true ->
     round = Some [EvProbe; line; EvWrite "1"; EvFlush; EvSleep (interval self)]) /\
    ((t - T <? fail_timeout) = false ->
     round = Some [EvProbe; line; EvSleep (interval self)]).
Proof.
  intros self ft env s n j Hsig Hdev Hfd Hsleep Hp Hj T Hfin t round line.
  subst round line.
  rewrite (opening_rounds env Hsig Hdev self ft n s j Hsleep Hfd Hp Hfin Hj).
  unfold unhealthy_round. fold T. fold t.
  split; intros ->; reflexivity.
Qed.

(** C1 at the numbers of the specification: interval 10, fail_timeout 600.
    The round 590 seconds into the streak feeds, the round at 600 seconds
    does not. *)
Lemma C1_witness :
  nth_error (ticks wdt10 (Some external_check) 600 61 (Monitoring None)
                   always_unhealthy started) 59
  = Some [EvProbe; EvPrint (MsgFailing 590 600); EvWrite "1"; EvFlush; EvSleep 10] /\
  nth_error (ticks wdt10 (Some external_check) 600 61 (Monitoring None)
                   always_unhealthy started) 60
  = Some [EvProbe; EvPrint (MsgFailing 600 600); EvSleep 10].
Proof.
  split.
  - refine (proj1 (C1_unhealthy_streak_feeds_until_timeout
                     wdt10 600 always_unhealthy started 61 59 _ _ _ _ _ _ _) _).
    + reflexivity.
    + intros k. reflexivity.
    + reflexivity.
    + reflexivity.
    + intros k _. reflexivity.
    + lia.
    + intros i _. apply every_ten_seconds_differences.
    + vm_compute. reflexivity.
  - refine (proj2 (C1_unhealthy_streak_feeds_until_timeout
                     wdt10 600 always_unhealthy started 61 60 _ _ _ _ _ _ _) _).
    + reflexivity.
    + intros k. reflexivity.
    + reflexivity.
    + reflexivity.
    + intros k _. reflexivity.
    + lia.
    + intros i _. apply every_ten_seconds_differences.
    + vm_compute. reflexivity.
Defined.

(** C2, as the code has it.  With an interval that [time.sleep] accepts, a
    predicate that answers unhealthy on every call never ends the loop, and
    no round feeds once the elapsed time that the program computes is not
    below [fail_timeout].  A predicate that raises is not caught by [run]:
    the exception leaves the loop at that call, before any feed of that
    round, and no later round runs. *)
Theorem C2_only_a_returning_predicate_counts_as_unhealthy :
  forall (self : WDT) (fail_timeout : float) (env : Env) (s : State) (n : nat),
    sigterm_at env = None ->
    (forall k, dev_ok env k = true) ->
    fd_open s = true ->
    ((forall k, (nprobe s <= k)%nat -> probe env k = Returns false) ->
     sleep_error (interval self) = None ->
     (forall i, (i < n)%nat ->
        finite (clock env (S i + nclock s) - clock env (nclock s)) = true) ->
     (exists p, outcome (loop self (Some external_check) fail_timeout n
                              (Monitoring None) env s) = Normal p) /\
     forall j, (j < n)%nat ->
       (clock env (S j + nclock s) - clock env (nclock s) <? fail_timeout) = false ->
       nth_error (decisions self (Some external_check) fail_timeout n
                            (Monitoring None) env s) j = Some false) /\
    (probe env (nprobe s) = Raises ->
     forall fail_start,
       loop self (Some external_check) fail_timeout (S n) (Monitoring fail_start) env s
       = mkResult (Raised ProbeError) (bump 1 0 0 1 s) [EvProbe]).
Proof.
  intros self ft env s n Hsig Hdev Hfd. split.
  - intros Hp Hsleep Hfin. split.
    + eexists. now apply opening_loop.
    + intros j Hj Hlate.
      rewrite (opening_decisions env Hsig Hdev self ft n s j Hsleep Hfd Hp); [| | exact Hj].
      * now rewrite Hlate.
      * intros i Hi. apply Hfin. lia.
  - intros Hp fs. apply (loop_raised env).
    cbn [iteration]. now apply monitor_raises.
Qed.

(** C2 as stated fails: with a predicate that raises on every call, [run]
    feeds through the grace period, enters the Monitoring phase and ends
    with the exception of the first call of the predicate; it does not go
    on as if the predicate had answered unhealthy. *)
Lemma C2_raising_predicate_ends_the_loop :
  run wdt10 (Some external_check) 20 600 10 always_raising started
  = mkResult (Raised ProbeError) (mkState 13 4 2 1 0 0 true true)
             [EvPrint (MsgStartupDelay 20);
              EvWrite "1"; EvFlush; EvSleep 10;
              EvWrite "1"; EvFlush; EvSleep 10;
              EvPrint MsgMonitoring; EvProbe].
Proof. vm_compute. reflexivity. Qed.

Lemma C2_witness :
  ((exists p, outcome (loop wdt10 (Some external_check) 600 70 (Monitoring None)
                            always_unhealthy started) = Normal p) /\
   nth_error (decisions wdt10 (Some external_check) 600 70 (Monitoring None)
                        always_unhealthy started) 60 = Some false) /\
  loop wdt10 (Some external_check) 600 70 (Monitoring None) always_raising started
  = mkResult (Raised ProbeError) (bump 1 0 0 1 started) [EvProbe].
Proof.
  split.
  - destruct (proj1 (C2_only_a_returning_predicate_counts_as_unhealthy
                       wdt10 600 always_unhealthy started 70
                       eq_refl (fun _ => eq_refl) eq_refl)
                (fun _ _ => eq_refl) eq_refl
                (fun i _ => every_ten_seconds_differences _ _)) as [Hruns Hstops].
    split; [exact Hruns |].
    apply Hstops; [lia | vm_compute; reflexivity].
  - exact (proj2 (C2_only_a_returning_predicate_counts_as_unhealthy
                    wdt10 600 always_raising started 69
                    eq_refl (fun _ => eq_refl) eq_refl)
             eq_refl None).
Defined.

(** C3 fails in [main].  SIGTERM arrives while the reference predicate is
    inside its [try]: the handler writes the stop byte and closes the
    device, but its [SystemExit] is caught by the bare [except] of the
    predicate, which answers unhealthy.  [run] then feeds the closed
    handle, and the process dies of the [ValueError], not with status 0. *)
Theorem C3_sigterm_inside_check_system_alive_is_swallowed :
  main 2 sigterm_during_check initial
  = mkResult (Raised ValueError) (mkState 15 5 1 0 1 0 false true)
             [EvPrint MsgBoot; EvPrint (MsgStartupDelay 300); EvPrint MsgMonitoring;
              EvMeminfo; EvWrite "V"; EvClose; EvPrint MsgDiskWriteFailed;
              EvPrint (MsgFailing 0 600); EvWrite "1"] /\
  exit_status ValueError <> 0%Z.
Proof. split; [vm_compute; reflexivity | discriminate]. Qed.

(** C4, as the code has it.  The grace period.  [t0] is the time read on
    entry of [run] and [end_time] the double [t0 + startup_delay] that the
    program computes.  As long as the readings stay below [end_time], each
    round is one feed (write and flush) followed by one sleep of
    [interval] seconds, and nothing else: the health predicate, whatever
    computation it is, is not called.  Two feeds in a row are thus
    separated by a whole sleep of [interval] seconds. *)
Theorem C4_startup_feeds_without_health_check :
  forall (self : WDT) (hc : option (M bool)) (startup_delay fail_timeout : float)
         (env : Env) (s : State) (n j : nat),
    sigterm_at env = None ->
    (forall k, dev_ok env k = true) ->
    fd_open s = true ->
    sleep_error (interval self) = None ->
    (j < n)%nat ->
    let t0 := clock env (nclock s) in
    let end_time := t0 + startup_delay in
    (forall i, (i <= j)%nat -> (clock env (S i + nclock s) <? end_time) = true) ->
    exists s1,
      run_entry startup_delay env s
      = mkResult (Normal (Starting end_time)) s1
                 [EvPrint (MsgStartupDelay startup_delay)] /\
      nth_error (ticks self hc fail_timeout n (Starting end_time) env s1) j
      = Some [EvWrite "1"; EvFlush; EvSleep (interval self)].
Proof.
  intros self hc sd ft env s n j Hsig Hdev Hfd Hsleep Hj t0 end_time Hearly.
  exists (bump 2 1 0 0 s). split; [apply run_entry_quiet; assumption |].
  apply startup_rounds; auto.
  intros i Hi. specialize (Hearly i Hi). cbn [bump nclock].
  replace (i + (1 + nclock s))%nat with (S i + nclock s)%nat by lia.
  exact Hearly.
Qed.

(** C4 as stated fails: the loop sleeps between two feeds, and nothing
    bounds how late [time.sleep] returns, so that the device is not fed
    once every [interval] seconds.  On a machine where the second
    [time.sleep(10)] returns fifteen seconds late, each of the first three
    rounds of the grace period feeds once.  The second round lies between
    two readings of the clock that are 25 seconds apart, more than twice
    the interval: before its one feed or after it, more than 10 seconds
    pass without a feed, well inside the grace period of 300 seconds. *)
Lemma C4_feeds_are_more_than_interval_apart :
  run wdt10 (Some external_check) 300 600 3 late_wakeups started
  = mkResult (Normal (Starting 1300)) (mkState 14 4 3 0 0 0 true true)
             [EvPrint (MsgStartupDelay 300);
              EvWrite "1"; EvFlush; EvSleep 10;
              EvWrite "1"; EvFlush; EvSleep 10;
              EvWrite "1"; EvFlush; EvSleep 10] /\
  nth_error (ticks wdt10 (Some external_check) 600 3 (Starting 1300) late_wakeups
                   (mkState 2 1 0 0 0 0 true true)) 1
  = Some [EvWrite "1"; EvFlush; EvSleep 10] /\
  (2 * interval wdt10 <? clock late_wakeups 3 - clock late_wakeups 2) = true /\
  (clock late_wakeups 3 <? clock late_wakeups 0 + 300) = true.
Proof. repeat split; vm_compute; reflexivity. Qed.

Lemma C4_witness :
  exists s1,
    run_entry 25 always_raising started
    = mkResult (Normal (Starting (every_ten_seconds 0 + 25))) s1 [EvPrint (MsgStartupDelay 25)] /\
    nth_error (ticks wdt10 (Some external_check) 600 5
                     (Starting (every_ten_seconds 0 + 25)) always_raising s1) 2
    = Some [EvWrite "1"; EvFlush; EvSleep 10].
Proof.
  refine (C4_startup_feeds_without_health_check
            wdt10 (Some external_check) 25 600 always_raising started 5 2 _ _ _ _ _ _).
  - reflexivity.
  - intros k. reflexivity.
  - reflexivity.
  - reflexivity.
  - lia.
  - intros i Hi.
    destruct i as [| [| [| i]]]; [vm_compute; reflexivity .. | lia].
Defined.

(** C5.  A healthy round closes the fail window, whatever its state was.
    The unhealthy streak that follows opens a new window at its first
    reading [T'], and round [j] of it is decided by the age [t - T'] of
    that window alone, as the program computes it: below [fail_timeout]
    the round feeds (write and flush), otherwise it makes no call on the
    device. *)
Theorem C5_healthy_tick_clears_fail_window :
  forall (self : WDT) (fail_timeout : float) (env : Env) (s : State)
         (fail_start : option float) (n j : nat),
    sigterm_at env = None ->
    (forall k, dev_ok env k = true) ->
    fd_open s = true ->
    sleep_error (interval self) = None ->
    probe env (nprobe s) = Returns true ->
    (forall k, (nprobe s < k)%nat -> probe env k = Returns false) ->
    (j < n)%nat ->
    let T' := clock env (nclock s) in
    (forall i, (i <= j)%nat -> finite (clock env (S i + nclock s) - T') = true) ->
    let t := clock env (S j + nclock s) in
    let round := nth_error (ticks self (Some external_check) fail_timeout (S n)
                                  (Monitoring fail_start) env s) (S j) in
    let line := EvPrint (MsgFailing (truncate (t - T')) fail_timeout) in
    outcome (iteration self (Some external_check) fail_timeout (Monitoring fail_start) env s)
    = Normal (Monitoring None) /\
    ((t - T' <? fail_timeout) = true ->
     round = Some [EvProbe; line; EvWrite "1"; EvFlush; EvSleep (interval self)]) /\
    ((t - T' <? fail_timeout) = false ->
     round = Some [EvProbe; line; EvSleep (interval self)]).
Proof.
  intros self ft env s fs n j Hsig Hdev Hfd Hsleep Hgood Hbad Hj T' Hfin t round line.
  pose proof (healthy_iteration env Hsig Hdev self ft fs s Hsleep Hfd Hgood) as Hrun.
  split; [now rewrite Hrun |].
  assert (Hround : round = Some (unhealthy_round self ft T' t)).
  { subst round. cbn [ticks nth_error]. rewrite Hrun. cbn [outcome final].
    apply (opening_rounds env Hsig Hdev self ft n (bump 4 0 1 1 s) j); auto;
      try (intros k Hk; apply Hbad; cbn in Hk; lia). }
  rewrite Hround. subst line. unfold unhealthy_round.
  split; intros ->; reflexivity.
Qed.

(** C5 at the numbers of the specification: a window 590 seconds old, one
    healthy round, then a new streak.  The round 590 seconds into the new
    streak still feeds. *)
Lemma C5_witness :
  outcome (iteration wdt10 (Some external_check) 600 (Monitoring (Some (-590)))
                     healthy_once started) = Normal (Monitoring None) /\
  nth_error (ticks wdt10 (Some external_check) 600 62 (Monitoring (Some (-590)))
                   healthy_once started) 60
  = Some [EvProbe; EvPrint (MsgFailing 590 600); EvWrite "1"; EvFlush; EvSleep 10].
Proof.
  destruct (C5_healthy_tick_clears_fail_window
              wdt10 600 healthy_once started (Some (-590)) 61 59
              eq_refl (fun _ => eq_refl) eq_refl eq_refl eq_refl) as (Hclear & Hfed & _).
  - intros k Hk. destruct k as [| k]; [inversion Hk | reflexivity].
  - lia.
  - intros i _. apply every_ten_seconds_differences.
  - split; [exact Hclear |]. apply Hfed. vm_compute. reflexivity.
Defined.

(** C6.  Nothing catches the error of the device.  When [open] fails the
    program ends with that [OSError] before anything is written.  When
    device operation number [k] is the one to fail, the loop never gets
    past it: if it reaches it, it ends there with [OSError], the failed
    call being its last. *)
Theorem C6_device_failure_is_fatal :
  forall (env : Env),
    (open_ok env = false ->
     sigterm_at env = None ->
     forall n, main n env initial
               = mkResult (Raised OSError) (bump 2 0 0 0 initial) [EvPrint MsgBoot]) /\
    (forall (self : WDT) (hc : option (M bool)) (fail_timeout : float)
            (s : State) (n : nat) (p : Phase) (k : nat),
       hc = None \/ hc = Some external_check ->
       fd_open s = true ->
       (ndev s <= k)%nat ->
       dev_ok env k = false ->
       let r := loop self hc fail_timeout n p env s in
       (ndev (final r) <= S k)%nat /\
       (ndev (final r) = S k ->
        outcome r = Raised OSError /\
        exists before c, events r = before ++ [c] /\ is_device_call c = true)).
Proof.
  intros env. split.
  - intros Hopen Hsig n. unfold main.
    step ltac:(apply print_quiet; assumption).
    apply run_bind_raised. unfold __init__. apply run_bind_raised.
    unfold open_device, bind. rewrite deliver_quiet by assumption.
    cbn. rewrite Hopen. reflexivity.
    all: reflexivity.
  - intros self hc ft s n p k Hhc Hfd Hk Hbroken r.
    pose proof (fatal_loop env k Hbroken self hc ft n p Hhc s [] (conj Hfd Hk)) as H.
    fold r in H. cbn [app] in H.
    destruct (outcome r) as [p' | e].
    + destruct H as [[_ H] _]. split; [lia | intros E; lia].
    + destruct H as [H1 H2]. split; [exact H1 | intros E].
      destruct (H2 E) as (-> & Hlast). auto.
Qed.

Lemma C6_witness :
  main 3 no_device initial
  = mkResult (Raised OSError) (bump 2 0 0 0 initial) [EvPrint MsgBoot] /\
  outcome (loop wdt10 None 600 8 (Starting 25) device_breaks started) = Raised OSError.
Proof.
  split.
  - exact (proj1 (C6_device_failure_is_fatal no_device) eq_refl eq_refl 3%nat).
  - refine (proj1 (proj2 (proj2 (C6_device_failure_is_fatal device_breaks)
                            wdt10 None 600 started 8%nat (Starting 25) 4%nat
                            (or_introl eq_refl) eq_refl _ eq_refl) _)).
    + cbn. lia.
    + vm_compute. reflexivity.
Defined.

(** C7.  The loop has no way out of its own.  Take an interval that
    [time.sleep] accepts, a clock whose readings are numbers with
    differences that are numbers, a working device and a health predicate
    that returns.  After any number of iterations the program is still
    looping, unless SIGTERM was delivered and [_stop] ended the process
    with status 0.  In particular, once an unhealthy streak has outlived
    [fail_timeout], every further round still runs: it calls the
    predicate, prints the countdown line and sleeps, without feeding. *)
Theorem C7_loop_never_ends_by_itself :
  forall (self : WDT) (hc : option (M bool)) (fail_timeout : float)
         (env : Env) (s : State) (n : nat) (p : Phase),
    hc = None \/ hc = Some external_check ->
    (forall k, dev_ok env k = true) ->
    (forall k, probe env k <> Raises) ->
    sleep_error (interval self) = None ->
    finite_differences env ->
    window_read env p ->
    fd_open s = true ->
    handler s = true ->
    let r := loop self hc fail_timeout n p env s in
    ((exists p', outcome r = Normal p') \/
     (outcome r = Raised (SystemExit 0) /\ sigterm_at env <> None)) /\
    (sigterm_at env = None -> exists p', outcome r = Normal p') /\
    (sigterm_at env = None ->
     (forall k, (nprobe s <= k)%nat -> probe env k = Returns false) ->
     forall j, (j < n)%nat ->
       let T := clock env (nclock s) in
       let t := clock env (S j + nclock s) in
       (t - T <? fail_timeout) = false ->
       nth_error (ticks self (Some external_check) fail_timeout n (Monitoring None) env s) j
       = Some [EvProbe; EvPrint (MsgFailing (truncate (t - T)) fail_timeout);
               EvSleep (interval self)]).
Proof.
  intros self hc ft env s n p Hhc Hdev Hans Hsleep Hfin Hp Hfd Hh r.
  pose proof (safe_loop env Hdev Hans self hc ft n p Hsleep Hfin Hp Hhc s []) as Hsafe.
  specialize (Hsafe ltac:(now repeat split)).
  fold r in Hsafe. cbn [app] in Hsafe.
  split; [| split].
  - destruct (outcome r) as [p' | e]; [left; eauto | right].
    destruct Hsafe as (-> & Hsig & _). auto.
  - intros Hsig. destruct (outcome r) as [p' | e]; [eauto |].
    destruct Hsafe as (_ & Hsig' & _). contradiction.
  - intros Hsig Hprobe j Hj T t Hlate.
    rewrite (opening_rounds env Hsig Hdev self ft n s j Hsleep Hfd Hprobe); [| | exact Hj].
    + unfold unhealthy_round. fold T. fold t. now rewrite Hlate.
    + intros i _. apply Hfin.
Qed.

Lemma C7_witness :
  outcome (loop wdt10 (Some external_check) 600 5 (Monitoring None) sigterm_in_loop started)
  = Raised (SystemExit 0) /\
  (exists p, outcome (loop wdt10 (Some external_check) 600 70 (Monitoring None)
                           always_unhealthy started) = Normal p) /\
  nth_error (ticks wdt10 (Some external_check) 600 70 (Monitoring None)
                   always_unhealthy started) 65
  = Some [EvProbe; EvPrint (MsgFailing 650 600); EvSleep 10].
Proof.
  split; [| split].
  - destruct (proj1 (C7_loop_never_ends_by_itself
                       wdt10 (Some external_check) 600 sigterm_in_loop started 5
                       (Monitoring None) (or_intror eq_refl) (fun _ => eq_refl)
                       (fun _ H => ltac:(discriminate H)) eq_refl
                       (fun a b => every_ten_seconds_differences a b) I eq_refl eq_refl))
      as [[p Hp] | [Hexit _]].
    + vm_compute in Hp. discriminate Hp.
    + exact Hexit.
  - exact (proj1 (proj2 (C7_loop_never_ends_by_itself
                           wdt10 (Some external_check) 600 always_unhealthy started 70
                           (Monitoring None) (or_intror eq_refl) (fun _ => eq_refl)
                           (fun _ H => ltac:(discriminate H)) eq_refl
                           (machine_differences _) I eq_refl eq_refl))
             eq_refl).
  - refine (proj2 (proj2 (C7_loop_never_ends_by_itself
                            wdt10 (Some external_check) 600 always_unhealthy started 70
                            (Monitoring None) (or_intror eq_refl) (fun _ => eq_refl)
                            (fun _ H => ltac:(discriminate H)) eq_refl
                            (machine_differences _) I eq_refl eq_refl))
              eq_refl (fun _ _ => eq_refl) 65%nat _ _).
    + lia.
    + vm_compute. reflexivity.
Defined.

(** C8, as the code has it.  The clock of [run] is [time.time()], the wall
    clock.  Its readings enter the decisions through the sum
    [time.time() + startup_delay], against which later readings are
    compared, and through differences of two readings, all computed in
    double precision.  Two runs with the same answers of the surroundings
    on two wall clocks that give the same differences and the same
    outcomes of these comparisons make the same calls and take the same
    feed decisions. *)
Theorem C8_decisions_follow_wall_clock_differences :
  forall (self : WDT) (hc : option (M bool)) (startup_delay fail_timeout : float)
         (env : Env) (s : State) (n : nat) (adj : nat -> float),
    known_predicate hc ->
    alike startup_delay (clock env) (clock (adjust_clock adj env)) ->
    events (run self hc startup_delay fail_timeout n (adjust_clock adj env) s)
    = events (run self hc startup_delay fail_timeout n env s) /\
    run_decisions self hc startup_delay fail_timeout n (adjust_clock adj env) s
    = run_decisions self hc startup_delay fail_timeout n env s.
Proof.
  intros self hc sd ft env s n adj Hhc Halike. split.
  - symmetry.
    apply (ins_bind env adj _ _
             (run_entry sd) (run_entry sd)
             (loop self hc ft n) (loop self hc ft n)
             (ins_run_entry env adj sd)
             (fun p p' Hp => ins_loop env adj sd Halike self hc ft n p p' Hhc Hp) s).
  - unfold run_decisions, decisions.
    destruct (ins_run_entry env adj sd s) as (Hs & _ & Ho).
    destruct (outcome (run_entry sd env s)) as [p | e],
             (outcome (run_entry sd (adjust_clock adj env) s)) as [p' | e'];
      try contradiction; [| reflexivity].
    rewrite <- Hs. f_equal. now apply (ins_ticks env adj sd Halike).
Qed.

(** C8 as stated fails: the same rounds with the same answers of the
    predicate, once on a steady wall clock and once on a wall clock set
    back by 100 seconds in the middle of an unhealthy streak.  The fourth
    round is not fed in the first run and is fed in the second. *)
Lemma C8_wall_clock_step_changes_decisions :
  decisions wdt10 (Some external_check) 30 4 (Monitoring None)
            always_unhealthy started
  = [true; true; true; false] /\
  decisions wdt10 (Some external_check) 30 4 (Monitoring None)
            (adjust_clock set_back always_unhealthy) started
  = [true; true; true; true].
Proof. split; vm_compute; reflexivity. Qed.

Lemma C8_witness :
  events (run wdt10 (Some check_system_alive) 300 600 50
              (adjust_clock (fun _ => -3600) always_unhealthy) started)
  = events (run wdt10 (Some check_system_alive) 300 600 50 always_unhealthy started) /\
  run_decisions wdt10 (Some check_system_alive) 300 600 50
                (adjust_clock (fun _ => -3600) always_unhealthy) started
  = run_decisions wdt10 (Some check_system_alive) 300 600 50 always_unhealthy started.
Proof.
  apply (C8_decisions_follow_wall_clock_differences
           wdt10 (Some check_system_alive) 300 600 always_unhealthy started 50
           (fun _ => -3600)).
  - right; right; reflexivity.
  - apply (every_ten_seconds_alike (-3600)). vm_compute. reflexivity.
Defined.

(** C9.  With /proc/meminfo read as [avail] kB and no signal, the reference
    predicate returns, and it returns healthy exactly when [avail] is at
    least 50000, the scratch file was written without error, and the
    difference of the two readings of the clock around the write, as the
    program computes it, is not above 5. *)
Theorem C9_reference_predicate_healthy_iff_both_checks_pass :
  forall (env : Env) (s : State) (lines : list string) (avail : Z),
    sigterm_at env = None ->
    meminfo env (nmem s) = Some lines ->
    parse_meminfo lines = Some avail ->
    let started := clock env (nclock s) in
    let ended := clock env (S (nclock s)) in
    exists healthy,
      outcome (check_system_alive env s) = Normal healthy /\
      (healthy = true <->
       (50000 <= avail)%Z /\ scratch_ok env (nscratch s) = true /\
       (5 <? ended - started) = false).
Proof.
  intros env s lines avail Hsig Hmem Hparse started ended.
  rewrite (check_system_alive_runs env Hsig s lines avail Hmem Hparse).
  fold started. fold ended.
  destruct (avail <? 50000)%Z eqn:Hlow;
    [apply Z.ltb_lt in Hlow
    | apply Z.ltb_ge in Hlow;
      destruct (scratch_ok env (nscratch s)); [destruct (5 <? ended - started) |]];
    eexists; (split; [reflexivity |]);
    (split; [intros H; try discriminate H; repeat split; auto
            | intros (H1 & H2 & H3); try discriminate; try lia; reflexivity]).
Qed.

Lemma C9_witness :
  exists healthy,
    outcome (check_system_alive always_unhealthy started) = Normal healthy /\
    (healthy = true <->
     (50000 <= 8123456)%Z /\ scratch_ok always_unhealthy 0 = true /\
     (5 <? every_ten_seconds 1 - every_ten_seconds 0) = false).
Proof.
  exact (C9_reference_predicate_healthy_iff_both_checks_pass
           always_unhealthy started (sample_meminfo "8123456") 8123456
           eq_refl eq_refl eq_refl).
Defined.

(** C10.  Without a health predicate, and with an interval that
    [time.sleep] accepts, every round of the Monitoring phase feeds the
    device (write and flush) and the fail window stays closed. *)
Theorem C10_no_predicate_feeds_every_tick :
  forall (self : WDT) (fail_timeout : float) (env : Env) (s : State) (n : nat),
    sigterm_at env = None ->
    (forall k, dev_ok env k = true) ->
    fd_open s = true ->
    sleep_error (interval self) = None ->
    outcome (loop self None fail_timeout n (Monitoring None) env s) = Normal (Monitoring None) /\
    forall j, (j < n)%nat ->
      nth_error (ticks self None fail_timeout n (Monitoring None) env s) j
      = Some [EvWrite "1"; EvFlush; EvSleep (interval self)].
Proof.
  intros self ft env s n Hsig Hdev Hfd Hsleep. split.
  - now apply unchecked_loop.
  - intros j Hj. now apply unchecked_rounds.
Qed.

Lemma C10_witness :
  outcome (loop wdt10 None 600 100 (Monitoring None) always_unhealthy started)
  = Normal (Monitoring None) /\
  nth_error (ticks wdt10 None 600 100 (Monitoring None) always_unhealthy started) 99
  = Some [EvWrite "1"; EvFlush; EvSleep 10].
Proof.
  destruct (C10_no_predicate_feeds_every_tick
              wdt10 600 always_unhealthy started 100
              eq_refl (fun _ => eq_refl) eq_refl eq_refl) as [Hloop Hfeed].
  split; [exact Hloop |]. apply Hfeed. lia.
Defined.

(** * Further properties of dog.py *)

(** ** [run]: the end of the grace period *)

(** X1.  dog.py:27-34.  With a startup delay of zero or less and a clock
    that has not gone back between the entry of [run] and the first test
    of the loop, the grace period is empty: [run] prints its two lines and
    enters the Monitoring phase with the window closed, without a single
    unconditional feed.  The end of the grace period is the double that
    the program computes; it is not above the reading taken on entry. *)
Theorem X1_no_grace_period_without_delay :
  forall (self : WDT) (hc : option (M bool)) (startup_delay fail_timeout : float)
         (env : Env) (s : State),
    sigterm_at env = None ->
    (startup_delay <=? 0) = true ->
    (clock env (nclock s) <=? clock env (S (nclock s))) = true ->
    run self hc startup_delay fail_timeout 1 env s
    = mkResult (Normal (Monitoring None)) (bump 4 2 0 0 s)
               [EvPrint (MsgStartupDelay startup_delay); EvPrint MsgMonitoring].
Proof.
  intros self hc sd ft env s Hsig Hsd Hclock.
  pose proof (float_add_nonpos _ _ _ Hsd Hclock) as Hlate.
  unfold run.
  step ltac:(apply run_entry_quiet; assumption).
  cbn [loop].
  step ltac:(cbn [iteration]; apply startup_ends; [assumption | exact Hlate]).
  all: reflexivity.
Qed.

Lemma X1_witness :
  run wdt10 (Some external_check) 0 600 1 always_raising started
  = mkResult (Normal (Monitoring None)) (bump 4 2 0 0 started)
             [EvPrint (MsgStartupDelay 0); EvPrint MsgMonitoring] /\
  run wdt10 (Some external_check) (-5) 600 1 always_raising started
  = mkResult (Normal (Monitoring None)) (bump 4 2 0 0 started)
             [EvPrint (MsgStartupDelay (-5)); EvPrint MsgMonitoring].
Proof.
  split; apply X1_no_grace_period_without_delay;
    first [reflexivity | vm_compute; reflexivity].
Defined.

(** ** [run]: an unhealthy streak on a clock that does not run backwards *)

(** X3.  dog.py:40-46.  Feeds that have ceased in an unhealthy streak do
    not resume on a clock that does not go back: if round [i] of the
    streak is not fed, a later round [j] of it, whose reading of the clock
    is not below that of round [i], is not fed either.  The ages of the
    window are the doubles that the program computes; rounding keeps their
    order. *)
Theorem X3_feeds_cease_for_good_on_a_monotone_clock :
  forall (self : WDT) (fail_timeout : float) (env : Env) (s : State) (n i j : nat),
    sigterm_at env = None ->
    (forall k, dev_ok env k = true) ->
    fd_open s = true ->
    sleep_error (interval self) = None ->
    (forall k, (nprobe s <= k)%nat -> probe env k = Returns false) ->
    (forall k, (k <= j)%nat ->
       finite (clock env (S k + nclock s) - clock env (nclock s)) = true) ->
    (i <= j)%nat -> (j < n)%nat ->
    (clock env (S i + nclock s) <=? clock env (S j + nclock s)) = true ->
    nth_error (decisions self (Some external_check) fail_timeout n (Monitoring None) env s) i
    = Some false ->
    nth_error (decisions self (Some external_check) fail_timeout n (Monitoring None) env s) j
    = Some false.
Proof.
  intros self ft env s n i j Hsig Hdev Hfd Hsleep Hp Hfin Hij Hj Hclock Hi.
  rewrite (opening_decisions env Hsig Hdev self ft n s i Hsleep Hfd Hp) in Hi;
    [| intros k Hk; apply Hfin; lia | lia].
  rewrite (opening_decisions env Hsig Hdev self ft n s j Hsleep Hfd Hp Hfin Hj).
  f_equal. injection Hi as Hi.
  apply (float_not_lt_le _ _ _ Hi).
  apply float_sub_le; [exact Hclock | apply Hfin; lia | apply Hfin; lia].
Qed.

Lemma X3_witness :
  nth_error (decisions wdt10 (Some external_check) 600 70 (Monitoring None)
                       always_unhealthy started) 65 = Some false.
Proof.
  apply (X3_feeds_cease_for_good_on_a_monotone_clock
           wdt10 600 always_unhealthy started 70 60 65).
  - reflexivity.
  - intros k. reflexivity.
  - reflexivity.
  - reflexivity.
  - intros k _. reflexivity.
  - intros k _. apply every_ten_seconds_differences.
  - lia.
  - lia.
  - vm_compute. reflexivity.
  - vm_compute. reflexivity.
Defined.

(** ** [run]: any answers of the predicate, within a short span of time *)

Lemma short_span_rounds env self ft lo hi :
  sigterm_at env = None ->
  (forall k, dev_ok env k = true) ->
  (forall k, probe env k <> Raises) ->
  sleep_error (interval self) = None ->
  (forall i j, (lo <= i)%nat -> (i <= j)%nat -> (j < hi)%nat ->
               finite (clock env j - clock env i) = true /\
               (clock env j - clock env i <? ft) = true) ->
  forall n s fs j,
    fd_open s = true ->
    (lo <= nclock s)%nat ->
    (nclock s + 2 * n <= hi)%nat ->
    (fs = None \/ exists i, (lo <= i < nclock s)%nat /\ fs = Some (clock env i)) ->
    (j < n)%nat ->
    nth_error (decisions self (Some external_check) ft n (Monitoring fs) env s) j
    = Some true.
Proof.
  intros Hsig Hdev Hans Hsleep Hspan.
  induction n as [| n IH]; intros s fs j Hfd Hlo Hhi Hfs Hj; [lia |].
  unfold decisions. cbn [ticks map iteration].
  destruct (probe env (nprobe s)) as [[|] |] eqn:Hreply; [| | now apply Hans in Hreply].
  - (* healthy *)
    pose proof (healthy_iteration env Hsig Hdev self ft fs s Hsleep Hfd Hreply) as Hrun.
    cbn [iteration] in Hrun. rewrite Hrun. cbn [outcome final events].
    destruct j as [| j]; [reflexivity |]. cbn [nth_error].
    apply (IH (bump 4 0 1 1 s) None j); auto; cbn; lia.
  - (* unhealthy *)
    assert (Hboth :
      finite (clock env (match fs with Some _ => nclock s | None => S (nclock s) end)
              - match fs with Some t => t | None => clock env (nclock s) end) = true /\
      (clock env (match fs with Some _ => nclock s | None => S (nclock s) end)
       - match fs with Some t => t | None => clock env (nclock s) end <? ft) = true).
    { destruct Hfs as [-> | (i & Hi & ->)]; apply Hspan; lia. }
    destruct Hboth as [Hfin Hfed].
    destruct (monitor_unhealthy env Hsig Hdev self (Some external_check) ft fs s _ _ Hsleep
                (external_returns env Hsig false s Hreply) Hfd Hfin)
      as (s' & Hrun & Hclock & Hprobe & Hfd').
    rewrite Hrun. cbn [outcome final events nth_error].
    cbn [bump nclock Nat.add] in Hrun, Hclock |- *.
    destruct j as [| j].
    + cbn [nth_error]. f_equal. rewrite Hfed. reflexivity.
    + cbn [nth_error].
      apply (IH s' _ j); auto.
      * rewrite Hclock. destruct fs; lia.
      * rewrite Hclock. destruct fs; lia.
      * right. destruct Hfs as [-> | (i & Hi & ->)].
        -- exists (nclock s). split; [rewrite Hclock; lia | reflexivity].
        -- exists i. split; [rewrite Hclock; lia | reflexivity].
      * lia.
Qed.

(** A property of the first [N] naturals, and of their pairs, by
    evaluation. *)
Lemma bounded_all (P : nat -> bool) (N : nat) :
  forallb P (seq 0 N) = true -> forall k, (k < N)%nat -> P k = true.
Proof.
  intros Hall k Hk. apply (proj1 (forallb_forall _ _) Hall). apply in_seq. lia.
Qed.

Lemma bounded_pairs (P : nat -> nat -> bool) (N : nat) :
  forallb (fun a => forallb (P a) (seq 0 N)) (seq 0 N) = true ->
  forall a b, (a < N)%nat -> (b < N)%nat -> P a b = true.
Proof.
  intros Hall a b Ha Hb.
  apply (bounded_all (P a) N); [| exact Hb].
  apply (bounded_all (fun a => forallb (P a) (seq 0 N)) N Hall a Ha).
Qed.

(** X4.  dog.py:36-48.  Whatever the predicate answers, healthy or
    unhealthy in any order, no round withholds the feed while the
    differences of the readings of the clock, as the program computes
    them, are numbers below [fail_timeout]: a fail window cannot be older
    than the time that has passed. *)
Theorem X4_every_round_feeds_within_a_short_span :
  forall (self : WDT) (fail_timeout : float) (env : Env) (s : State) (n j : nat),
    sigterm_at env = None ->
    (forall k, dev_ok env k = true) ->
    (forall k, probe env k <> Raises) ->
    fd_open s = true ->
    sleep_error (interval self) = None ->
    (forall a b, (nclock s <= a)%nat -> (a <= b)%nat -> (b < nclock s + 2 * n)%nat ->
                 finite (clock env b - clock env a) = true /\
                 (clock env b - clock env a <? fail_timeout) = true) ->
    (j < n)%nat ->
    nth_error (decisions self (Some external_check) fail_timeout n (Monitoring None) env s) j
    = Some true.
Proof.
  intros self ft env s n j Hsig Hdev Hans Hfd Hsleep Hspan Hj.
  apply (short_span_rounds env self ft (nclock s) (nclock s + 2 * n)); auto.
Qed.

Lemma X4_witness :
  nth_error (decisions wdt10 (Some external_check) 600 5 (Monitoring None)
                       flapping started) 4 = Some true.
Proof.
  apply X4_every_round_feeds_within_a_short_span.
  - reflexivity.
  - intros k. reflexivity.
  - intros k. cbn. discriminate.
  - reflexivity.
  - reflexivity.
  - intros a b _ Hab Hb. cbn in Hb.
    apply andb_true_iff.
    apply (bounded_pairs
             (fun a b => finite (clock flapping b - clock flapping a)
                         && (clock flapping b - clock flapping a <? 600)) 10);
      [vm_compute; reflexivity | lia | lia].
  - lia.
Defined.

(** ** [_stop] and [feed] on their own *)

(** X6.  dog.py:13-20.  Disarming is final.  In the state that a
    successful [_stop] leaves, a later [feed] raises [ValueError] at its
    write: the flush is not attempted and no operation reaches the
    device. *)
Theorem X6_no_feed_reaches_the_device_after_disarm :
  forall (self : WDT) (env : Env) (s : State),
    outcome (_stop env s) = Raised (SystemExit 0) ->
    let s' := final (_stop env s) in
    signal_due env s' = false ->
    outcome (feed self env s') = Raised ValueError /\
    events (feed self env s') = [EvWrite "1"] /\
    ndev (final (feed self env s')) = ndev s'.
Proof.
  intros self env s Hexit s' Hquiet.
  assert (Hclosed : fd_open s' = false).
  { subst s'. destruct s as [o c d p m sc fo h]. revert Hexit.
    unfold _stop, bind, raw_fd_write, raw_fd_close, sys_exit, raise. cbn.
    destruct fo; cbn; [| discriminate].
    destruct (dev_ok env d); cbn; [reflexivity | discriminate]. }
  unfold feed, fd_write, bind. rewrite (deliver_not_due _ _ Hquiet). cbn.
  unfold raw_fd_write. cbn. rewrite Hclosed. cbn. auto.
Qed.

Lemma X6_witness :
  outcome (feed wdt10 always_unhealthy (final (_stop always_unhealthy started)))
  = Raised ValueError /\
  events (feed wdt10 always_unhealthy (final (_stop always_unhealthy started)))
  = [EvWrite "1"] /\
  ndev (final (feed wdt10 always_unhealthy (final (_stop always_unhealthy started))))
  = ndev (final (_stop always_unhealthy started)).
Proof.
  apply (X6_no_feed_reaches_the_device_after_disarm wdt10 always_unhealthy started);
    reflexivity.
Defined.

(** ** [__init__] and [main] *)

(** X7.  dog.py:8-11 and 73-76.  The handler is installed last.  A SIGTERM
    that arrives before [signal.signal] has run ends the process by the
    default action: nothing is written to the device, and when the signal
    falls between [open] and [signal.signal] the device is left open and
    armed. *)
Theorem X7_sigterm_before_the_handler_does_not_disarm :
  forall (env : Env) (k n : nat),
    sigterm_at env = Some k ->
    (k <= 2)%nat ->
    open_ok env = true ->
    let r := main n env initial in
    outcome r = Raised KilledBySignal /\
    existsb is_device_call (events r) = false /\
    (k = 2%nat -> fd_open (final r) = true /\ handler (final r) = false).
Proof.
  intros env k n Hsig Hk Hopen r.
  assert (Hdue : forall s, signal_due env s = Nat.eqb k (nops s))
    by (intros s; unfold signal_due; now rewrite Hsig).
  assert (Hrun :
    r = match k with
        | 0%nat => mkResult (Raised KilledBySignal) (tick_ops initial) []
        | 1%nat => mkResult (Raised KilledBySignal) (tick_ops (tick_ops initial))
                            [EvPrint MsgBoot]
        | _ => mkResult (Raised KilledBySignal)
                        (tick_ops (set_fd_open true (tick_ops (tick_ops initial))))
                        [EvPrint MsgBoot]
        end).
  { subst r. unfold main.
    destruct k as [| [| [| k]]]; [| | | lia].
    - apply run_bind_raised. unfold print. apply run_bind_raised.
      apply deliver_killed; [now rewrite Hdue | reflexivity].
    - step ltac:(unfold print, bind; rewrite deliver_not_due by (now rewrite Hdue);
                 reflexivity).
      apply run_bind_raised. unfold __init__. apply run_bind_raised.
      unfold open_device. apply run_bind_raised.
      apply deliver_killed; [now rewrite Hdue | reflexivity].
      all: reflexivity.
    - step ltac:(unfold print, bind; rewrite deliver_not_due by (now rewrite Hdue);
                 reflexivity).
      apply run_bind_raised. unfold __init__.
      step ltac:(unfold open_device, bind; rewrite deliver_not_due by (now rewrite Hdue);
                 cbn; rewrite Hopen; reflexivity).
      apply run_bind_raised. unfold signal_signal. apply run_bind_raised.
      apply deliver_killed; [now rewrite Hdue | reflexivity].
      all: reflexivity. }
  rewrite Hrun.
  destruct k as [| [| [| k]]]; [| | | lia]; cbn [outcome events final];
    repeat split; try reflexivity; intros; discriminate.
Qed.

Lemma X7_witness :
  outcome (main 10 sigterm_before_handler initial) = Raised KilledBySignal /\
  existsb is_device_call (events (main 10 sigterm_before_handler initial)) = false /\
  fd_open (final (main 10 sigterm_before_handler initial)) = true /\
  handler (final (main 10 sigterm_before_handler initial)) = false.
Proof.
  destruct (X7_sigterm_before_the_handler_does_not_disarm
              sigterm_before_handler 2 10 eq_refl (le_n 2) eq_refl) as (H1 & H2 & H3).
  split; [exact H1 |]. split; [exact H2 |]. apply H3. reflexivity.
Defined.

(** ** [check_system_alive] *)

(** X8.  dog.py:54-57.  When memory is short the predicate answers at
    once: it prints the amount, and neither writes the scratch file nor
    reads the clock. *)
Theorem X8_low_memory_skips_the_disk_check :
  forall (env : Env) (s : State) (lines : list string) (avail : Z),
    sigterm_at env = None ->
    meminfo env (nmem s) = Some lines ->
    parse_meminfo lines = Some avail ->
    (avail < 50000)%Z ->
    check_system_alive env s
    = mkResult (Normal false) (after_check 2 0 0 s)
               [EvMeminfo; EvPrint (MsgLowMemory avail)].
Proof.
  intros env s lines avail Hsig Hmem Hparse Hlow.
  rewrite (check_system_alive_runs env Hsig s lines avail Hmem Hparse).
  apply Z.ltb_lt in Hlow. now rewrite Hlow.
Qed.

Lemma X8_witness :
  check_system_alive low_memory started
  = mkResult (Normal false) (after_check 2 0 0 started)
             [EvMeminfo; EvPrint (MsgLowMemory 1234)].
Proof.
  apply (X8_low_memory_skips_the_disk_check low_memory started (sample_meminfo "1234") 1234);
    reflexivity.
Defined.

(** X9.  dog.py:51-70.  The predicate leaves the watchdog device alone, and
    it explains every unhealthy answer: it prints exactly one line when it
    answers unhealthy and nothing when it answers healthy. *)
Theorem X9_every_unhealthy_answer_is_explained :
  forall (env : Env) (s : State) (lines : list string) (avail : Z),
    sigterm_at env = None ->
    meminfo env (nmem s) = Some lines ->
    parse_meminfo lines = Some avail ->
    let r := check_system_alive env s in
    exists healthy,
      outcome r = Normal healthy /\
      List.length (printed (events r)) = (if healthy then 0 else 1)%nat /\
      existsb is_device_call (events r) = false /\
      ndev (final r) = ndev s /\ fd_open (final r) = fd_open s.
Proof.
  intros env s lines avail Hsig Hmem Hparse r. subst r.
  rewrite (check_system_alive_runs env Hsig s lines avail Hmem Hparse).
  destruct (avail <? 50000)%Z; [| destruct (scratch_ok env (nscratch s));
                                  [destruct (5 <? _) |]];
    eexists; cbn; repeat split; reflexivity.
Qed.

Lemma X9_witness :
  exists healthy,
    outcome (check_system_alive low_memory started) = Normal healthy /\
    List.length (printed (events (check_system_alive low_memory started)))
    = (if healthy then 0 else 1)%nat /\
    existsb is_device_call (events (check_system_alive low_memory started)) = false /\
    ndev (final (check_system_alive low_memory started)) = ndev started /\
    fd_open (final (check_system_alive low_memory started)) = fd_open started.
Proof.
  exact (X9_every_unhealthy_answer_is_explained
           low_memory started (sample_meminfo "1234") 1234 eq_refl eq_refl eq_refl).
Defined.

(** X10.  dog.py:52-54 and 36-37.  The memory check stands outside the
    [try].  When /proc/meminfo cannot be read, or its text is not what
    [dict] and [int] accept, the predicate raises instead of answering,
    and [run] ends with that exception at once, without feeding. *)
Theorem X10_memory_check_errors_end_the_loop :
  forall (self : WDT) (fail_timeout : float) (env : Env) (s : State)
         (fail_start : option float) (n : nat),
    sigterm_at env = None ->
    match meminfo env (nmem s) with
    | None => True
    | Some lines => parse_meminfo lines = None
    end ->
    loop self (Some check_system_alive) fail_timeout (S n) (Monitoring fail_start) env s
    = mkResult (Raised (match meminfo env (nmem s) with
                        | None => OSError
                        | Some _ => ValueError
                        end))
               (tick_mem (tick_ops s)) [EvMeminfo].
Proof.
  intros self ft env s fs n Hsig Hbad.
  apply (loop_raised env). cbn [iteration]. unfold monitor_iteration.
  apply run_bind_raised. cbn [health_test]. unfold check_system_alive.
  destruct (meminfo env (nmem s)) as [lines |] eqn:Hmem.
  - unfold parse_meminfo in Hbad.
    step ltac:(rewrite read_meminfo_quiet, Hmem by assumption; reflexivity).
    destruct (py_dict_from _ _) as [mem |] eqn:Hdict.
    + step ltac:(unfold py_dict; rewrite Hdict; reflexivity).
      apply run_bind_raised. unfold py_int. rewrite Hbad. reflexivity.
      all: reflexivity.
    + apply run_bind_raised. unfold py_dict. rewrite Hdict. reflexivity.
    + reflexivity.
  - apply run_bind_raised. rewrite read_meminfo_quiet, Hmem by assumption. reflexivity.
Qed.

Lemma X10_witness :
  loop wdt10 (Some check_system_alive) 600 5 (Monitoring None) meminfo_unreadable started
  = mkResult (Raised OSError) (tick_mem (tick_ops started)) [EvMeminfo] /\
  loop wdt10 (Some check_system_alive) 600 5 (Monitoring None) meminfo_blank_line started
  = mkResult (Raised ValueError) (tick_mem (tick_ops started)) [EvMeminfo].
Proof.
  split.
  - exact (X10_memory_check_errors_end_the_loop
             wdt10 600 meminfo_unreadable started None 4 eq_refl I).
  - exact (X10_memory_check_errors_end_the_loop
             wdt10 600 meminfo_blank_line started None 4 eq_refl eq_refl).
Defined.

(** ** [run] with the reference predicate *)

(** X11.  dog.py:36-39 with dog.py:51-70.  On a machine that stays healthy
    (memory at or above 50000 kB, scratch writes that succeed and that the
    program does not time above five seconds) and with an interval that
    [time.sleep] accepts, the Monitoring loop under [check_system_alive]
    never stops feeding: every round reads /proc/meminfo, writes the
    scratch file, feeds the device and sleeps, and the fail window stays
    closed. *)
Theorem X11_healthy_machine_is_fed_every_round :
  forall (self : WDT) (fail_timeout : float) (env : Env) (n : nat) (s : State)
         (fail_start : option float),
    sigterm_at env = None ->
    (forall k, dev_ok env k = true) ->
    fd_open s = true ->
    sleep_error (interval self) = None ->
    (forall k, exists lines avail,
        meminfo env k = Some lines /\ parse_meminfo lines = Some avail /\
        (50000 <= avail)%Z) ->
    (forall k, scratch_ok env k = true) ->
    (forall j, (5 <? clock env (S (2 * j + nclock s)) - clock env (2 * j + nclock s)) = false) ->
    outcome (loop self (Some check_system_alive) fail_timeout (S n)
                  (Monitoring fail_start) env s)
    = Normal (Monitoring None) /\
    forall j, (j <= n)%nat ->
      nth_error (ticks self (Some check_system_alive) fail_timeout (S n)
                       (Monitoring fail_start) env s) j
      = Some [EvMeminfo; EvScratch; EvWrite "1"; EvFlush; EvSleep (interval self)].
Proof.
  intros self ft env n. induction n as [| n IH];
    intros s fs Hsig Hdev Hfd Hsleep Hmem Hw Hfast;
    destruct (Hmem (nmem s)) as (lines & avail & Hlines & Hparse & Havail);
    pose proof (reference_round_healthy env Hsig self ft fs s lines avail
                  Hdev Hsleep Hfd Hlines Hparse Havail (Hw _)) as Hrun;
    specialize (Hrun ltac:(exact (Hfast 0%nat))).
  - split.
    + rewrite (loop_step env self _ ft 0 (Monitoring fs) s _ _ _ Hrun). reflexivity.
    + intros j Hj. replace j with 0%nat by lia.
      cbn [ticks]. rewrite Hrun. reflexivity.
  - destruct (IH (bump 3 0 1 0 (after_check 4 2 1 s)) None Hsig Hdev Hfd Hsleep Hmem Hw)
      as [Hloop Hticks].
    { intros j. cbn [bump after_check nclock].
      replace (2 * j + (0 + (2 + nclock s)))%nat with (2 * S j + nclock s)%nat by lia.
      apply Hfast. }
    split.
    + rewrite (loop_step env self _ ft (S n) (Monitoring fs) s _ _ _ Hrun). exact Hloop.
    + intros j Hj. cbn [ticks]. rewrite Hrun. cbn [outcome final events].
      destruct j as [| j]; [reflexivity |]. cbn [nth_error]. apply Hticks. lia.
Qed.

Lemma X11_witness :
  outcome (loop wdt10 (Some check_system_alive) 600 50 (Monitoring None)
                healthy_machine started)
  = Normal (Monitoring None) /\
  nth_error (ticks wdt10 (Some check_system_alive) 600 50 (Monitoring None)
                   healthy_machine started) 49
  = Some [EvMeminfo; EvScratch; EvWrite "1"; EvFlush; EvSleep 10].
Proof.
  destruct (X11_healthy_machine_is_fed_every_round
              wdt10 600 healthy_machine 49 started None eq_refl (fun _ => eq_refl) eq_refl
              eq_refl)
    as [Hloop Hticks].
  - intros k. exists (sample_meminfo "8123456"), 8123456%Z.
    repeat split. vm_compute. discriminate.
  - intros k. reflexivity.
  - intros j. apply healthy_machine_fast.
  - split; [exact Hloop | apply Hticks; lia].
Defined.

(** ** SIGTERM and the reference predicate *)

(** X12.  dog.py:59-68 with dog.py:17-20.  A SIGTERM that arrives while
    the predicate stands inside its [try] (on the first reading of the
    clock, on the scratch write or on the second reading) does not end the
    process: the handler writes the stop byte and closes the device, the
    bare [except] catches its [SystemExit], and the predicate answers
    unhealthy, printing the line of a failed disk write. *)
Theorem X12_sigterm_inside_the_try_is_swallowed :
  forall (env : Env) (s : State) (lines : list string) (avail : Z) (k : nat),
    sigterm_at env = Some k ->
    (nops s < k <= nops s + 3)%nat ->
    handler s = true ->
    fd_open s = true ->
    dev_ok env (ndev s) = true ->
    meminfo env (nmem s) = Some lines ->
    parse_meminfo lines = Some avail ->
    (50000 <= avail)%Z ->
    scratch_ok env (nscratch s) = true ->
    let r := check_system_alive env s in
    outcome r = Normal false /\
    fd_open (final r) = false /\
    exists before,
      events r = before ++ [EvWrite "V"; EvClose; EvPrint MsgDiskWriteFailed] /\
      existsb is_device_call before = false.
Proof.
  intros env s lines avail k Hsig Hk Hh Hfd Hdc Hmem Hparse Havail Hw r.
  assert (Hlow : (avail <? 50000)%Z = false) by (apply Z.ltb_ge; lia).
  unfold parse_meminfo in Hparse.
  destruct (py_dict_from _ _) as [mem |] eqn:Hdict; [| discriminate].
  assert (Hcase : k = S (nops s) \/ k = S (S (nops s)) \/ k = S (S (S (nops s)))) by lia.
  assert (Hrun : exists s' before,
             r = mkResult (Normal false) s'
                          (before ++ [EvWrite "V"; EvClose; EvPrint MsgDiskWriteFailed])
             /\ fd_open s' = false /\ existsb is_device_call before = false).
  { subst r. destruct Hcase as [Hk1 | [Hk2 | Hk3]].
    - exists (tick_ops (set_fd_open false
                (tick_dev (tick_ops (tick_mem (tick_ops s)))))), [EvMeminfo].
      split; [| split; reflexivity]. unfold check_system_alive.
      step ltac:(apply read_meminfo_not_due; [due Hsig | exact Hmem]).
      step ltac:(unfold py_dict; rewrite Hdict; reflexivity).
      step ltac:(unfold py_int; rewrite Hparse; reflexivity).
      rewrite Hlow.
      step idtac.
      { eapply run_try_raised.
        - apply run_bind_raised. unfold time_time. apply run_bind_raised.
          apply deliver_handled; [due Hsig | assumption ..].
        - step ltac:(apply print_not_due; due Hsig).
          all: reflexivity.
        - reflexivity. }
      all: reflexivity.
    - exists (tick_ops (set_fd_open false
                (tick_dev (tick_ops
                   (tick_clock (tick_ops (tick_mem (tick_ops s)))))))), [EvMeminfo].
      split; [| split; reflexivity]. unfold check_system_alive.
      step ltac:(apply read_meminfo_not_due; [due Hsig | exact Hmem]).
      step ltac:(unfold py_dict; rewrite Hdict; reflexivity).
      step ltac:(unfold py_int; rewrite Hparse; reflexivity).
      rewrite Hlow.
      step idtac.
      { eapply run_try_raised.
        - step ltac:(apply time_time_not_due; due Hsig).
          apply run_bind_raised. unfold write_scratch. apply run_bind_raised.
          apply deliver_handled; [due Hsig | assumption ..].
          all: reflexivity.
        - step ltac:(apply print_not_due; due Hsig).
          all: reflexivity.
        - reflexivity. }
      all: reflexivity.
    - exists (tick_ops (set_fd_open false
                (tick_dev (tick_ops
                   (tick_scratch (tick_ops
                      (tick_clock (tick_ops (tick_mem (tick_ops s)))))))))),
             [EvMeminfo; EvScratch].
      split; [| split; reflexivity]. unfold check_system_alive.
      step ltac:(apply read_meminfo_not_due; [due Hsig | exact Hmem]).
      step ltac:(unfold py_dict; rewrite Hdict; reflexivity).
      step ltac:(unfold py_int; rewrite Hparse; reflexivity).
      rewrite Hlow.
      step idtac.
      { eapply run_try_raised.
        - step ltac:(apply time_time_not_due; due Hsig).
          step ltac:(apply write_scratch_not_due; [due Hsig | exact Hw]).
          apply run_bind_raised. unfold time_time. apply run_bind_raised.
          apply deliver_handled; [due Hsig | assumption ..].
          all: reflexivity.
        - step ltac:(apply print_not_due; due Hsig).
          all: reflexivity.
        - reflexivity. }
      all: reflexivity. }
  destruct Hrun as (s' & before & -> & Hclosed & Hbefore).
  cbn [outcome final events]. eauto.
Qed.

Lemma X12_witness :
  outcome (check_system_alive sigterm_in_try started) = Normal false /\
  fd_open (final (check_system_alive sigterm_in_try started)) = false /\
  exists before,
    events (check_system_alive sigterm_in_try started)
    = before ++ [EvWrite "V"; EvClose; EvPrint MsgDiskWriteFailed] /\
    existsb is_device_call before = false.
Proof.
  apply (X12_sigterm_inside_the_try_is_swallowed
           sigterm_in_try started (sample_meminfo "8123456") 8123456 3);
    try reflexivity.
  - cbn. lia.
  - vm_compute. discriminate.
Defined.

(** X13.  dog.py:51-53 with dog.py:17-20.  The read of /proc/meminfo
    stands outside the [try]: a SIGTERM that falls on it is honoured.  The
    handler disarms, and its [SystemExit] leaves the predicate and the
    loop; the stop byte and the close are the only calls of that round. *)
Theorem X13_sigterm_at_the_memory_check_is_honoured :
  forall (self : WDT) (fail_timeout : float) (env : Env) (s : State)
         (fail_start : option float) (n : nat),
    sigterm_at env = Some (nops s) ->
    handler s = true ->
    fd_open s = true ->
    dev_ok env (ndev s) = true ->
    loop self (Some check_system_alive) fail_timeout (S n) (Monitoring fail_start) env s
    = mkResult (Raised (SystemExit 0)) (set_fd_open false (tick_dev (tick_ops s)))
               [EvWrite "V"; EvClose].
Proof.
  intros self ft env s fs n Hsig Hh Hfd Hdc.
  cbn [loop]. apply run_bind_raised. cbn [iteration]. unfold monitor_iteration.
  apply run_bind_raised. cbn [health_test]. unfold check_system_alive.
  apply run_bind_raised. unfold read_meminfo. apply run_bind_raised.
  apply deliver_handled; [due Hsig | assumption ..].
Qed.

Lemma X13_witness :
  loop wdt10 (Some check_system_alive) 600 5 (Monitoring None) sigterm_at_meminfo started
  = mkResult (Raised (SystemExit 0))
             (set_fd_open false (tick_dev (tick_ops started)))
             [EvWrite "V"; EvClose].
Proof.
  apply (X13_sigterm_at_the_memory_check_is_honoured
           wdt10 600 sigterm_at_meminfo started None 4); reflexivity.
Defined.

(** ** SIGTERM in the code of [WDT] itself *)

(** X14.  dog.py:17-20 with dog.py:22-48.  Take an interval that
    [time.sleep] accepts, a clock whose differences are numbers, no
    predicate or an external one that returns, and a working device.  A
    SIGTERM that falls on any call of the loop ends the process cleanly:
    after more iterations than calls were left before the signal, the
    loop has ended with [SystemExit 0], the device is closed, and the stop
    byte and the close are the last two calls and the only ones of their
    kind. *)
Theorem X14_sigterm_in_the_loop_disarms_once :
  forall (self : WDT) (hc : option (M bool)) (fail_timeout : float)
         (env : Env) (s : State) (n : nat) (p : Phase) (k : nat),
    hc = None \/ hc = Some external_check ->
    (forall i, dev_ok env i = true) ->
    (forall i, probe env i <> Raises) ->
    sleep_error (interval self) = None ->
    finite_differences env ->
    window_read env p ->
    fd_open s = true ->
    handler s = true ->
    sigterm_at env = Some k ->
    (nops s <= k)%nat ->
    (k < nops s + n)%nat ->
    let r := loop self hc fail_timeout n p env s in
    outcome r = Raised (SystemExit 0) /\
    fd_open (final r) = false /\
    exists before,
      events r = before ++ [EvWrite "V"; EvClose] /\
      existsb is_disarm before = false.
Proof.
  intros self hc ft env s n p k Hhc Hdev Hans Hsleep Hfin Hp Hfd Hh Hsig Hlo Hhi r.
  pose proof (safe_loop env Hdev Hans self hc ft n p Hsleep Hfin Hp Hhc s []) as Hsafe.
  specialize (Hsafe ltac:(now repeat split)).
  pose proof (pending_loop env self hc ft n p (nops s) Hhc s []) as Hpend.
  specialize (Hpend ltac:(split; [lia | intros k' Hk'; congruence])).
  fold r in Hsafe, Hpend. cbn [app] in Hsafe, Hpend.
  destruct (outcome r) as [q | e].
  - destruct Hpend as [[Hmade Hlater] _]. specialize (Hlater k Hsig). lia.
  - destruct Hsafe as (-> & _ & Hclosed & Hevents). auto.
Qed.

Lemma X14_witness :
  outcome (loop wdt10 (Some external_check) 600 7 (Monitoring None) sigterm_in_loop started)
  = Raised (SystemExit 0) /\
  fd_open (final (loop wdt10 (Some external_check) 600 7 (Monitoring None)
                       sigterm_in_loop started)) = false /\
  exists before,
    events (loop wdt10 (Some external_check) 600 7 (Monitoring None)
                 sigterm_in_loop started)
    = before ++ [EvWrite "V"; EvClose] /\
    existsb is_disarm before = false.
Proof.
  apply (X14_sigterm_in_the_loop_disarms_once
           wdt10 (Some external_check) 600 sigterm_in_loop started 7 (Monitoring None) 6).
  - right. reflexivity.
  - intros i. reflexivity.
  - intros i. cbn. discriminate.
  - reflexivity.
  - intros a b. apply every_ten_seconds_differences.
  - exact I.
  - reflexivity.
  - reflexivity.
  - reflexivity.
  - cbn. lia.
  - cbn. lia.
Defined.

(** ** The text of /proc/meminfo *)

(** X15.  dog.py:52-54.  Which number [avail] is.  When every line of
    /proc/meminfo has at least two words, [avail] is [int] of the second
    word of the last line that starts with the word [MemAvailable:], and
    [int("0")] when no line does; further words of a line, such as the
    unit, play no part.  A line with fewer than two words, a blank line
    for one, makes [dict] raise. *)
Theorem X15_avail_is_the_last_MemAvailable_line :
  forall (lines : list string),
    (Forall (fun line => (2 <= List.length (split line))%nat) lines ->
     parse_meminfo lines = parse_int (meminfo_value lines)) /\
    (Exists (fun line => (List.length (split line) < 2)%nat) lines ->
     parse_meminfo lines = None).
Proof.
  intros lines. unfold parse_meminfo. split.
  - intros Hall. destruct (py_dict_from_words lines [] Hall) as (d' & -> & Hget).
    now rewrite Hget.
  - intros Hex. now rewrite py_dict_from_short.
Qed.

Lemma X15_witness :
  parse_meminfo (sample_meminfo "8123456" ++ sample_meminfo "77")
  = parse_int (meminfo_value (sample_meminfo "8123456" ++ sample_meminfo "77")) /\
  parse_meminfo (sample_meminfo "8123456" ++ [newline]) = None.
Proof.
  split.
  - apply (proj1 (X15_avail_is_the_last_MemAvailable_line _)).
    repeat (apply Forall_cons; [vm_compute; lia |]). apply Forall_nil.
  - apply (proj2 (X15_avail_is_the_last_MemAvailable_line _)).
    do 3 apply Exists_cons_tl. apply Exists_cons_hd. vm_compute. lia.
Defined.

(** X16.  dog.py:52-54.  From the text the kernel prints back to the
    number.  For a /proc/meminfo of lines [Name:   <amount> kB] with names
    free of white space, [avail] is the amount of the last line named
    [MemAvailable], and 0 when there is none. *)
Theorem X16_avail_of_a_kernel_meminfo :
  forall (entries : list (string * nat * nat)),
    Forall (fun entry => no_space (fst (fst entry)) = true) entries ->
    parse_meminfo (render entries) = Some (Z.of_nat (last_available entries)).
Proof.
  intros entries Hall.
  assert (Hwords : Forall (fun line => (2 <= List.length (split line))%nat)
                          (render entries)).
  { unfold render. apply Forall_map. eapply Forall_impl; [| exact Hall].
    intros [[name pad] kB] Hname. cbn in Hname.
    rewrite split_meminfo_line by exact Hname. cbn. lia. }
  unfold parse_meminfo.
  destruct (py_dict_from_words (render entries) [] Hwords) as (d' & -> & Hget).
  rewrite Hget. cbn [dict_get].
  change "0"%string with (decimal 0).
  rewrite meminfo_value_render by exact Hall.
  apply parse_int_decimal.
Qed.

Lemma X16_witness :
  parse_meminfo (render [("MemTotal"%string, 6%nat, 4096%nat);
                         ("MemFree"%string, 9%nat, 512%nat);
                         ("MemAvailable"%string, 2%nat, 2048%nat);
                         ("Buffers"%string, 9%nat, 64%nat)])
  = Some 2048%Z.
Proof.
  apply (X16_avail_of_a_kernel_meminfo
           [("MemTotal"%string, 6%nat, 4096%nat); ("MemFree"%string, 9%nat, 512%nat);
            ("MemAvailable"%string, 2%nat, 2048%nat); ("Buffers"%string, 9%nat, 64%nat)]).
  repeat (apply Forall_cons; [reflexivity |]). apply Forall_nil.
Defined.

(** ** [run]: from the grace period to the Monitoring phase *)

Lemma startup_loop_ends env self hc ft E :
  sigterm_at env = None ->
  (forall k, dev_ok env k = true) ->
  sleep_error (interval self) = None ->
  forall m s,
    fd_open s = true ->
    (forall i, (i < m)%nat -> (clock env (i + nclock s) <? E) = true) ->
    (clock env (m + nclock s) <? E) = false ->
    outcome (loop self hc ft (S m) (Starting E) env s) = Normal (Monitoring None) /\
    nth_error (ticks self hc ft (S m) (Starting E) env s) m = Some [EvPrint MsgMonitoring].
Proof.
  intros Hsig Hdev Hsleep. induction m as [| m IH]; intros s Hfd Hearly Hlate.
  - pose proof (startup_ends env Hsig self E s Hlate) as Hrun.
    split.
    + rewrite (loop_step env self hc ft 0 (Starting E) s _ _ _ Hrun). reflexivity.
    + cbn [ticks iteration]. rewrite Hrun. reflexivity.
  - pose proof (startup_feeds env Hsig Hdev self E s Hsleep Hfd (Hearly 0%nat ltac:(lia)))
      as Hrun.
    destruct (IH (bump 4 1 1 0 s) Hfd) as [Hloop Hticks].
    + intros i Hi. cbn [bump nclock].
      replace (i + (1 + nclock s))%nat with (S i + nclock s)%nat by lia.
      apply Hearly. lia.
    + cbn [bump nclock].
      replace (m + (1 + nclock s))%nat with (S m + nclock s)%nat by lia. exact Hlate.
    + split.
      * rewrite (loop_step env self hc ft (S m) (Starting E) s _ _ _ Hrun). exact Hloop.
      * cbn [ticks iteration]. rewrite Hrun. cbn [outcome final events nth_error].
        exact Hticks.
Qed.

(** X17.  dog.py:28-34.  The grace period ends at the first reading of the
    clock that is not below [end_time], the double that the program
    computes on entry as its reading plus [startup_delay].  If that is the
    reading of round [m], then [m] rounds have fed, round [m] only prints
    the line that announces the health checks, and the loop stands in the
    Monitoring phase with the window closed. *)
Theorem X17_grace_period_ends_at_the_first_late_reading :
  forall (self : WDT) (hc : option (M bool)) (startup_delay fail_timeout : float)
         (env : Env) (s : State) (m : nat),
    sigterm_at env = None ->
    (forall k, dev_ok env k = true) ->
    fd_open s = true ->
    sleep_error (interval self) = None ->
    let end_time := clock env (nclock s) + startup_delay in
    (forall i, (i < m)%nat -> (clock env (S i + nclock s) <? end_time) = true) ->
    (clock env (S m + nclock s) <? end_time) = false ->
    outcome (run self hc startup_delay fail_timeout (S m) env s) = Normal (Monitoring None) /\
    (forall i, (i < m)%nat ->
       nth_error (run_decisions self hc startup_delay fail_timeout (S m) env s) i
       = Some true) /\
    nth_error (run_decisions self hc startup_delay fail_timeout (S m) env s) m = Some false.
Proof.
  intros self hc sd ft env s m Hsig Hdev Hfd Hsleep end_time Hearly Hlate.
  pose proof (run_entry_quiet env Hsig sd s) as Hentry. fold end_time in Hentry.
  assert (Hearly' : forall i, (i < m)%nat ->
            (clock env (i + nclock (bump 2 1 0 0 s)) <? end_time) = true).
  { intros i Hi. cbn [bump nclock].
    replace (i + (1 + nclock s))%nat with (S i + nclock s)%nat by lia.
    now apply Hearly. }
  assert (Hlate' : (clock env (m + nclock (bump 2 1 0 0 s)) <? end_time) = false).
  { cbn [bump nclock].
    replace (m + (1 + nclock s))%nat with (S m + nclock s)%nat by lia. exact Hlate. }
  destruct (startup_loop_ends env self hc ft end_time Hsig Hdev Hsleep m (bump 2 1 0 0 s)
              Hfd Hearly' Hlate') as [Hloop Hlast].
  split; [| split].
  - unfold run, bind. rewrite Hentry. cbn [outcome final events]. exact Hloop.
  - intros i Hi. unfold run_decisions. rewrite Hentry. cbn [outcome final].
    unfold decisions. rewrite nth_error_map.
    rewrite (startup_rounds env Hsig Hdev self hc ft end_time (S m) (bump 2 1 0 0 s) i
               Hsleep Hfd)
      by (try lia; intros i' Hi'; apply Hearly'; lia).
    reflexivity.
  - unfold run_decisions. rewrite Hentry. cbn [outcome final].
    unfold decisions. rewrite nth_error_map, Hlast. reflexivity.
Qed.

Lemma X17_witness :
  outcome (run wdt10 (Some external_check) 300 600 31 always_raising started)
  = Normal (Monitoring None) /\
  nth_error (run_decisions wdt10 (Some external_check) 300 600 31 always_raising started) 29
  = Some true /\
  nth_error (run_decisions wdt10 (Some external_check) 300 600 31 always_raising started) 30
  = Some false.
Proof.
  destruct (X17_grace_period_ends_at_the_first_late_reading
              wdt10 (Some external_check) 300 600 always_raising started 30
              eq_refl (fun _ => eq_refl) eq_refl eq_refl) as (Hrun & Hfed & Hlast).
  - apply (bounded_all
             (fun i => clock always_raising (S i + nclock started)
                       <? clock always_raising (nclock started) + 300) 30).
    vm_compute. reflexivity.
  - vm_compute. reflexivity.
  - split; [exact Hrun |]. split; [apply Hfed; lia | exact Hlast].
Defined.

(** ** [run] with the reference predicate: trouble that does not end the loop *)

(** X18.  dog.py:59-68 with dog.py:36-48.  With an interval that
    [time.sleep] accepts, a readable /proc/meminfo, a working watchdog
    device and a clock whose differences are numbers, nothing that the
    disk does ends the loop under [check_system_alive]: failed and slow
    scratch writes are answers of the predicate, and after any number of
    iterations the daemon is still looping with its device open. *)
Theorem X18_disk_trouble_never_ends_the_loop :
  forall (self : WDT) (fail_timeout : float) (env : Env) (s : State) (n : nat) (p : Phase),
    sigterm_at env = None ->
    (forall k, dev_ok env k = true) ->
    (forall k, exists lines avail,
        meminfo env k = Some lines /\ parse_meminfo lines = Some avail) ->
    sleep_error (interval self) = None ->
    finite_differences env ->
    window_read env p ->
    fd_open s = true ->
    let r := loop self (Some check_system_alive) fail_timeout n p env s in
    (exists p', outcome r = Normal p') /\ fd_open (final r) = true.
Proof.
  intros self ft env s n p Hsig Hdev Hread Hsleep Hfin Hp Hfd r.
  pose proof (steady_loop env Hsig Hdev Hread Hfin self ft n p Hsleep Hp s [] Hfd) as H.
  fold r in H.
  destruct (outcome r) as [p' | e]; [| contradiction].
  split; [eauto | exact (proj1 H)].
Qed.

Lemma X18_witness :
  (exists p', outcome (loop wdt10 (Some check_system_alive) 600 100 (Starting 25)
                            broken_disk started) = Normal p') /\
  fd_open (final (loop wdt10 (Some check_system_alive) 600 100 (Starting 25)
                       broken_disk started)) = true.
Proof.
  apply (X18_disk_trouble_never_ends_the_loop wdt10 600 broken_disk started 100 (Starting 25)).
  - reflexivity.
  - intros k. reflexivity.
  - intros k. exists (sample_meminfo "8123456"), 8123456%Z. split; reflexivity.
  - reflexivity.
  - intros a b. apply every_ten_seconds_differences.
  - exact I.
  - reflexivity.
Defined.

(** ** [run]: the start of the fail window *)

(** X19.  dog.py:41-43.  The start of the fail window is taken once.
    Through an unhealthy streak, with an interval that [time.sleep]
    accepts and ages of the window that are numbers, it stays the reading
    at which the window opened, whatever the clock reads afterwards. *)
Theorem X19_fail_window_start_is_taken_once :
  forall (self : WDT) (fail_timeout : float) (env : Env) (s : State) (n : nat),
    sigterm_at env = None ->
    (forall k, dev_ok env k = true) ->
    fd_open s = true ->
    sleep_error (interval self) = None ->
    (forall k, (nprobe s <= k)%nat -> probe env k = Returns false) ->
    ((forall i, (i <= n)%nat ->
        finite (clock env (S i + nclock s) - clock env (nclock s)) = true) ->
     outcome (loop self (Some external_check) fail_timeout (S n) (Monitoring None) env s)
     = Normal (Monitoring (Some (clock env (nclock s))))) /\
    forall T,
      (forall i, (i < n)%nat -> finite (clock env (i + nclock s) - T) = true) ->
      outcome (loop self (Some external_check) fail_timeout n (Monitoring (Some T)) env s)
      = Normal (Monitoring (Some T)).
Proof.
  intros self ft env s n Hsig Hdev Hfd Hsleep Hp. split.
  - intros Hfin.
    apply (opening_loop env Hsig Hdev self ft (S n) s Hsleep Hfd Hp).
    intros i Hi. apply Hfin. lia.
  - intros T Hfin. now apply streak_loop.
Qed.

Lemma X19_witness :
  outcome (loop wdt10 (Some external_check) 600 70 (Monitoring None) always_unhealthy started)
  = Normal (Monitoring (Some (every_ten_seconds 0))) /\
  outcome (loop wdt10 (Some external_check) 600 69 (Monitoring (Some (-590)))
                always_unhealthy started)
  = Normal (Monitoring (Some (-590))).
Proof.
  destruct (X19_fail_window_start_is_taken_once
              wdt10 600 always_unhealthy started 69
              eq_refl (fun _ => eq_refl) eq_refl eq_refl (fun _ _ => eq_refl))
    as [Hopen Hkeep].
  split.
  - apply Hopen. intros i _. apply every_ten_seconds_differences.
  - apply Hkeep.
    apply (bounded_all (fun i => finite (clock always_unhealthy (i + nclock started) - -590)) 69).
    vm_compute. reflexivity.
Defined.

(** ** [run]: an interval that [time.sleep] refuses *)

(** X20.  dog.py:31 and 48.  [run] does not check its interval.  When
    [time.sleep] refuses it (a negative interval, NaN, or one too large
    for the timer), the loop feeds the device once and ends with the
    exception of its first sleep: a [ValueError] or an [OverflowError]
    instead of a running watchdog daemon. *)
Theorem X20_refused_interval_ends_the_loop_at_its_first_sleep :
  forall (self : WDT) (hc : option (M bool)) (fail_timeout : float)
         (env : Env) (s : State) (n : nat) (e : Exn),
    sigterm_at env = None ->
    dev_ok env (ndev s) = true ->
    fd_open s = true ->
    sleep_error (interval self) = Some e ->
    (forall end_time,
       (clock env (nclock s) <? end_time) = true ->
       loop self hc fail_timeout (S n) (Starting end_time) env s
       = mkResult (Raised e) (bump 4 1 1 0 s) [EvWrite "1"; EvFlush]) /\
    (forall fail_start,
       loop self None fail_timeout (S n) (Monitoring fail_start) env s
       = mkResult (Raised e) (bump 3 0 1 0 s) [EvWrite "1"; EvFlush]).
Proof.
  intros self hc ft env s n e Hsig Hdev Hfd Hsleep. split.
  - intros E Hearly. apply (loop_raised env). cbn [iteration]. unfold startup_iteration.
    step ltac:(apply time_time_quiet; assumption).
    rewrite Hearly.
    step ltac:(apply feed_quiet; [assumption | assumption | exact Hdev]).
    apply run_bind_raised. apply time_sleep_refused; assumption.
    all: reflexivity.
  - intros fs. apply (loop_raised env). cbn [iteration]. unfold monitor_iteration.
    step ltac:(cbn [health_test]; unfold ret; reflexivity).
    step idtac.
    { step ltac:(apply feed_quiet; [assumption | assumption | exact Hdev]).
      all: reflexivity. }
    apply run_bind_raised. apply time_sleep_refused; assumption.
    all: reflexivity.
Qed.

Lemma X20_witness :
  loop (mkWDT (-1)) (Some external_check) 600 5 (Starting 25) always_unhealthy started
  = mkResult (Raised ValueError) (bump 4 1 1 0 started) [EvWrite "1"; EvFlush] /\
  loop (mkWDT (-1)) None 600 5 (Monitoring None) always_unhealthy started
  = mkResult (Raised ValueError) (bump 3 0 1 0 started) [EvWrite "1"; EvFlush].
Proof.
  destruct (X20_refused_interval_ends_the_loop_at_its_first_sleep
              (mkWDT (-1)) (Some external_check) 600 always_unhealthy started 4 ValueError
              eq_refl eq_refl eq_refl eq_refl) as [Hstart Hmon].
  split; [apply Hstart; vm_compute; reflexivity | apply Hmon].
Defined.
